(** * Phase-skew analysis of the NI DSA synchronisation examples

    A shallow embedding of the per-chunk analysis code of
    [ChnlExpSync/src/ChnlExpSync.c] (single task, interleaved read) and
    [RefClkSync/src/RefClkSync.c] (two tasks, one read per device):
    the de-interleaving loop of [EveryNCallback], the per-bin loop of [DFT],
    the phase-skew arithmetic that follows it and
    [NormalizePhaseAngleDifference].
    Around it, [StoreData], the voltage-file loop and the sample totals of
    [EveryNCallback], and the time array, file loop and totals of
    [Sync_4499_6259.c] (two tasks, voltage log only).

    A C [double] is an IEEE 754 binary64 value, modelled by Rocq's primitive
    [float], every operation rounded to nearest on its own (no extended
    precision, no fused multiply-add); a C [int] is a [Z] together with the
    conversions the code performs on it.  A computation is in the [option] monad: [None] stands
    for undefined behaviour (an out-of-bounds array access, a signed
    overflow, a [double] converted to an [int] that cannot hold it).

    FFTW ([fftw_plan_dft_r2c_1d], [fftw_execute]) and libm's [atan2] are
    external: the transform is represented by the two output buffers
    [dsaOutput] and [mioOutput] it fills, and [atan2] is a section
    variable. *)

From Stdlib Require Import ZArith Lia Bool Floats.
From Stdlib Require Uint63.
From stdpp Require Import base option list.

Open Scope Z_scope.

(** ** C scalar conversions *)

Module C.

Definition INT_MAX : Z := 2147483647.
Definition INT_MIN : Z := -2147483648.

Definition in_int (z : Z) : bool := (INT_MIN <=? z) && (z <=? INT_MAX).

(** [int n = x] for a [long long x]: the value is kept when it fits and
    reduced modulo [2^32] otherwise (the conversion is
    implementation-defined; this is what GCC, Clang and MSVC document). *)
Definition int_of_longlong (x : Z) : Z := (x + 2 ^ 31) mod 2 ^ 32 - 2 ^ 31.

(** [a + b] on [int]: signed overflow is undefined. *)
Definition int_add (a b : Z) : option Z :=
  if in_int (a + b) then Some (a + b) else None.

(** [(double) z] for an integer of magnitude below [2^63]; exact for
    every [int]. *)
Definition double_of_int (z : Z) : float :=
  if z <? 0 then (- of_uint63 (Uint63.of_Z (- z)))%float
  else of_uint63 (Uint63.of_Z z).

(** [(int) x] for a [double x]: the fractional part is discarded
    (truncation toward zero); undefined when [x] is a NaN, an infinity or
    when the truncated value does not fit in an [int]. *)
Definition int_of_double (x : float) : option Z :=
  match Prim2SF x with
  | S754_zero _ => Some 0
  | S754_finite s m e =>
      let a := Z.shiftl (Z.pos m) e in
      let z := if s then - a else a in
      if in_int z then Some z else None
  | S754_infinity _ | S754_nan => None
  end.

(** [a >= b] and [a > b] on [double]; false as soon as one side is a NaN. *)
Definition ge (a b : float) : bool := (b <=? a)%float.
Definition gt (a b : float) : bool := (b <? a)%float.
Definition lt (a b : float) : bool := (a <? b)%float.

End C.

(** [for (int i = start; ...; i++) body], run for [count] iterations. *)
Fixpoint for_loop {S : Type} (count : nat) (i : Z)
    (body : Z -> S -> option S) (s : S) : option S :=
  match count with
  | O => Some s
  | Datatypes.S k => s' ← body i s; for_loop k (i + 1) body s'
  end.

(** [for (int i = 0; i < n; i++) body]. *)
Definition for_lt {S : Type} (n : Z) (body : Z -> S -> option S) (s : S)
  : option S :=
  for_loop (Z.to_nat n) 0 body s.

(** ** Data shared by the two programs *)

(** [fftw_complex] is [double[2]], indexed by the macros [REAL] and [IMAG]. *)
Definition fftw_complex : Type := float * float.
Definition REAL (c : fftw_complex) : float := fst c.
Definition IMAG (c : fftw_complex) : float := snd c.

(** [#define PI 3.14159265], as the nearest binary64 value. *)
Definition PI : float := 0x1.921fb53c8d4f1p+1%float.

(** One line of the DFT data file:
    frequency, DSA magnitude, DSA amplitude, MIO magnitude, MIO amplitude. *)
Record dft_row : Type := mk_row {
  row_freq : float;
  row_dsaMagnitude : float;
  row_dsaAmplitude : float;
  row_mioMagnitude : float;
  row_mioAmplitude : float
}.

(** The three values [DFT] stores through its pointer arguments. *)
Record measured : Type := mk_measured {
  measuredPhaseSkewDeg : float;
  measuredPhaseSkewSec : float;
  measuredFreq : float
}.

(** [sqrt(re*re + im*im)], the magnitude both loops compute for a bin. *)
Definition magnitude (c : fftw_complex) : float :=
  PrimFloat.sqrt (REAL c * REAL c + IMAG c * IMAG c)%float.

(** [NormalizePhaseAngleDifference], the same text in both programs. *)
Definition NormalizePhaseAngleDifference (phase : float) : float :=
  let phase := if C.gt phase 270 then (phase - 360)%float else phase in
  let phase := if C.lt phase (-90) then (phase + 360)%float else phase in
  phase.

(** The two statements under "Calculate phase skew between DSA and MIO
    device", the same text in both programs ([freq] is [maxFreq] in
    ChnlExpSync.c). *)
Definition phaseSkewDeg (dsaPhase mioPhase : float) : float :=
  NormalizePhaseAngleDifference (dsaPhase - mioPhase)%float.

Definition phaseSkewSec (dsaPhase mioPhase freq : float) : float :=
  ((dsaPhase - mioPhase) / 360 * (1 / freq))%float.

(** [a[i]] read and [a[i] = v]: undefined outside the array. *)
Definition load {A : Type} (a : list A) (i : Z) : option A :=
  if i <? 0 then None else a !! Z.to_nat i.

Definition store {A : Type} (a : list A) (i : Z) (v : A) : option (list A) :=
  if (0 <=? i) && (i <? Z.of_nat (length a))
  then Some (<[Z.to_nat i := v]> a) else None.

(** [StoreData], the same text in both programs: [output] is the array as
    it is on entry, the result its contents on return. *)
Definition StoreData_body (dataToAllocate : list float) (i : Z)
    (output : list float) : option (list float) :=
  x ← load dataToAllocate i;
  store output i x.

Definition StoreData (arraySize : Z) (dataToAllocate output : list float)
  : option (list float) :=
  for_lt arraySize (StoreData_body dataToAllocate) output.

(** What one call of [DAQmxReadAnalogF64] gives back: the status it
    returns and the count it stores through its [sampsPerChanRead]
    argument. *)
Record read_result : Type := mk_read {
  read_error : Z;
  read_count : Z
}.

(** [DAQmxFailed(error)], which NIDAQmx.h defines as [((error)<0)]: a
    negative status is an error, a positive one a warning.  Every read is
    wrapped in [DAQmxErrChk], that is
    [if( DAQmxFailed(error=(functionCall)) ) goto Error; else]. *)
Definition DAQmxFailed (error : Z) : bool := error <? 0.

(** [if( read>0 ) total += read;] on a [static int32] total, the statement
    every [EveryNCallback] ends with. *)
Definition add_read (total read : Z) : option Z :=
  if 0 <? read then C.int_add total read else Some total.

(** Successive invocations of a callback: the [static] totals left by one
    are those the next one starts from. *)
Fixpoint callbacks {R T : Type} (callback : R -> T -> option T)
    (reads : list R) (totals : T) : option T :=
  match reads with
  | [] => Some totals
  | r :: rs => t ← callback r totals; callbacks callback rs t
  end.

(** One line of the voltage data file: time, then one sample of each
    device. *)
Record voltage_row : Type := mk_voltage {
  row_time : float;
  row_dsaData : float;
  row_mioData : float
}.

(** "Write to voltage data to CSV", the same loop in ChnlExpSync.c and
    RefClkSync.c: [timeData] is the local array as it is when the loop
    starts, and the lines written after the header are returned. *)
Record log_state : Type := mk_log {
  log_timeData : list float;
  log_file : list voltage_row
}.

Definition log_body (sampleRate : float) (dsaData mioData : list float)
    (i : Z) (st : log_state) : option log_state :=
  timeData ← store (log_timeData st) i (C.double_of_int i * (1 / sampleRate))%float;
  t ← load timeData i;
  d ← load dsaData i;
  m ← load mioData i;
  _ ← C.int_add i 1;
  Some (mk_log timeData (log_file st ++ [mk_voltage t d m])).

Definition voltage_log (sampsPerChan : Z) (sampleRate : float)
    (dsaData mioData timeData : list float) : option (list voltage_row) :=
  st ← for_lt sampsPerChan (log_body sampleRate dsaData mioData)
         (mk_log timeData []);
  Some (log_file st).

(** ** ChnlExpSync.c: one task, interleaved read *)

Module ChnlExpSync.

(** *** [EveryNCallback]: "Split data into 2 separate arrays" *)

Record split_state : Type := mk_split {
  split_j : Z;
  split_dsaData : list float;
  split_mioData : list float
}.

Definition split_body (totalData : list float) (i : Z) (st : split_state)
  : option split_state :=
  let j := split_j st in
  x ← load totalData j;
  dsaData ← store (split_dsaData st) i x;
  j1 ← C.int_add j 1;
  y ← load totalData j1;
  mioData ← store (split_mioData st) i y;
  j' ← C.int_add j 2;
  Some (mk_split j' dsaData mioData).

(** [dsaData] and [mioData] are the two local arrays as they are when the
    loop starts (declared with [sampsPerChan] elements, contents
    indeterminate); the result is their contents after the loop. *)
Definition split_data (sampsPerChan : Z)
    (totalData dsaData mioData : list float)
  : option (list float * list float) :=
  st ← for_lt sampsPerChan (split_body totalData) (mk_split 0 dsaData mioData);
  Some (split_dsaData st, split_mioData st).

(** *** [DFT]: "Calculate and store the frequency components" *)

Record scan_state : Type := mk_scan {
  maxMagnitudeIndex : Z;
  maxMagnitude : Z;
  file : list dft_row
}.

Definition scan_body (n : Z) (binPrecision : float)
    (dsaOutput mioOutput : list fftw_complex) (i : Z) (st : scan_state)
  : option scan_state :=
  dsa ← load dsaOutput i;
  mio ← load mioOutput i;
  let dsaRealComp := REAL dsa in
  let dsaImagComp := IMAG dsa in
  let mioRealComp := REAL mio in
  let mioImagComp := IMAG mio in
  let freq := (C.double_of_int i * binPrecision)%float in
  let dsaMagnitude :=
    PrimFloat.sqrt (dsaRealComp * dsaRealComp + dsaImagComp * dsaImagComp)%float in
  let mioMagnitude :=
    PrimFloat.sqrt (mioRealComp * mioRealComp + mioImagComp * mioImagComp)%float in
  let dsaAmplitude := (dsaMagnitude * 2 / C.double_of_int n)%float in
  let mioAmplitude := (mioMagnitude * 2 / C.double_of_int n)%float in
  let file' :=
    file st ++ [mk_row freq dsaMagnitude dsaAmplitude mioMagnitude mioAmplitude] in
  if C.ge dsaMagnitude (C.double_of_int (maxMagnitude st))
     && C.ge mioMagnitude (C.double_of_int (maxMagnitude st))
  then
    m ← C.int_of_double dsaMagnitude;
    Some (mk_scan i m file')
  else Some (mk_scan (maxMagnitudeIndex st) (maxMagnitude st) file').

(** The per-bin loop on its own: the state it leaves when [i] reaches
    [nc]. *)
Definition scan (dsaOutput mioOutput : list fftw_complex)
    (sampleRate : float) (sampsPerChan : Z) : option scan_state :=
  let n := C.int_of_longlong sampsPerChan in
  let nc := Z.quot n 2 + 1 in
  let binPrecision := (sampleRate / C.double_of_int sampsPerChan)%float in
  for_lt nc (scan_body n binPrecision dsaOutput mioOutput) (mk_scan 0 0 []).

(** The state the loop is in after its first [k] iterations. *)
Definition prefix (n : Z) (binPrecision : float)
    (dsaOutput mioOutput : list fftw_complex) (k : nat) : option scan_state :=
  for_loop k 0 (scan_body n binPrecision dsaOutput mioOutput) (mk_scan 0 0 []).

(** The line written for bin [i]. *)
Definition row_of (n : Z) (binPrecision : float) (dsa mio : fftw_complex)
    (i : Z) : dft_row :=
  mk_row (C.double_of_int i * binPrecision)%float
         (magnitude dsa) (magnitude dsa * 2 / C.double_of_int n)%float
         (magnitude mio) (magnitude mio * 2 / C.double_of_int n)%float.

(** The test that guards the update of the running maximum. *)
Definition accepts (st : scan_state) (dsa mio : fftw_complex) : bool :=
  C.ge (magnitude dsa) (C.double_of_int (maxMagnitude st))
  && C.ge (magnitude mio) (C.double_of_int (maxMagnitude st)).

(** The running maximum is [0] until a bin is accepted, and from then on
    the DSA magnitude of the selected bin converted to [int]. *)
Definition threshold_inv (dsaOutput : list fftw_complex) (st : scan_state)
  : Prop :=
  (maxMagnitudeIndex st = 0 /\ maxMagnitude st = 0)
  \/ exists dsa, load dsaOutput (maxMagnitudeIndex st) = Some dsa
                 /\ C.int_of_double (magnitude dsa) = Some (maxMagnitude st).

(** What the split loop has established after [k] iterations. *)
Definition split_inv (totalData : list float) (N k : nat) (st : split_state)
  : Prop :=
  split_j st = 2 * Z.of_nat k
  /\ length (split_dsaData st) = N
  /\ length (split_mioData st) = N
  /\ (forall i, (i < k)%nat ->
        split_dsaData st !! i = totalData !! (2 * i)%nat
        /\ split_mioData st !! i = totalData !! (2 * i + 1)%nat).

Section Libm.
Variable atan2 : float -> float -> float.

(** [dsaOutput] and [mioOutput] are the buffers after [fftw_execute];
    [precision] only sets the number of digits printed and [file] is
    returned as the list of lines written after the header. *)
Definition DFT (dsaOutput mioOutput : list fftw_complex)
    (sampleRate : float) (sampsPerChan : Z)
  : option (list dft_row * measured) :=
  let binPrecision := (sampleRate / C.double_of_int sampsPerChan)%float in
  st ← scan dsaOutput mioOutput sampleRate sampsPerChan;
  dsaMax ← load dsaOutput (maxMagnitudeIndex st);
  mioMax ← load mioOutput (maxMagnitudeIndex st);
  let dsaMaxRealComp := REAL dsaMax in
  let dsaMaxImagComp := IMAG dsaMax in
  let mioMaxRealComp := REAL mioMax in
  let mioMaxImagComp := IMAG mioMax in
  let maxFreq := (C.double_of_int (maxMagnitudeIndex st) * binPrecision)%float in
  let dsaPhase := (atan2 dsaMaxImagComp dsaMaxRealComp * (180 / PI))%float in
  let mioPhase := (atan2 mioMaxImagComp mioMaxRealComp * (180 / PI))%float in
  Some (file st,
        mk_measured (phaseSkewDeg dsaPhase mioPhase)
                    (phaseSkewSec dsaPhase mioPhase maxFreq)
                    maxFreq).
End Libm.

(** *** [EveryNCallback]: the sample counts

    [read] is what the call of [DAQmxReadAnalogF64] gave back.  When it
    failed, [DAQmxErrChk] jumps to [Error], past everything up to and
    including the totals, which stay as they are.  Otherwise
    [samplesReadPerChan] is the count the read stored; the test
    [if (samplesReadPerChan = sampsPerChan)] assigns before it tests, and
    [dsaRead] and [mioRead] are set only in its branch. *)
Definition count_reads (sampsPerChan : Z) (read : read_result)
    (totals : Z * Z) : option (Z * Z) :=
  let error := read_error read in
  if DAQmxFailed error then Some totals
  else
    let samplesReadPerChan := read_count read in
    let samplesReadPerChan := C.int_of_longlong sampsPerChan in
    reads ← (if samplesReadPerChan =? 0 then None
             else Some (samplesReadPerChan, samplesReadPerChan));
    let dsaRead := fst reads in
    let mioRead := snd reads in
    dsaTotalRead ← add_read (fst totals) dsaRead;
    mioTotalRead ← add_read (snd totals) mioRead;
    Some (dsaTotalRead, mioTotalRead).

(** *** [EveryNCallback] and the first statements of [DFT]: from the
    buffer read to the two arrays handed to FFTW *)
Definition fft_inputs (sampsPerChan : Z)
    (totalData dsaData mioData dsaInput mioInput : list float)
  : option (list float * list float) :=
  channels ← split_data sampsPerChan totalData dsaData mioData;
  let n := C.int_of_longlong sampsPerChan in
  dsaInput ← StoreData n (fst channels) dsaInput;
  mioInput ← StoreData n (snd channels) mioInput;
  Some (dsaInput, mioInput).

(** *** [EveryNCallback]: the lines of the voltage data file *)
Definition voltage_file (sampsPerChan : Z) (sampleRate : float)
    (totalData dsaData mioData timeData : list float)
  : option (list voltage_row) :=
  channels ← split_data sampsPerChan totalData dsaData mioData;
  voltage_log sampsPerChan sampleRate (fst channels) (snd channels) timeData.

End ChnlExpSync.

(** ** RefClkSync.c: two tasks, one read per device *)

Module RefClkSync.

(** The state of the per-bin loop: what the three pointer arguments
    point to, and the lines written so far. *)
Record bins_state : Type := mk_bins {
  out : measured;
  file : list dft_row
}.

(** The gate on the three stores. *)
Definition gate (dsa mio : fftw_complex) : bool :=
  C.ge (magnitude dsa) 5 && C.ge (magnitude mio) 5.

(** The line written for bin [i]. *)
Definition row_of (n : Z) (sampleRate : float) (sampsPerChan : Z)
    (dsa mio : fftw_complex) (i : Z) : dft_row :=
  mk_row (C.double_of_int i * (sampleRate / C.double_of_int sampsPerChan))%float
         (magnitude dsa) (magnitude dsa * 2 / C.double_of_int n)%float
         (magnitude mio) (magnitude mio * 2 / C.double_of_int n)%float.

Section Libm.
Variable atan2 : float -> float -> float.

Definition bin_body (n : Z) (sampleRate : float) (sampsPerChan : Z)
    (dsaOutput mioOutput : list fftw_complex) (i : Z) (st : bins_state)
  : option bins_state :=
  dsa ← load dsaOutput i;
  mio ← load mioOutput i;
  let dsaRealComp := REAL dsa in
  let dsaImagComp := IMAG dsa in
  let mioRealComp := REAL mio in
  let mioImagComp := IMAG mio in
  let freq :=
    (C.double_of_int i * (sampleRate / C.double_of_int sampsPerChan))%float in
  let dsaMagnitude :=
    PrimFloat.sqrt (dsaRealComp * dsaRealComp + dsaImagComp * dsaImagComp)%float in
  let mioMagnitude :=
    PrimFloat.sqrt (mioRealComp * mioRealComp + mioImagComp * mioImagComp)%float in
  let dsaAmplitude := (dsaMagnitude * 2 / C.double_of_int n)%float in
  let mioAmplitude := (mioMagnitude * 2 / C.double_of_int n)%float in
  let dsaPhase := (atan2 dsaImagComp dsaRealComp * (180 / PI))%float in
  let mioPhase := (atan2 mioImagComp mioRealComp * (180 / PI))%float in
  let out' :=
    if C.ge dsaMagnitude 5 && C.ge mioMagnitude 5
    then mk_measured (phaseSkewDeg dsaPhase mioPhase)
                     (phaseSkewSec dsaPhase mioPhase freq)
                     freq
    else out st in
  Some (mk_bins out'
          (file st ++ [mk_row freq dsaMagnitude dsaAmplitude mioMagnitude mioAmplitude])).

(** [init] is what the three pointer arguments point to on entry. *)
Definition DFT (dsaOutput mioOutput : list fftw_complex)
    (sampleRate : float) (sampsPerChan : Z) (init : measured)
  : option (list dft_row * measured) :=
  let n := C.int_of_longlong sampsPerChan in
  let nc := Z.quot n 2 + 1 in
  st ← for_lt nc (bin_body n sampleRate sampsPerChan dsaOutput mioOutput)
         (mk_bins init []);
  Some (file st, out st).

(** The state the loop is in after its first [k] iterations. *)
Definition prefix (n : Z) (sampleRate : float) (sampsPerChan : Z)
    (dsaOutput mioOutput : list fftw_complex) (init : measured) (k : nat)
  : option bins_state :=
  for_loop k 0 (bin_body n sampleRate sampsPerChan dsaOutput mioOutput)
    (mk_bins init []).

(** What the three stores write for bin [i]. *)
Definition triple_of (sampleRate : float) (sampsPerChan : Z)
    (dsa mio : fftw_complex) (i : Z) : measured :=
  let freq :=
    (C.double_of_int i * (sampleRate / C.double_of_int sampsPerChan))%float in
  let dsaPhase := (atan2 (IMAG dsa) (REAL dsa) * (180 / PI))%float in
  let mioPhase := (atan2 (IMAG mio) (REAL mio) * (180 / PI))%float in
  mk_measured (phaseSkewDeg dsaPhase mioPhase)
              (phaseSkewSec dsaPhase mioPhase freq)
              freq.

(** The three locations hold what the highest-index gated bin among the
    first [k] stored, and their initial contents if there is none. *)
Definition out_inv (sampleRate : float) (sampsPerChan : Z)
    (dsaOutput mioOutput : list fftw_complex) (init : measured)
    (k : nat) (o : measured) : Prop :=
  (o = init
   /\ forall l dsa mio, (l < k)%nat ->
        dsaOutput !! l = Some dsa -> mioOutput !! l = Some mio ->
        gate dsa mio = false)
  \/ exists h dsa mio,
       (h < k)%nat /\ dsaOutput !! h = Some dsa /\ mioOutput !! h = Some mio
       /\ gate dsa mio = true
       /\ o = triple_of sampleRate sampsPerChan dsa mio (Z.of_nat h)
       /\ forall l dsa' mio', (h < l < k)%nat ->
            dsaOutput !! l = Some dsa' -> mioOutput !! l = Some mio' ->
            gate dsa' mio' = false.

(** [EveryNCallback]: the three locals start at 0, [DFT] is given their
    addresses, and their values are then printed. *)
Definition EveryNCallback (dsaOutput mioOutput : list fftw_complex)
    (sampleRate : float) (sampsPerChan : Z) : option measured :=
  let measuredPhaseSkewDeg := 0%float in
  let measuredPhaseSkewSec := 0%float in
  let measuredFreq := 0%float in
  r ← DFT dsaOutput mioOutput sampleRate sampsPerChan
        (mk_measured measuredPhaseSkewDeg measuredPhaseSkewSec measuredFreq);
  Some (snd r).
End Libm.

(** [EveryNCallback]: the sample counts.  [reads] is what the two calls of
    [DAQmxReadAnalogF64] gave back, the DSA read first.  When a read fails,
    [DAQmxErrChk] jumps to [Error], past everything up to and including
    the totals, which stay as they are (after a failed DSA read the MIO
    read is not made, and the second component is not looked at). *)
Definition count_reads (reads : read_result * read_result)
    (totals : Z * Z) : option (Z * Z) :=
  let error := read_error (fst reads) in
  if DAQmxFailed error then Some totals
  else
    let dsaRead := read_count (fst reads) in
    let error := read_error (snd reads) in
    if DAQmxFailed error then Some totals
    else
      let mioRead := read_count (snd reads) in
      dsaTotalRead ← add_read (fst totals) dsaRead;
      mioTotalRead ← add_read (snd totals) mioRead;
      Some (dsaTotalRead, mioTotalRead).

End RefClkSync.

(** ** Sync_4499_6259.c: two tasks, voltage log only *)

Module ContinuousAI.

(** "Create time array": the loop starts at [i = 1]. *)
Definition time_body (sampleRate : float) (i : Z) (timeData : list float)
  : option (list float) :=
  timeData ← store timeData i (C.double_of_int i * (1 / sampleRate))%float;
  _ ← C.int_add i 1;
  Some timeData.

Definition time_array (sampsPerChan : Z) (sampleRate : float)
    (timeData : list float) : option (list float) :=
  for_loop (Z.to_nat (sampsPerChan - 1)) 1 (time_body sampleRate) timeData.

(** "Write to CSV file". *)
Definition write_body (timeData masterData slaveData : list float)
    (i : Z) (file : list voltage_row) : option (list voltage_row) :=
  t ← load timeData i;
  m ← load masterData i;
  s ← load slaveData i;
  _ ← C.int_add i 1;
  Some (file ++ [mk_voltage t m s]).

(** [timeData] is the local array as it is on entry, its contents
    indeterminate; the lines appended to the file are returned. *)
Definition sync_file (sampsPerChan : Z) (sampleRate : float)
    (masterData slaveData timeData : list float)
  : option (list voltage_row) :=
  timeData ← time_array sampsPerChan sampleRate timeData;
  for_lt sampsPerChan (write_body timeData masterData slaveData) [].

(** The sample counts.  [reads] is what the two calls of
    [DAQmxReadAnalogF64] gave back, the DSA read first.  When a read fails,
    [DAQmxErrChk] jumps to [Error], past everything up to and including
    the totals, which stay as they are (after a failed DSA read the MIO
    read is not made, and the second component is not looked at). *)
Definition count_reads (reads : read_result * read_result)
    (totals : Z * Z) : option (Z * Z) :=
  let error := read_error (fst reads) in
  if DAQmxFailed error then Some totals
  else
    let masterRead := read_count (fst reads) in
    let error := read_error (snd reads) in
    if DAQmxFailed error then Some totals
    else
      let slaveRead := read_count (snd reads) in
      masterTotal ← add_read (fst totals) masterRead;
      slaveTotal ← add_read (snd totals) slaveRead;
      Some (masterTotal, slaveTotal).

End ContinuousAI.

(** ** Reference definitions used in the statements *)

(** The scan-major layout [a0, b0, a1, b1, ...] of two channels. *)
Fixpoint interleave (a b : list float) : list float :=
  match a, b with
  | x :: a', y :: b' => x :: y :: interleave a' b'
  | _, _ => []
  end.

(** A value that is a NaN or an infinity. *)
Definition not_finite (x : float) : bool := is_nan x || is_infinity x.

(** The time written on line [i] of a voltage file. *)
Definition time_of (sampleRate : float) (i : Z) : float :=
  (C.double_of_int i * (1 / sampleRate))%float.

(** The sum of the positive counts of a list of read counts. *)
Definition positive_total (reads : list Z) : Z :=
  foldr (fun r acc => Z.max 0 r + acc) 0 reads.

(** A read that did not fail, and a callback in which neither read
    failed. *)
Definition read_ok (r : read_result) : bool := negb (DAQmxFailed (read_error r)).

Definition reads_ok (reads : read_result * read_result) : bool :=
  read_ok (fst reads) && read_ok (snd reads).

(** The pairs of counts of the callbacks in which neither read failed. *)
Definition counted (reads : list (read_result * read_result))
  : list (Z * Z) :=
  (fun p => (read_count (fst p), read_count (snd p)))
    <$> List.filter reads_ok reads.

(** A binary64 evaluation of [atan2], used where the model is run on a
    concrete buffer.  On the half-axes it returns the correctly rounded
    values [0], [pi/2], [pi] and [-pi/2]; elsewhere it evaluates the
    alternating series of the arctangent after three angle halvings. *)
Module Libm.

Definition M_PI : float := 0x1.921fb54442d18p+1%float.
Definition M_PI_2 : float := 0x1.921fb54442d18p+0%float.

Definition atan_halve (x : float) : float :=
  (x / (1 + PrimFloat.sqrt (1 + x * x)))%float.

Fixpoint atan_series (terms : nat) (k x2 : float) : float :=
  match terms with
  | O => (1 / k)%float
  | Datatypes.S t => (1 / k - x2 * atan_series t (k + 2) x2)%float
  end.

Definition atan_unit (x : float) : float :=
  let y := atan_halve (atan_halve (atan_halve x)) in
  (8 * (y * atan_series 12 1 (y * y)))%float.

Definition atan (x : float) : float :=
  if (1 <? x)%float then (M_PI_2 - atan_unit (1 / x))%float
  else if (x <? -1)%float then (- M_PI_2 - atan_unit (1 / x))%float
  else atan_unit x.

Definition atan2 (y x : float) : float :=
  if (0 <? x)%float then atan (y / x)
  else if (x <? 0)%float then
    (if (y <? 0)%float then (atan (y / x) - M_PI)%float
     else (atan (y / x) + M_PI)%float)
  else if (0 <? y)%float then M_PI_2
  else if (y <? 0)%float then (- M_PI_2)%float
  else y.

End Libm.

(** * Properties *)

(** ** The counting loop and array accesses *)

Lemma for_loop_end {S : Type} (body : Z -> S -> option S) (k : nat) :
  forall (i : Z) (s : S),
    for_loop (Datatypes.S k) i body s
    = for_loop k i body s ≫= body (i + Z.of_nat k).
Proof.
  induction k as [|k IH]; intros i s.
  - cbn. rewrite Z.add_0_r. destruct (body i s); reflexivity.
  - change (for_loop (Datatypes.S (Datatypes.S k)) i body s)
      with (body i s ≫= for_loop (Datatypes.S k) (i + 1) body).
    change (for_loop (Datatypes.S k) i body s)
      with (body i s ≫= for_loop k (i + 1) body).
    destruct (body i s) as [s'|]; cbn [mbind option_bind]; [|reflexivity].
    rewrite IH. do 2 f_equal. lia.
Qed.

Lemma load_Some {A : Type} (a : list A) (i : Z) (x : A) :
  load a i = Some x <-> 0 <= i /\ a !! Z.to_nat i = Some x.
Proof.
  unfold load. destruct (Z.ltb_spec i 0); split.
  - discriminate.
  - intros [? _]; lia.
  - intros ?; split; [lia|assumption].
  - intros [_ ?]; assumption.
Qed.

Lemma load_nat {A : Type} (a : list A) (k : nat) :
  load a (Z.of_nat k) = a !! k.
Proof.
  unfold load. destruct (Z.ltb_spec (Z.of_nat k) 0); [lia|].
  now rewrite Nat2Z.id.
Qed.

Lemma store_nat {A : Type} (a : list A) (k : nat) (v : A) :
  (k < length a)%nat -> store a (Z.of_nat k) v = Some (<[k := v]> a).
Proof.
  intros Hk. unfold store.
  destruct (Z.leb_spec 0 (Z.of_nat k)); [|lia].
  destruct (Z.ltb_spec (Z.of_nat k) (Z.of_nat (length a))); [|lia].
  cbn. now rewrite Nat2Z.id.
Qed.

Lemma int_add_Some (a b : Z) :
  C.INT_MIN <= a + b <= C.INT_MAX -> C.int_add a b = Some (a + b).
Proof.
  intros H. unfold C.int_add, C.in_int.
  destruct (Z.leb_spec C.INT_MIN (a + b)); [|lia].
  destruct (Z.leb_spec (a + b) C.INT_MAX); [|lia]. reflexivity.
Qed.

Lemma int_of_longlong_id (x : Z) :
  C.INT_MIN <= x <= C.INT_MAX -> C.int_of_longlong x = x.
Proof.
  unfold C.int_of_longlong, C.INT_MIN, C.INT_MAX. intros H.
  rewrite Z.mod_small; lia.
Qed.

Lemma nc_in_range (N : Z) :
  0 < N <= C.INT_MAX -> Z.quot (C.int_of_longlong N) 2 + 1 = N / 2 + 1.
Proof.
  intros H. rewrite int_of_longlong_id by (unfold C.INT_MIN, C.INT_MAX in *; lia).
  rewrite Z.quot_div_nonneg by lia. reflexivity.
Qed.

(** ** De-interleaving (ChnlExpSync.c, [EveryNCallback]) *)

Section Split.
Variables (totalData dsaData0 mioData0 : list float) (N : nat).
Hypothesis total_len : length totalData = (2 * N)%nat.
Hypothesis dsa_len : length dsaData0 = N.
Hypothesis mio_len : length mioData0 = N.
Hypothesis fits : 2 * Z.of_nat N <= C.INT_MAX.

Lemma split_body_inv (k : nat) (st : ChnlExpSync.split_state) :
  (k < N)%nat -> ChnlExpSync.split_inv totalData N k st ->
  exists st', ChnlExpSync.split_body totalData (Z.of_nat k) st = Some st'
              /\ ChnlExpSync.split_inv totalData N (Datatypes.S k) st'.
Proof.
  intros Hk (Hj & Hd & Hm & Hpre).
  destruct (lookup_lt_is_Some_2 totalData (2 * k)%nat) as [x Hx]; [lia|].
  destruct (lookup_lt_is_Some_2 totalData (2 * k + 1)%nat) as [y Hy]; [lia|].
  exists (ChnlExpSync.mk_split (2 * Z.of_nat k + 2)
            (<[k := x]> (ChnlExpSync.split_dsaData st))
            (<[k := y]> (ChnlExpSync.split_mioData st))).
  split.
  - unfold ChnlExpSync.split_body. cbv zeta. rewrite Hj.
    replace (2 * Z.of_nat k) with (Z.of_nat (2 * k)) by lia.
    rewrite !int_add_Some by (unfold C.INT_MIN, C.INT_MAX in *; lia).
    rewrite load_nat, Hx. cbn [mbind option_bind].
    rewrite store_nat by lia. cbn [mbind option_bind].
    replace (Z.of_nat (2 * k) + 1) with (Z.of_nat (2 * k + 1)) by lia.
    rewrite load_nat, Hy. cbn [mbind option_bind].
    rewrite store_nat by lia. cbn [mbind option_bind].
    do 2 f_equal.
  - repeat split;
      cbn [ChnlExpSync.split_j ChnlExpSync.split_dsaData ChnlExpSync.split_mioData].
    + lia.
    + now rewrite length_insert.
    + now rewrite length_insert.
    + destruct (decide (i = k)) as [->|Hne].
      * rewrite list_lookup_insert_eq by lia. now rewrite Hx.
      * rewrite list_lookup_insert_ne by congruence. apply Hpre. lia.
    + destruct (decide (i = k)) as [->|Hne].
      * rewrite list_lookup_insert_eq by lia. now rewrite Hy.
      * rewrite list_lookup_insert_ne by congruence. apply Hpre. lia.
Qed.

Lemma split_loop_inv (k : nat) :
  (k <= N)%nat ->
  exists st,
    for_loop k 0 (ChnlExpSync.split_body totalData)
      (ChnlExpSync.mk_split 0 dsaData0 mioData0) = Some st
    /\ ChnlExpSync.split_inv totalData N k st.
Proof.
  induction k as [|k IH]; intros Hk.
  - eexists; split; [reflexivity|].
    repeat split; cbn; try assumption; intros; lia.
  - destruct IH as (st & Hrun & Hinv); [lia|].
    destruct (split_body_inv k st) as (st' & Hstep & Hinv'); [lia|assumption|].
    exists st'. split; [|assumption].
    rewrite for_loop_end, Hrun. cbn [mbind option_bind]. exact Hstep.
Qed.
End Split.

Lemma interleave_lookup (a b t : list float) :
  length a = length b ->
  length t = (2 * length a)%nat ->
  (forall i, (i < length a)%nat ->
     a !! i = t !! (2 * i)%nat /\ b !! i = t !! (2 * i + 1)%nat) ->
  interleave a b = t.
Proof.
  revert b t. induction a as [|x a IH]; intros b t Hab Ht Hi.
  - destruct t; [reflexivity|discriminate].
  - destruct b as [|y b]; [discriminate|].
    destruct t as [|x' [|y' t]]; try (cbn in Ht; lia).
    destruct (Hi 0%nat) as [H0 H1]; [cbn; lia|]. cbn in H0, H1.
    injection H0 as <-. injection H1 as <-.
    cbn [interleave]. do 2 f_equal. apply IH.
    + cbn in Hab. lia.
    + cbn in Ht. lia.
    + intros i Hlt. destruct (Hi (Datatypes.S i)) as [Ha Hb]; [cbn; lia|].
      replace (2 * Datatypes.S i)%nat
        with (Datatypes.S (Datatypes.S (2 * i))) in Ha by lia.
      replace (2 * Datatypes.S i + 1)%nat
        with (Datatypes.S (Datatypes.S (2 * i + 1))) in Hb by lia.
      exact (conj Ha Hb).
Qed.

(** C7: for an interleaved buffer of [2 * sampsPerChan] samples (a count
    the [int] counter [j] can reach), the split loop of [EveryNCallback]
    runs without an out-of-bounds access and leaves two arrays of
    [sampsPerChan] samples, [dsaData[i] = totalData[2i]] and
    [mioData[i] = totalData[2i+1]], whatever the two arrays held before;
    interleaving the two arrays again gives back the buffer. *)
Theorem split_data_correct
    (sampsPerChan : Z) (totalData dsaData mioData : list float) :
  0 <= sampsPerChan ->
  2 * sampsPerChan <= C.INT_MAX ->
  Z.of_nat (length totalData) = 2 * sampsPerChan ->
  Z.of_nat (length dsaData) = sampsPerChan ->
  Z.of_nat (length mioData) = sampsPerChan ->
  exists chA chB,
    ChnlExpSync.split_data sampsPerChan totalData dsaData mioData = Some (chA, chB)
    /\ Z.of_nat (length chA) = sampsPerChan
    /\ Z.of_nat (length chB) = sampsPerChan
    /\ (forall i : nat, Z.of_nat i < sampsPerChan ->
          chA !! i = totalData !! (2 * i)%nat
          /\ chB !! i = totalData !! (2 * i + 1)%nat)
    /\ interleave chA chB = totalData.
Proof.
  intros Hn Hfit Ht Hd Hm.
  destruct (split_loop_inv totalData dsaData mioData (Z.to_nat sampsPerChan))
    with (k := Z.to_nat sampsPerChan)
    as (st & Hrun & Hj & Hld & Hlm & Hpt); try lia.
  exists (ChnlExpSync.split_dsaData st), (ChnlExpSync.split_mioData st).
  split.
  { unfold ChnlExpSync.split_data, for_lt. rewrite Hrun. reflexivity. }
  split; [lia|]. split; [lia|]. split.
  { intros i Hi. apply Hpt. lia. }
  apply interleave_lookup.
  - congruence.
  - lia.
  - intros i Hi. apply Hpt. lia.
Qed.

Lemma split_data_correct_witness :
  exists chA chB,
    ChnlExpSync.split_data 3 [1; 2; 3; 4; 5; 6]%float [9; 9; 9]%float [8; 8; 8]%float
    = Some (chA, chB)
    /\ Z.of_nat (length chA) = 3
    /\ Z.of_nat (length chB) = 3
    /\ (forall i : nat, Z.of_nat i < 3 ->
          chA !! i = [1; 2; 3; 4; 5; 6]%float !! (2 * i)%nat
          /\ chB !! i = [1; 2; 3; 4; 5; 6]%float !! (2 * i + 1)%nat)
    /\ interleave chA chB = [1; 2; 3; 4; 5; 6]%float.
Proof.
  apply (split_data_correct 3 [1; 2; 3; 4; 5; 6]%float [9; 9; 9]%float [8; 8; 8]%float);
    vm_compute; (reflexivity || congruence).
Defined.

(** ** Binary64 facts *)
Lemma digits2_pos_iter_xO (p : positive) (k : positive) :
  digits2_pos (Pos.iter xO p k) = (digits2_pos p + k)%positive.
Proof.
  revert p. induction k using Pos.peano_ind; intros p.
  - cbn. lia.
  - rewrite Pos.iter_succ. cbn [digits2_pos]. rewrite IHk. lia.
Qed.

Lemma Zpos_iter_xO (p k : positive) :
  Z.pos (Pos.iter xO p k) = Z.pos p * 2 ^ Z.pos k.
Proof.
  revert p. induction k using Pos.peano_ind; intros p.
  - cbn. lia.
  - rewrite Pos.iter_succ, Pos2Z.inj_xO, IHk, Pos2Z.inj_succ, Z.pow_succ_r by lia. lia.
Qed.

Lemma digits2_pos_bounds (p : positive) :
  2 ^ (Z.pos (digits2_pos p) - 1) <= Z.pos p < 2 ^ Z.pos (digits2_pos p).
Proof.
  induction p as [p IH|p IH|]; cbn [digits2_pos].
  - rewrite Pos2Z.inj_succ, Z.pow_succ_r by lia.
    replace (Z.succ (Z.pos (digits2_pos p)) - 1) with (Z.succ (Z.pos (digits2_pos p) - 1)) by lia.
    rewrite Z.pow_succ_r by lia. lia.
  - rewrite Pos2Z.inj_succ, Z.pow_succ_r by lia.
    replace (Z.succ (Z.pos (digits2_pos p)) - 1) with (Z.succ (Z.pos (digits2_pos p) - 1)) by lia.
    rewrite Z.pow_succ_r by lia. lia.
  - cbn. lia.
Qed.

Lemma digits2_pos_unique (p : positive) (d : Z) :
  2 ^ (d - 1) <= Z.pos p < 2 ^ d -> 0 < d -> Z.pos (digits2_pos p) = d.
Proof.
  intros [Hlo Hhi] Hd. pose proof (digits2_pos_bounds p) as [Hlo' Hhi'].
  destruct (Z.lt_trichotomy (Z.pos (digits2_pos p)) d) as [Hlt|[Heq|Hgt]]; [|assumption|].
  - assert (2 ^ Z.pos (digits2_pos p) <= 2 ^ (d - 1)) by (apply Z.pow_le_mono_r; lia). lia.
  - assert (2 ^ d <= 2 ^ (Z.pos (digits2_pos p) - 1)) by (apply Z.pow_le_mono_r; lia). lia.
Qed.

(** [(double) t] for a positive [t] of at most 53 bits is exact: the
    mantissa is [t] shifted up to 53 bits. *)
Lemma binary_normalize_small (p : positive) :
  Z.pos (digits2_pos p) < prec ->
  binary_normalize prec emax (Z.pos p) 0 false
  = S754_finite false
      (Pos.iter xO p (Z.to_pos (prec - Z.pos (digits2_pos p))))
      (Z.pos (digits2_pos p) - prec).
Proof.
  intros Hd. unfold prec in *.
  pose proof (digits2_pos_bounds p) as Hb.
  cbn [binary_normalize]. unfold binary_round, shl_align.
  rewrite Z.add_0_r.
  assert (Hf : fexp 53 emax (Z.pos (digits2_pos p)) = Z.pos (digits2_pos p) - 53).
  { unfold fexp, emin, emax. lia. }
  rewrite Hf, Z.sub_0_r.
  destruct (Z.pos (digits2_pos p) - 53) as [|q|q] eqn:Hq; try lia.
  replace (Z.to_pos (53 - Z.pos (digits2_pos p))) with q by lia.
  unfold binary_round_aux, shr_fexp. cbn [Zdigits2 shr_record_of_loc].
  rewrite digits2_pos_iter_xO.
  assert (Hf2 : fexp 53 emax (Z.pos (digits2_pos p + q) + Z.neg q) - Z.neg q = 0).
  { unfold fexp, emin, emax. lia. }
  rewrite Hf2. cbn [shr shr_m loc_of_shr_record round_nearest_even Zdigits2 shr_record_of_loc].
  rewrite digits2_pos_iter_xO, Hf2.
  cbn [shr shr_m]. unfold emax. 
  destruct (Z.leb_spec (Z.neg q) (1024 - 53)); [reflexivity|lia].
Qed.


Lemma valid_finite_canonical (x : float) (s : bool) (m : positive) (e : Z) :
  Prim2SF x = S754_finite s m e ->
  e = Z.max (Z.pos (digits2_pos m) + e - 53) (-1074) /\ e <= 971.
Proof.
  intros Hx. pose proof (Prim2SF_valid x) as Hv. rewrite Hx in Hv.
  cbn [valid_binary] in Hv. unfold bounded, canonical_mantissa in Hv.
  apply andb_prop in Hv as [Hc He].
  apply Z.eqb_eq in Hc. apply Z.leb_le in He.
  unfold fexp, emin, emax, prec in *. split; lia.
Qed.

Lemma double_of_int_pos (p : positive) :
  Z.pos p < 2 ^ 53 ->
  Z.pos (digits2_pos p) < 53 ->
  Prim2SF (C.double_of_int (Z.pos p))
  = S754_finite false
      (Pos.iter xO p (Z.to_pos (53 - Z.pos (digits2_pos p))))
      (Z.pos (digits2_pos p) - 53).
Proof.
  intros Hp Hd. unfold C.double_of_int.
  destruct (Z.ltb_spec (Z.pos p) 0); [lia|].
  rewrite of_uint63_spec, Uint63.of_Z_spec.
  rewrite Z.mod_small by (change Uint63.wB with (2 ^ 63); split; [lia|];
    apply Z.lt_trans with (2 ^ 53); [lia|reflexivity]).
  apply (binary_normalize_small p). exact Hd.
Qed.

(** Converting a non-negative [double] to [int] and back does not exceed
    it: [(double)(int)x <= x]. *)
Lemma double_of_int_of_double_le (x : float) (t : Z) :
  C.int_of_double x = Some t ->
  (forall m e, Prim2SF x <> S754_finite true m e) ->
  C.ge x (C.double_of_int t) = true.
Proof.
  unfold C.int_of_double, C.ge. intros Ht Hsign. rewrite leb_spec.
  destruct (Prim2SF x) as [s|s| |s m e] eqn:Hx; try discriminate.
  - injection Ht as <-. destruct s; reflexivity.
  - destruct s; [exfalso; eapply Hsign; reflexivity|].
    cbv zeta in Ht.
    destruct (C.in_int (Z.shiftl (Z.pos m) e)) eqn:Hin; [|discriminate].
    injection Ht as <-.
    unfold C.in_int, C.INT_MIN, C.INT_MAX in Hin.
    apply andb_prop in Hin as [_ Hhi]. apply Z.leb_le in Hhi.
    destruct (valid_finite_canonical x false m e Hx) as [Hcan He].
    pose proof (digits2_pos_bounds m) as [Hmlo Hmhi].
    destruct (Z.shiftl (Z.pos m) e) as [|p|p] eqn:Hsh.
    + reflexivity.
    + (* the integer part is positive: [x] is a normal number below 2^31 *)
      assert (Hneg : e < 0).
      { destruct (Z.le_gt_cases 0 e) as [Hge|]; [|assumption]. exfalso.
        rewrite Z.shiftl_mul_pow2 in Hsh by assumption.
        assert (Z.pos (digits2_pos m) = 53) by lia.
        assert (2 ^ 52 <= Z.pos m) by (replace 52 with (Z.pos (digits2_pos m) - 1) by lia; assumption).
        assert (1 <= 2 ^ e) by (apply (Z.pow_le_mono_r 2 0 e); lia).
        assert (2 ^ 52 <= Z.pos p) by nia.
        assert (2 ^ 52 > 2147483647) by reflexivity. lia. }
      rewrite Z.shiftl_div_pow2 in Hsh by lia.
      assert (Hpow : 0 < 2 ^ (- e)) by (apply Z.pow_pos_nonneg; lia).
      assert (Hmk : 2 ^ (- e) <= Z.pos m).
      { destruct (Z.le_gt_cases (2 ^ (- e)) (Z.pos m)); [assumption|].
        rewrite Z.div_small in Hsh by lia. discriminate. }
      assert (Hd53 : Z.pos (digits2_pos m) = 53).
      { destruct (Z.eq_dec (Z.pos (digits2_pos m)) 53); [assumption|]. exfalso.
        assert (e = -1074) by lia. subst e.
        assert (Z.pos (digits2_pos m) <= 53) by lia.
        assert (2 ^ Z.pos (digits2_pos m) <= 2 ^ 53) by (apply Z.pow_le_mono_r; lia).
        assert (2 ^ 53 < 2 ^ (- -1074)) by reflexivity. lia. }
      rewrite Hd53 in Hmlo, Hmhi.
      assert (Hk : - e <= 52).
      { destruct (Z.le_gt_cases (- e) 52); [assumption|]. exfalso.
        assert (2 ^ 53 <= 2 ^ (- e)) by (apply Z.pow_le_mono_r; lia). lia. }
      assert (Hdp : Z.pos (digits2_pos p) = 53 + e).
      { apply digits2_pos_unique; [|lia]. rewrite <- Hsh. split.
        - apply Z.div_le_lower_bound; [lia|].
          rewrite <- Z.pow_add_r by lia. replace (- e + (53 + e - 1)) with (53 - 1) by lia.
          exact Hmlo.
        - apply Z.div_lt_upper_bound; [lia|].
          rewrite <- Z.pow_add_r by lia. replace (- e + (53 + e)) with 53 by lia.
          exact Hmhi. }
      rewrite double_of_int_pos.
      2:{ apply Z.le_lt_trans with 2147483647; [assumption|reflexivity]. }
      2:{ lia. }
      rewrite Hdp. replace (53 + e - 53) with e by lia.
      unfold SFleb, SFcompare. rewrite Z.compare_refl.
      change (Pos.compare_cont Eq ?a ?b) with (Pos.compare a b).
      destruct (Pos.compare_spec (Pos.iter xO p (Z.to_pos (53 - (53 + e)))) m) as [| |Hgt];
        try reflexivity.
      exfalso. apply Pos2Z.pos_lt_pos in Hgt.
      rewrite Zpos_iter_xO in Hgt.
      replace (Z.pos (Z.to_pos (53 - (53 + e)))) with (- e) in Hgt by lia.
      rewrite <- Hsh in Hgt.
      pose proof (Z.mul_div_le (Z.pos m) (2 ^ (- e)) Hpow). lia.
    + exfalso. pose proof (Z.shiftl_nonneg (Z.pos m) e). lia.
Qed.

(** [<=] on binary64 is transitive. *)
Lemma SFleb_trans (x y z : spec_float) :
  SFleb x y = true -> SFleb y z = true -> SFleb x z = true.
Proof.
  unfold SFleb, SFcompare.
  destruct x as [sx|sx| |sx mx ex], y as [sy|sy| |sy my ey], z as [sz|sz| |sz mz ez];
    try (destruct sx); try (destruct sy); try (destruct sz);
    try discriminate; try reflexivity.
  - change (Pos.compare_cont Eq ?a ?b) with (Pos.compare a b).
    destruct (Z.compare_spec ex ey), (Z.compare_spec ey ez), (Z.compare_spec ex ez);
      try discriminate; try reflexivity; try lia; subst;
      destruct (Pos.compare_spec mx my), (Pos.compare_spec my mz), (Pos.compare_spec mx mz);
      cbn; try discriminate; try reflexivity; lia.
  - change (Pos.compare_cont Eq ?a ?b) with (Pos.compare a b).
    destruct (Z.compare_spec ex ey), (Z.compare_spec ey ez), (Z.compare_spec ex ez);
      try discriminate; try reflexivity; try lia; subst;
      destruct (Pos.compare_spec mx my), (Pos.compare_spec my mz), (Pos.compare_spec mx mz);
      cbn; try discriminate; try reflexivity; lia.
Qed.

Lemma ge_trans (x y z : float) :
  C.ge x y = true -> C.ge y z = true -> C.ge x z = true.
Proof.
  unfold C.ge. rewrite !leb_spec. intros Hxy Hyz.
  exact (SFleb_trans _ _ _ Hyz Hxy).
Qed.

(** A square root is never a negative number. *)
Lemma binary_round_aux_sign (mx ex : Z) (lx : location) (m : positive) (e : Z) :
  binary_round_aux prec emax false mx ex lx <> S754_finite true m e.
Proof.
  unfold binary_round_aux.
  destruct (shr_fexp prec emax mx ex lx) as [mrs' e'].
  destruct (shr_fexp prec emax _ e' loc_Exact) as [mrs'' e''].
  destruct (shr_m mrs''); try discriminate.
  destruct (Z.leb e'' (emax - prec)); discriminate.
Qed.

Lemma sqrt_not_negative (x : float) (m : positive) (e : Z) :
  Prim2SF (PrimFloat.sqrt x) <> S754_finite true m e.
Proof.
  rewrite sqrt_spec. unfold SF64sqrt, SFsqrt.
  destruct (Prim2SF x) as [s|s| |s mx ex]; try discriminate.
  - destruct s; discriminate.
  - destruct s; [discriminate|].
    destruct (SFsqrt_core_binary prec emax (Z.pos mx) ex) as [[mz ez] lz].
    apply binary_round_aux_sign.
Qed.

Lemma magnitude_not_negative (c : fftw_complex) (m : positive) (e : Z) :
  Prim2SF (magnitude c) <> S754_finite true m e.
Proof. apply sqrt_not_negative. Qed.

(** A magnitude that converts to [int] is at least [0]. *)
Lemma magnitude_ge_0 (c : fftw_complex) (t : Z) :
  C.int_of_double (magnitude c) = Some t ->
  C.ge (magnitude c) (C.double_of_int 0) = true.
Proof.
  intros Ht. unfold C.ge. rewrite leb_spec.
  pose proof (magnitude_not_negative c) as Hs.
  unfold C.int_of_double in Ht.
  destruct (Prim2SF (magnitude c)) as [s|s| |s m e]; try discriminate.
  - destruct s; reflexivity.
  - destruct s; [exfalso; eapply Hs; reflexivity|reflexivity].
Qed.

(** ** Division by a zero frequency *)


Lemma not_finite_SF (x : float) :
  Prim2SF x = S754_nan \/ (exists s, Prim2SF x = S754_infinity s) ->
  not_finite x = true.
Proof.
  unfold not_finite, is_nan, is_infinity.
  rewrite !FloatAxioms.eqb_spec, abs_spec. intros [->|[s ->]].
  - reflexivity.
  - destruct s; reflexivity.
Qed.

(** [0 * b] is a zero or a NaN, whatever [b] is. *)
Lemma zero_mul_SF (b : float) :
  (exists s, Prim2SF (C.double_of_int 0 * b) = S754_zero s)
  \/ Prim2SF (C.double_of_int 0 * b) = S754_nan.
Proof.
  rewrite mul_spec. change (Prim2SF (C.double_of_int 0)) with (S754_zero false).
  destruct (Prim2SF b) as [s|s| |s m e]; cbn; eauto.
Qed.

(** [a * (1 / f)] is an infinity or a NaN when [f] is a zero or a NaN. *)
Lemma mul_inv_zero_SF (a f : float) :
  (exists s, Prim2SF f = S754_zero s) \/ Prim2SF f = S754_nan ->
  not_finite (a * (1 / f)) = true.
Proof.
  intros Hf. apply not_finite_SF. rewrite mul_spec, div_spec.
  change (Prim2SF 1) with (S754_finite false 4503599627370496 (-52)).
  destruct Hf as [[s ->]| ->].
  - destruct (Prim2SF a) as [sa|sa| |sa ma ea]; cbn; eauto.
  - destruct (Prim2SF a) as [sa|sa| |sa ma ea]; cbn; eauto.
Qed.

Lemma phaseSkewSec_dc (dsaPhase mioPhase binPrecision : float) :
  not_finite (phaseSkewSec dsaPhase mioPhase (C.double_of_int 0 * binPrecision)) = true.
Proof. unfold phaseSkewSec. apply mul_inv_zero_SF, zero_mul_SF. Qed.

(** ** The per-bin loop of ChnlExpSync.c *)

Lemma scan_body_eq n bp A B i st dsa mio :
  load A i = Some dsa -> load B i = Some mio ->
  ChnlExpSync.scan_body n bp A B i st
  = if ChnlExpSync.accepts st dsa mio
    then m ← C.int_of_double (magnitude dsa);
         Some (ChnlExpSync.mk_scan i m
                 (ChnlExpSync.file st ++ [ChnlExpSync.row_of n bp dsa mio i]))
    else Some (ChnlExpSync.mk_scan
                 (ChnlExpSync.maxMagnitudeIndex st) (ChnlExpSync.maxMagnitude st)
                 (ChnlExpSync.file st ++ [ChnlExpSync.row_of n bp dsa mio i])).
Proof. intros Ha Hb. unfold ChnlExpSync.scan_body. rewrite Ha, Hb. reflexivity. Qed.

Lemma scan_prefix (A B : list fftw_complex) (rate : float) (N : Z) :
  0 < N <= C.INT_MAX ->
  ChnlExpSync.scan A B rate N
  = ChnlExpSync.prefix N (rate / C.double_of_int N)%float A B (Z.to_nat (N / 2 + 1)).
Proof.
  intros HN. unfold ChnlExpSync.scan, ChnlExpSync.prefix, for_lt.
  rewrite nc_in_range by assumption.
  rewrite int_of_longlong_id by (unfold C.INT_MIN, C.INT_MAX in *; lia).
  reflexivity.
Qed.

Section Scan.
Import ChnlExpSync.
Variables (n : Z) (bp : float) (A B : list fftw_complex).

Lemma scan_prefix_S (k : nat) :
  prefix n bp A B (S k) = prefix n bp A B k ≫= scan_body n bp A B (Z.of_nat k).
Proof. unfold prefix. rewrite for_loop_end. reflexivity. Qed.

(** Every iteration reads both buffers in bounds. *)
Lemma scan_prefix_lookup (k : nat) (st : scan_state) :
  prefix n bp A B (S k) = Some st ->
  exists st0 dsa mio,
    prefix n bp A B k = Some st0 /\ A !! k = Some dsa /\ B !! k = Some mio
    /\ scan_body n bp A B (Z.of_nat k) st0 = Some st.
Proof.
  rewrite scan_prefix_S. destruct (prefix n bp A B k) as [st0|]; [|discriminate].
  cbn [mbind option_bind]. intros Hb. pose proof Hb as Hb'.
  unfold scan_body in Hb. rewrite !load_nat in Hb.
  destruct (A !! k) as [dsa|]; [|discriminate].
  destruct (B !! k) as [mio|]; [|discriminate].
  now exists st0, dsa, mio.
Qed.

Lemma scan_body_cases (k : nat) (st0 st : scan_state) dsa mio :
  A !! k = Some dsa -> B !! k = Some mio ->
  scan_body n bp A B (Z.of_nat k) st0 = Some st ->
  file st = file st0 ++ [row_of n bp dsa mio (Z.of_nat k)]
  /\ ((accepts st0 dsa mio = true
       /\ maxMagnitudeIndex st = Z.of_nat k
       /\ C.int_of_double (magnitude dsa) = Some (maxMagnitude st))
      \/ (accepts st0 dsa mio = false
          /\ maxMagnitudeIndex st = maxMagnitudeIndex st0
          /\ maxMagnitude st = maxMagnitude st0)).
Proof.
  intros Ha Hb. rewrite (scan_body_eq n bp A B _ st0 dsa mio)
    by (rewrite load_nat; assumption).
  destruct (accepts st0 dsa mio).
  - destruct (C.int_of_double (magnitude dsa)) as [m|]; [|discriminate].
    cbn [mbind option_bind]. intros [= <-]. split; [reflexivity|left; auto].
  - intros [= <-]. split; [reflexivity|right; auto].
Qed.

Lemma scan_prefix_inv (k : nat) (st : scan_state) :
  prefix n bp A B k = Some st ->
  threshold_inv A st
  /\ 0 <= maxMagnitudeIndex st
  /\ (maxMagnitudeIndex st < Z.of_nat k \/ k = 0%nat /\ maxMagnitudeIndex st = 0)
  /\ length (file st) = k
  /\ forall i dsa mio, (i < k)%nat -> A !! i = Some dsa -> B !! i = Some mio ->
       file st !! i = Some (row_of n bp dsa mio (Z.of_nat i)).
Proof.
  revert st. induction k as [|k IH]; intros st Hst.
  - injection Hst as <-. cbn. split; [left; auto|]. split; [lia|].
    split; [right; auto|]. split; [reflexivity|intros; lia].
  - destruct (scan_prefix_lookup k st Hst) as (st0 & dsa & mio & H0 & Ha & Hb & Hstep).
    destruct (IH st0 H0) as (Hthr & Hnn & Hlt & Hlen & Hrows).
    destruct (scan_body_cases k st0 st dsa mio Ha Hb Hstep) as [Hfile Hsel].
    assert (Hfl : length (file st) = S k).
    { rewrite Hfile, length_app. cbn. lia. }
    assert (Hfr : forall i dsa' mio', (i < S k)%nat ->
              A !! i = Some dsa' -> B !! i = Some mio' ->
              file st !! i = Some (row_of n bp dsa' mio' (Z.of_nat i))).
    { intros i dsa' mio' Hi Ha' Hb'. rewrite Hfile.
      destruct (Nat.eq_dec i k) as [->|].
      - rewrite lookup_app_r by lia. rewrite Hlen, Nat.sub_diag. cbn. congruence.
      - rewrite lookup_app_l by lia. apply Hrows; auto. lia. }
    destruct Hsel as [(_ & Hi & Hm)|(_ & Hi & Hm)].
    + split; [right; exists dsa; rewrite Hi, load_nat; auto|].
      split; [lia|]. split; [left; lia|]. split; assumption.
    + split.
      { destruct Hthr as [[? ?]|(c & ? & ?)]; [left|right; exists c];
          rewrite Hi, Hm; auto. }
      split; [lia|]. split; [left; lia|]. split; assumption.
Qed.

Lemma scan_prefix_accept (k : nat) (st0 st : scan_state) (dsa mio : fftw_complex) :
  prefix n bp A B k = Some st0 ->
  A !! k = Some dsa -> B !! k = Some mio ->
  accepts st0 dsa mio = true ->
  prefix n bp A B (S k) = Some st ->
  maxMagnitudeIndex st = Z.of_nat k
  /\ C.int_of_double (magnitude dsa) = Some (maxMagnitude st).
Proof.
  intros H0 Ha Hb Hacc HS. rewrite scan_prefix_S, H0 in HS.
  cbn [mbind option_bind] in HS.
  destruct (scan_body_cases k st0 st dsa mio Ha Hb HS)
    as [_ [(_ & Hi & Hm)|(Hrej & _)]]; [auto|congruence].
Qed.

(** While the selection stays on bin [k], the running maximum stays what
    the iteration of bin [k] left. *)
Lemma scan_prefix_unchanged (k l : nat) (st stl : scan_state) :
  (k < l)%nat ->
  prefix n bp A B (S k) = Some st ->
  prefix n bp A B l = Some stl ->
  maxMagnitudeIndex st = Z.of_nat k ->
  maxMagnitudeIndex stl = Z.of_nat k ->
  maxMagnitude stl = maxMagnitude st.
Proof.
  intros Hkl Hst. revert stl. induction l as [|l IH]; intros stl Hl Hi Hil; [lia|].
  destruct (Nat.eq_dec l k) as [->|Hne]; [congruence|].
  destruct (scan_prefix_lookup l stl Hl) as (st0 & dsa & mio & H0 & Ha & Hb & Hstep).
  destruct (scan_body_cases l st0 stl dsa mio Ha Hb Hstep)
    as [_ [(_ & Hi' & _)|(_ & Hi' & Hm')]]; [lia|].
  rewrite Hm'. apply IH; [lia|assumption|assumption|congruence].
Qed.

(** The selected index never decreases. *)
Lemma scan_prefix_index_mono (k l : nat) (st stl : scan_state) :
  (k <= l)%nat ->
  prefix n bp A B k = Some st ->
  prefix n bp A B l = Some stl ->
  maxMagnitudeIndex st <= maxMagnitudeIndex stl.
Proof.
  intros Hkl Hst. revert stl. induction l as [|l IH]; intros stl Hl.
  - assert (k = 0%nat) as -> by lia. rewrite Hst in Hl. injection Hl as <-. lia.
  - destruct (Nat.eq_dec k (S l)) as [->|Hne].
    { rewrite Hst in Hl. injection Hl as <-. lia. }
    destruct (scan_prefix_lookup l stl Hl) as (st0 & dsa & mio & H0 & Ha & Hb & Hstep).
    specialize (IH ltac:(lia) st0 H0).
    destruct (scan_prefix_inv l st0 H0) as (_ & _ & Hlt & _).
    destruct (scan_body_cases l st0 stl dsa mio Ha Hb Hstep)
      as [_ [(_ & Hi' & _)|(_ & Hi' & _)]]; lia.
Qed.

(** The loop runs to its end when every DSA magnitude converts to [int]. *)
Lemma scan_prefix_defined (k : nat) :
  (forall l c, A !! l = Some c -> is_Some (C.int_of_double (magnitude c))) ->
  (k <= length A)%nat -> (k <= length B)%nat ->
  is_Some (prefix n bp A B k).
Proof.
  intros A_int. induction k as [|k IH]; intros HA HB; [eexists; reflexivity|].
  destruct IH as [st0 H0]; [lia|lia|].
  destruct (lookup_lt_is_Some_2 A k) as [dsa Hdsa]; [lia|].
  destruct (lookup_lt_is_Some_2 B k) as [mio Hmio]; [lia|].
  rewrite scan_prefix_S, H0. cbn [mbind option_bind].
  rewrite (scan_body_eq n bp A B _ st0 dsa mio) by (rewrite load_nat; assumption).
  destruct (accepts st0 dsa mio); [|eexists; reflexivity].
  destruct (A_int k dsa Hdsa) as [v ->]. eexists; reflexivity.
Qed.
End Scan.

(** *** Silent input *)

Section AllZero.
Import ChnlExpSync.
Variables (n : Z) (bp : float) (A B : list fftw_complex).
Hypothesis A_zero : forall i c, A !! i = Some c -> magnitude c = 0%float.
Hypothesis B_zero : forall i c, B !! i = Some c -> magnitude c = 0%float.

Lemma scan_prefix_all_zero (k : nat) :
  (k <= length A)%nat -> (k <= length B)%nat ->
  exists st, prefix n bp A B k = Some st
             /\ maxMagnitudeIndex st = Z.max 0 (Z.of_nat k - 1)
             /\ maxMagnitude st = 0.
Proof.
  induction k as [|k IH]; intros HA HB.
  - eexists. split; [reflexivity|]. cbn. auto.
  - destruct IH as (st0 & H0 & Hi & Hm); [lia|lia|].
    destruct (lookup_lt_is_Some_2 A k) as [dsa Hdsa]; [lia|].
    destruct (lookup_lt_is_Some_2 B k) as [mio Hmio]; [lia|].
    rewrite scan_prefix_S, H0. cbn [mbind option_bind].
    rewrite (scan_body_eq n bp A B _ st0 dsa mio) by (rewrite load_nat; assumption).
    unfold accepts. rewrite Hm, (A_zero k dsa Hdsa), (B_zero k mio Hmio).
    change (C.ge 0 (C.double_of_int 0) && C.ge 0 (C.double_of_int 0)) with true.
    change (C.int_of_double 0) with (Some 0). cbn [mbind option_bind].
    eexists. split; [reflexivity|]. cbn. split; lia.
Qed.
End AllZero.

(** C1 (as amended): when every magnitude of both spectra is zero, every
    bin passes the test [>= maxMagnitude] (that is [0 >= 0]), so the loop of
    ChnlExpSync.c ends on the last bin, index [N / 2], and the frequency
    [DFT] reports is that of the last bin, [(N / 2) * (sampleRate / N)]. *)
Theorem all_zero_selects_last_bin
    (A B : list fftw_complex) (rate : float) (N : Z) :
  0 < N <= C.INT_MAX ->
  Z.of_nat (length A) = N / 2 + 1 ->
  Z.of_nat (length B) = N / 2 + 1 ->
  (forall i c, A !! i = Some c -> magnitude c = 0%float) ->
  (forall i c, B !! i = Some c -> magnitude c = 0%float) ->
  (exists st, ChnlExpSync.scan A B rate N = Some st
              /\ ChnlExpSync.maxMagnitudeIndex st = N / 2)
  /\ forall atan2, exists r,
       ChnlExpSync.DFT atan2 A B rate N = Some r
       /\ measuredFreq (snd r)
          = (C.double_of_int (N / 2) * (rate / C.double_of_int N))%float.
Proof.
  intros HN HA HB HzA HzB.
  assert (0 <= N / 2) by (apply Z.div_pos; lia).
  destruct (scan_prefix_all_zero N (rate / C.double_of_int N)%float A B HzA HzB
              (Z.to_nat (N / 2 + 1))) as (st & Hst & Hi & Hm); [lia|lia|].
  rewrite <- scan_prefix in Hst by assumption.
  replace (Z.max 0 (Z.of_nat (Z.to_nat (N / 2 + 1)) - 1)) with (N / 2) in Hi by lia.
  split; [exists st; auto|].
  intros atan2. unfold ChnlExpSync.DFT. rewrite Hst. cbn [mbind option_bind]. rewrite Hi.
  destruct (lookup_lt_is_Some_2 A (Z.to_nat (N / 2))) as [dsa Hdsa]; [lia|].
  destruct (lookup_lt_is_Some_2 B (Z.to_nat (N / 2))) as [mio Hmio]; [lia|].
  assert (Hk : N / 2 = Z.of_nat (Z.to_nat (N / 2))) by lia.
  rewrite Hk, !load_nat, Hdsa, Hmio. cbn [mbind option_bind].
  eexists. split; reflexivity.
Qed.

Ltac bins_cases H :=
  intros [|[|[|?]]] ? H; cbn in H; try discriminate; injection H as <-.

Lemma all_zero_selects_last_bin_witness :
  let silent := [(0, 0); (0, 0); (0, 0)]%float in
  (exists st, ChnlExpSync.scan silent silent 10000 4 = Some st
              /\ ChnlExpSync.maxMagnitudeIndex st = 4 / 2)
  /\ forall atan2, exists r,
       ChnlExpSync.DFT atan2 silent silent 10000 4 = Some r
       /\ measuredFreq (snd r)
          = (C.double_of_int (4 / 2) * (10000 / C.double_of_int 4))%float.
Proof.
  apply (all_zero_selects_last_bin
           [(0, 0); (0, 0); (0, 0)]%float [(0, 0); (0, 0); (0, 0)]%float 10000 4).
  - unfold C.INT_MAX. lia.
  - reflexivity.
  - reflexivity.
  - bins_cases H; reflexivity.
  - bins_cases H; reflexivity.
Defined.

(** C1 fails as stated: on three silent bins ([N = 4], 10 kHz) the loop
    selects bin 2, not the DC bin, and [DFT] reports 5000 Hz, not 0. *)
Lemma all_zero_not_dc :
  let silent := [(0, 0); (0, 0); (0, 0)]%float in
  Forall (fun c => magnitude c = 0%float) silent
  /\ ChnlExpSync.maxMagnitudeIndex <$> ChnlExpSync.scan silent silent 10000 4 = Some 2
  /\ ChnlExpSync.maxMagnitudeIndex <$> ChnlExpSync.scan silent silent 10000 4 <> Some 0
  /\ measuredFreq ∘ snd <$> ChnlExpSync.DFT Libm.atan2 silent silent 10000 4
     = Some 5000%float.
Proof.
  cbv zeta. split; [repeat constructor|].
  split; [vm_compute; reflexivity|].
  split; [vm_compute; discriminate|vm_compute; reflexivity].
Qed.

(** *** Ties *)

Section Tie.
Import ChnlExpSync.
Variables (n : Z) (bp : float) (A B : list fftw_complex).
Variables (j : nat) (aj bj : fftw_complex) (m : float) (t : Z).
Hypothesis A_j : A !! j = Some aj.
Hypothesis B_j : B !! j = Some bj.
Hypothesis mag_aj : magnitude aj = m.
Hypothesis mag_bj : magnitude bj = m.
Hypothesis m_int : C.int_of_double m = Some t.
Hypothesis A_int :
  forall l c, A !! l = Some c -> is_Some (C.int_of_double (magnitude c)).
Hypothesis A_max : forall l c, A !! l = Some c -> C.ge m (magnitude c) = true.

Lemma threshold_le_max (st : scan_state) :
  threshold_inv A st -> C.ge m (C.double_of_int (maxMagnitude st)) = true.
Proof.
  intros [[_ ->]|(c & Hc & Hm)].
  - rewrite <- mag_aj. apply (magnitude_ge_0 aj t). now rewrite mag_aj.
  - apply load_Some in Hc as [_ Hc].
    apply ge_trans with (magnitude c); [eapply A_max; eassumption|].
    apply double_of_int_of_double_le; [assumption|].
    apply magnitude_not_negative.
Qed.

Lemma scan_prefix_tie (st : scan_state) :
  prefix n bp A B (S j) = Some st ->
  maxMagnitudeIndex st = Z.of_nat j /\ maxMagnitude st = t.
Proof.
  intros HS.
  destruct (scan_prefix_lookup n bp A B j st HS)
    as (st0 & dsa & mio & H0 & Ha & Hb & _).
  rewrite A_j in Ha. injection Ha as <-. rewrite B_j in Hb. injection Hb as <-.
  destruct (scan_prefix_inv n bp A B j st0 H0) as (Hthr & _).
  assert (Hacc : accepts st0 aj bj = true).
  { unfold accepts. rewrite mag_aj, mag_bj, (threshold_le_max st0 Hthr). reflexivity. }
  destruct (scan_prefix_accept n bp A B j st0 st aj bj H0 A_j B_j Hacc HS) as [Hi Hm].
  split; [assumption|]. rewrite mag_aj in Hm. congruence.
Qed.

(** After bin [j] the selection is [j] or later; it is [j] as long as no
    later bin reaches the truncated maximum on both channels. *)
Lemma scan_prefix_after_tie (k : nat) (st : scan_state) :
  (j < k)%nat ->
  prefix n bp A B k = Some st ->
  Z.of_nat j <= maxMagnitudeIndex st
  /\ ((forall l dsa mio, (j < l < k)%nat -> A !! l = Some dsa -> B !! l = Some mio ->
         C.ge (magnitude dsa) (C.double_of_int t)
         && C.ge (magnitude mio) (C.double_of_int t) = false) ->
      maxMagnitudeIndex st = Z.of_nat j /\ maxMagnitude st = t).
Proof.
  intros Hjk Hk.
  destruct (scan_prefix_defined n bp A B (S j) A_int) as [stj Hj].
  { apply lookup_lt_Some in A_j. lia. }
  { apply lookup_lt_Some in B_j. lia. }
  destruct (scan_prefix_tie stj Hj) as [Hij Hmj].
  split.
  { rewrite <- Hij. eapply scan_prefix_index_mono; [|exact Hj|exact Hk]. lia. }
  revert st Hk. induction k as [|k IH]; intros st Hk Hrej; [lia|].
  destruct (Nat.eq_dec k j) as [->|Hne].
  { rewrite Hj in Hk. injection Hk as <-. auto. }
  destruct (scan_prefix_lookup n bp A B k st Hk)
    as (st0 & dsa & mio & H0 & Ha & Hb & Hstep).
  destruct (IH ltac:(lia) st0 H0) as [Hi0 Hm0].
  { intros l dsa' mio' Hl. apply Hrej. lia. }
  destruct (scan_body_cases n bp A B k st0 st dsa mio Ha Hb Hstep)
    as [_ [(Hacc & _)|(_ & Hi' & Hm')]].
  - exfalso. unfold accepts in Hacc. rewrite Hm0 in Hacc.
    rewrite (Hrej k dsa mio) in Hacc; [discriminate|lia|assumption|assumption].
  - split; congruence.
Qed.
End Tie.

(** C2 (as amended): let bins [i < j] carry the same magnitude [m] on both
    channels, let no DSA magnitude exceed [m], and let every DSA magnitude
    convert to [int] (no NaN, no infinity, below [2^31]).  Then the loop of
    ChnlExpSync.c runs to its end and selects [j] or a later bin, never the
    lower bin [i]: the test is [>=], so the last bin that passes wins.  It
    selects exactly [j] when no bin after [j] reaches [(int) m] on both
    channels. *)
Theorem tie_selects_later_bin
    (A B : list fftw_complex) (rate : float) (N : Z)
    (i j : nat) (ai bi aj bj : fftw_complex) (m : float) (t : Z) :
  0 < N <= C.INT_MAX ->
  Z.of_nat (length A) = N / 2 + 1 ->
  Z.of_nat (length B) = N / 2 + 1 ->
  (i < j)%nat ->
  A !! i = Some ai -> B !! i = Some bi -> A !! j = Some aj -> B !! j = Some bj ->
  magnitude ai = m -> magnitude bi = m -> magnitude aj = m -> magnitude bj = m ->
  C.int_of_double m = Some t ->
  (forall l c, A !! l = Some c -> is_Some (C.int_of_double (magnitude c))) ->
  (forall l c, A !! l = Some c -> C.ge m (magnitude c) = true) ->
  exists st,
    ChnlExpSync.scan A B rate N = Some st
    /\ Z.of_nat i < Z.of_nat j <= ChnlExpSync.maxMagnitudeIndex st
    /\ ((forall l dsa mio, (j < l)%nat -> A !! l = Some dsa -> B !! l = Some mio ->
           C.ge (magnitude dsa) (C.double_of_int t)
           && C.ge (magnitude mio) (C.double_of_int t) = false) ->
        ChnlExpSync.maxMagnitudeIndex st = Z.of_nat j).
Proof.
  intros HN HA HB Hij Hai Hbi Haj Hbj Hmai Hmbi Hmaj Hmbj Hm Hint Hmax.
  assert (0 <= N / 2) by (apply Z.div_pos; lia).
  rewrite scan_prefix by assumption.
  set (bp := (rate / C.double_of_int N)%float).
  destruct (scan_prefix_defined N bp A B (Z.to_nat (N / 2 + 1)) Hint)
    as [st Hst]; [lia|lia|].
  exists st. split; [assumption|].
  assert (Hjk : (j < Z.to_nat (N / 2 + 1))%nat).
  { apply lookup_lt_Some in Haj. lia. }
  destruct (scan_prefix_after_tie N bp A B j aj bj m t Haj Hbj Hmaj Hmbj Hm Hint Hmax
              (Z.to_nat (N / 2 + 1)) st Hjk Hst) as [Hge Hexact].
  split; [lia|].
  intros Hrej. apply Hexact. intros l dsa mio Hl. apply Hrej. lia.
Qed.

Lemma tie_selects_later_bin_witness :
  let spectrum := [(0, 0); (0, 3); (3, 0)]%float in
  exists st,
    ChnlExpSync.scan spectrum spectrum 10000 4 = Some st
    /\ Z.of_nat 1 < Z.of_nat 2 <= ChnlExpSync.maxMagnitudeIndex st
    /\ ((forall l dsa mio, (2 < l)%nat ->
           spectrum !! l = Some dsa -> spectrum !! l = Some mio ->
           C.ge (magnitude dsa) (C.double_of_int 3)
           && C.ge (magnitude mio) (C.double_of_int 3) = false) ->
        ChnlExpSync.maxMagnitudeIndex st = Z.of_nat 2).
Proof.
  apply (tie_selects_later_bin
           [(0, 0); (0, 3); (3, 0)]%float [(0, 0); (0, 3); (3, 0)]%float 10000 4
           1 2 (0, 3)%float (0, 3)%float (3, 0)%float (3, 0)%float 3%float 3);
    try reflexivity.
  - unfold C.INT_MAX. lia.
  - lia.
  - bins_cases H; eexists; reflexivity.
  - bins_cases H; reflexivity.
Defined.

(** C2 fails as stated: bins 1 and 2 both have magnitude 3 on both
    channels, nothing is larger, and the loop selects bin 2, the higher
    one. *)
Lemma tie_not_lower_bin :
  let spectrum := [(0, 0); (0, 3); (3, 0)]%float in
  magnitude <$> spectrum = [0; 3; 3]%float
  /\ ChnlExpSync.maxMagnitudeIndex <$> ChnlExpSync.scan spectrum spectrum 10000 4
     = Some 2
  /\ ChnlExpSync.maxMagnitudeIndex <$> ChnlExpSync.scan spectrum spectrum 10000 4
     <> Some 1.
Proof.
  cbv zeta. split; [vm_compute; reflexivity|].
  split; [vm_compute; reflexivity|vm_compute; discriminate].
Qed.

(** *** The truncated running maximum *)

(** C9: in ChnlExpSync.c the running maximum is an [int].  When bin [k]
    passes the test, it becomes the selection and [maxMagnitude] becomes its
    DSA magnitude converted to [int] (fraction discarded).  A later bin [l],
    reached while [k] is still selected, whose two magnitudes are both at
    least that integer, passes the test in its turn and replaces the
    selection, however its magnitude compares with that of bin [k]. *)
Theorem truncated_threshold_replaces
    (A B : list fftw_complex) (rate : float) (N : Z)
    (k l : nat) (st0 st stl st' : ChnlExpSync.scan_state)
    (dsa mio dsa' mio' : fftw_complex) :
  let scanned := ChnlExpSync.prefix N (rate / C.double_of_int N)%float A B in
  scanned k = Some st0 ->
  A !! k = Some dsa -> B !! k = Some mio ->
  C.ge (magnitude dsa) (C.double_of_int (ChnlExpSync.maxMagnitude st0)) = true ->
  C.ge (magnitude mio) (C.double_of_int (ChnlExpSync.maxMagnitude st0)) = true ->
  scanned (S k) = Some st ->
  (k < l)%nat ->
  scanned l = Some stl ->
  ChnlExpSync.maxMagnitudeIndex stl = Z.of_nat k ->
  A !! l = Some dsa' -> B !! l = Some mio' ->
  C.ge (magnitude dsa') (C.double_of_int (ChnlExpSync.maxMagnitude st)) = true ->
  C.ge (magnitude mio') (C.double_of_int (ChnlExpSync.maxMagnitude st)) = true ->
  scanned (S l) = Some st' ->
  ChnlExpSync.maxMagnitudeIndex st = Z.of_nat k
  /\ C.int_of_double (magnitude dsa) = Some (ChnlExpSync.maxMagnitude st)
  /\ ChnlExpSync.maxMagnitudeIndex st' = Z.of_nat l
  /\ C.int_of_double (magnitude dsa') = Some (ChnlExpSync.maxMagnitude st').
Proof.
  intros scanned H0 Ha Hb HgA HgB HS Hkl Hl Hil Ha' Hb' HgA' HgB' HS'.
  assert (Hacc : ChnlExpSync.accepts st0 dsa mio = true).
  { unfold ChnlExpSync.accepts. rewrite HgA, HgB. reflexivity. }
  destruct (scan_prefix_accept _ _ A B k st0 st dsa mio H0 Ha Hb Hacc HS) as [Hi Hm].
  split; [assumption|]. split; [assumption|].
  assert (Hsame : ChnlExpSync.maxMagnitude stl = ChnlExpSync.maxMagnitude st).
  { eapply scan_prefix_unchanged; eauto. }
  assert (Hacc' : ChnlExpSync.accepts stl dsa' mio' = true).
  { unfold ChnlExpSync.accepts. rewrite Hsame, HgA', HgB'. reflexivity. }
  exact (scan_prefix_accept _ _ A B l stl st' dsa' mio' Hl Ha' Hb' Hacc' HS').
Qed.

(** Bin 0 has magnitude 5.75 and bin 1 has magnitude 5.25 on both channels:
    bin 0 leaves [maxMagnitude = 5], and bin 1, smaller by 0.5, replaces
    it. *)
Lemma truncated_threshold_replaces_witness :
  let spectrum := [(5.75, 0); (5.25, 0)]%float in
  let scanned := ChnlExpSync.prefix 2 (10000 / C.double_of_int 2)%float spectrum spectrum in
  exists st st',
    scanned 1%nat = Some st /\ scanned 2%nat = Some st'
    /\ C.lt (magnitude (5.25, 0)%float) (magnitude (5.75, 0)%float) = true
    /\ ChnlExpSync.maxMagnitude st = 5
    /\ ChnlExpSync.maxMagnitudeIndex st = Z.of_nat 0
    /\ C.int_of_double (magnitude (5.75, 0)%float) = Some (ChnlExpSync.maxMagnitude st)
    /\ ChnlExpSync.maxMagnitudeIndex st' = Z.of_nat 1
    /\ C.int_of_double (magnitude (5.25, 0)%float) = Some (ChnlExpSync.maxMagnitude st').
Proof.
  cbv zeta.
  destruct (ChnlExpSync.prefix 2 (10000 / C.double_of_int 2)%float
              [(5.75, 0); (5.25, 0)]%float [(5.75, 0); (5.25, 0)]%float 1)
    as [st|] eqn:H1; [|vm_compute in H1; discriminate].
  destruct (ChnlExpSync.prefix 2 (10000 / C.double_of_int 2)%float
              [(5.75, 0); (5.25, 0)]%float [(5.75, 0); (5.25, 0)]%float 2)
    as [st'|] eqn:H2; [|vm_compute in H2; discriminate].
  exists st, st'. split; [reflexivity|]. split; [reflexivity|].
  split; [vm_compute; reflexivity|].
  split; [vm_compute in H1; injection H1 as <-; reflexivity|].
  apply (truncated_threshold_replaces
           [(5.75, 0); (5.25, 0)]%float [(5.75, 0); (5.25, 0)]%float 10000 2
           0 1 (ChnlExpSync.mk_scan 0 0 []) st st st'
           (5.75, 0)%float (5.75, 0)%float (5.25, 0)%float (5.25, 0)%float);
    try reflexivity; try assumption; try lia.
  - vm_compute in H1. injection H1 as <-. reflexivity.
  - vm_compute in H1. injection H1 as <-. vm_compute. reflexivity.
  - vm_compute in H1. injection H1 as <-. vm_compute. reflexivity.
Defined.

(** ** The per-bin loop of RefClkSync.c *)

Section Bins.
Import RefClkSync.
Variable atan2 : float -> float -> float.
Variables (n : Z) (sampleRate : float) (sampsPerChan : Z).
Variables (A B : list fftw_complex) (init : measured).

Lemma bin_body_eq (i : Z) (st : bins_state) (dsa mio : fftw_complex) :
  load A i = Some dsa -> load B i = Some mio ->
  bin_body atan2 n sampleRate sampsPerChan A B i st
  = Some (mk_bins
            (if gate dsa mio
             then triple_of atan2 sampleRate sampsPerChan dsa mio i
             else out st)
            (file st ++ [row_of n sampleRate sampsPerChan dsa mio i])).
Proof. intros Ha Hb. unfold bin_body. rewrite Ha, Hb. reflexivity. Qed.

Lemma bins_prefix_S (k : nat) :
  prefix atan2 n sampleRate sampsPerChan A B init (S k)
  = prefix atan2 n sampleRate sampsPerChan A B init k
      ≫= bin_body atan2 n sampleRate sampsPerChan A B (Z.of_nat k).
Proof. unfold prefix. rewrite for_loop_end. reflexivity. Qed.

(** The loop never fails on buffers of at least [k] bins; it writes one
    line per bin and keeps [out_inv]. *)
Lemma bins_prefix_spec (k : nat) :
  (k <= length A)%nat -> (k <= length B)%nat ->
  exists st,
    prefix atan2 n sampleRate sampsPerChan A B init k = Some st
    /\ out_inv atan2 sampleRate sampsPerChan A B init k (out st)
    /\ length (file st) = k
    /\ forall i dsa mio, (i < k)%nat -> A !! i = Some dsa -> B !! i = Some mio ->
         file st !! i
         = Some (row_of n sampleRate sampsPerChan dsa mio (Z.of_nat i)).
Proof.
  induction k as [|k IH]; intros HA HB.
  - eexists. split; [reflexivity|]. split; [|split; [reflexivity|intros; lia]].
    left. split; [reflexivity|intros; lia].
  - destruct IH as (st0 & H0 & Hout & Hlen & Hrows); [lia|lia|].
    destruct (lookup_lt_is_Some_2 A k) as [dsa Hdsa]; [lia|].
    destruct (lookup_lt_is_Some_2 B k) as [mio Hmio]; [lia|].
    rewrite bins_prefix_S, H0. cbn [mbind option_bind].
    rewrite (bin_body_eq _ st0 dsa mio) by (rewrite load_nat; assumption).
    eexists. split; [reflexivity|]. cbn [out file].
    split; [|split].
    + destruct (gate dsa mio) eqn:Hg.
      * right. exists k, dsa, mio. repeat split; auto. intros; lia.
      * destruct Hout as [[-> Hno]|(h & dh & mh & Hh & Hah & Hbh & Hgh & -> & Hno)].
        -- left. split; [reflexivity|]. intros l dsa' mio' Hl Ha' Hb'.
           destruct (Nat.eq_dec l k) as [->|]; [congruence|]. eapply Hno; eauto. lia.
        -- right. exists h, dh, mh. repeat split; auto.
           intros l dsa' mio' Hl Ha' Hb'.
           destruct (Nat.eq_dec l k) as [->|]; [congruence|]. eapply Hno; eauto. lia.
    + rewrite length_app. cbn. lia.
    + intros i dsa' mio' Hi Ha' Hb'.
      destruct (Nat.eq_dec i k) as [->|].
      * rewrite lookup_app_r by lia. rewrite Hlen, Nat.sub_diag. cbn. congruence.
      * rewrite lookup_app_l by lia. apply Hrows; auto. lia.
Qed.
End Bins.

Lemma refclk_DFT_prefix atan2 (A B : list fftw_complex) (rate : float) (N : Z)
    (init : measured) :
  0 < N <= C.INT_MAX ->
  RefClkSync.DFT atan2 A B rate N init
  = st ← RefClkSync.prefix atan2 N rate N A B init (Z.to_nat (N / 2 + 1));
    Some (RefClkSync.file st, RefClkSync.out st).
Proof.
  intros HN. unfold RefClkSync.DFT, RefClkSync.prefix, for_lt.
  rewrite nc_in_range by assumption.
  rewrite int_of_longlong_id by (unfold C.INT_MIN, C.INT_MAX in *; lia).
  reflexivity.
Qed.

(** The outcome of [DFT] on buffers that hold at least [N / 2 + 1] bins. *)
Lemma refclk_DFT_spec atan2 (A B : list fftw_complex) (rate : float) (N : Z)
    (init : measured) :
  0 < N <= C.INT_MAX ->
  N / 2 + 1 <= Z.of_nat (length A) ->
  N / 2 + 1 <= Z.of_nat (length B) ->
  exists rows o,
    RefClkSync.DFT atan2 A B rate N init = Some (rows, o)
    /\ RefClkSync.out_inv atan2 rate N A B init (Z.to_nat (N / 2 + 1)) o
    /\ Z.of_nat (length rows) = N / 2 + 1
    /\ forall i dsa mio, Z.of_nat i < N / 2 + 1 ->
         A !! i = Some dsa -> B !! i = Some mio ->
         rows !! i = Some (RefClkSync.row_of N rate N dsa mio (Z.of_nat i)).
Proof.
  intros HN HA HB.
  assert (0 <= N / 2) by (apply Z.div_pos; lia).
  destruct (bins_prefix_spec atan2 N rate N A B init (Z.to_nat (N / 2 + 1)))
    as (st & Hst & Hout & Hlen & Hrows); [lia|lia|].
  exists (RefClkSync.file st), (RefClkSync.out st).
  rewrite refclk_DFT_prefix, Hst by assumption.
  split; [reflexivity|]. split; [assumption|]. split; [lia|].
  intros i dsa mio Hi. apply Hrows. lia.
Qed.

(** C10: in RefClkSync.c the three outputs are stored only under the gate
    "both magnitudes [>= 5]".  On buffers of [N / 2 + 1] bins, [DFT] returns,
    and (1) if no bin passes the gate the three locations keep the values
    they had on entry, so [EveryNCallback] reports its initial [0, 0, 0];
    (2) if [h] is the highest-index bin that passes the gate, they hold
    what the three stores write for bin [h], and that triple is what
    [EveryNCallback] reports. *)
Theorem gated_outputs atan2
    (A B : list fftw_complex) (rate : float) (N : Z) (init : measured) :
  0 < N <= C.INT_MAX ->
  Z.of_nat (length A) = N / 2 + 1 ->
  Z.of_nat (length B) = N / 2 + 1 ->
  exists rows o,
    RefClkSync.DFT atan2 A B rate N init = Some (rows, o)
    /\ ((forall l dsa mio, A !! l = Some dsa -> B !! l = Some mio ->
           RefClkSync.gate dsa mio = false) ->
        o = init
        /\ RefClkSync.EveryNCallback atan2 A B rate N = Some (mk_measured 0 0 0))
    /\ (forall h dsa mio,
          A !! h = Some dsa -> B !! h = Some mio ->
          RefClkSync.gate dsa mio = true ->
          (forall l dsa' mio', (h < l)%nat -> A !! l = Some dsa' -> B !! l = Some mio' ->
             RefClkSync.gate dsa' mio' = false) ->
          o = RefClkSync.triple_of atan2 rate N dsa mio (Z.of_nat h)
          /\ RefClkSync.EveryNCallback atan2 A B rate N
             = Some (RefClkSync.triple_of atan2 rate N dsa mio (Z.of_nat h))).
Proof.
  intros HN HA HB.
  destruct (refclk_DFT_spec atan2 A B rate N init HN) as (rows & o & HD & Hout & _);
    [lia|lia|].
  exists rows, o. split; [assumption|]. split.
  - intros Hno.
    assert (Hinit : forall init', exists rows',
               RefClkSync.DFT atan2 A B rate N init' = Some (rows', init')).
    { intros init'.
      destruct (refclk_DFT_spec atan2 A B rate N init' HN)
        as (rows' & o' & HD' & Hout' & _); [lia|lia|].
      exists rows'. rewrite HD'. do 2 f_equal.
      destruct Hout' as [[-> _]|(h & dh & mh & _ & Hah & Hbh & Hg & _)]; [reflexivity|].
      rewrite (Hno h dh mh Hah Hbh) in Hg. discriminate. }
    split.
    + destruct (Hinit init) as [rows' HD']. congruence.
    + unfold RefClkSync.EveryNCallback. cbv zeta.
      destruct (Hinit (mk_measured 0 0 0)) as [rows' ->]. reflexivity.
  - intros h dsa mio Ha Hb Hg Hlater.
    assert (Hgated : forall init', exists rows',
               RefClkSync.DFT atan2 A B rate N init'
               = Some (rows', RefClkSync.triple_of atan2 rate N dsa mio (Z.of_nat h))).
    { intros init'.
      destruct (refclk_DFT_spec atan2 A B rate N init' HN)
        as (rows' & o' & HD' & Hout' & _); [lia|lia|].
      exists rows'. rewrite HD'. do 2 f_equal.
      destruct Hout' as [[_ Hno]|(h' & dh & mh & Hh' & Hah & Hbh & Hgh & -> & Hno)].
      - rewrite (Hno h dsa mio) in Hg; [discriminate| |assumption|assumption].
        apply lookup_lt_Some in Ha. lia.
      - destruct (Nat.lt_trichotomy h h') as [Hlt|[->|Hgt]].
        + rewrite (Hlater h' dh mh Hlt Hah Hbh) in Hgh. discriminate.
        + congruence.
        + rewrite (Hno h dsa mio) in Hg; [discriminate| |assumption|assumption].
          apply lookup_lt_Some in Ha. lia. }
    split.
    + destruct (Hgated init) as [rows' HD']. congruence.
    + unfold RefClkSync.EveryNCallback. cbv zeta.
      destruct (Hgated (mk_measured 0 0 0)) as [rows' ->]. reflexivity.
Qed.

(** Bins 0 and 1 pass the gate (magnitude 8 on both channels), bin 2 does
    not: the reported triple is that of bin 1. *)
Lemma gated_outputs_witness :
  let dsaOutput := [(8, 0); (-8, 0); (0, 0)]%float in
  let mioOutput := [(8, 0); (0, -8); (0, 0)]%float in
  exists rows o,
    RefClkSync.DFT Libm.atan2 dsaOutput mioOutput 10000 4 (mk_measured 0 0 0)
    = Some (rows, o)
    /\ ((forall l dsa mio, dsaOutput !! l = Some dsa -> mioOutput !! l = Some mio ->
           RefClkSync.gate dsa mio = false) ->
        o = mk_measured 0 0 0
        /\ RefClkSync.EveryNCallback Libm.atan2 dsaOutput mioOutput 10000 4
           = Some (mk_measured 0 0 0))
    /\ (forall h dsa mio,
          dsaOutput !! h = Some dsa -> mioOutput !! h = Some mio ->
          RefClkSync.gate dsa mio = true ->
          (forall l dsa' mio', (h < l)%nat ->
             dsaOutput !! l = Some dsa' -> mioOutput !! l = Some mio' ->
             RefClkSync.gate dsa' mio' = false) ->
          o = RefClkSync.triple_of Libm.atan2 10000 4 dsa mio (Z.of_nat h)
          /\ RefClkSync.EveryNCallback Libm.atan2 dsaOutput mioOutput 10000 4
             = Some (RefClkSync.triple_of Libm.atan2 10000 4 dsa mio (Z.of_nat h))).
Proof.
  apply (gated_outputs Libm.atan2
           [(8, 0); (-8, 0); (0, 0)]%float [(8, 0); (0, -8); (0, 0)]%float
           10000 4 (mk_measured 0 0 0)).
  - unfold C.INT_MAX. lia.
  - reflexivity.
  - reflexivity.
Defined.

(** ** The report and the reported triple *)

(** The outcome of the loop of ChnlExpSync.c on buffers that hold at least
    [N / 2 + 1] bins whose DSA magnitudes convert to [int]. *)
Lemma chnlexp_scan_spec (A B : list fftw_complex) (rate : float) (N : Z) :
  0 < N <= C.INT_MAX ->
  N / 2 + 1 <= Z.of_nat (length A) ->
  N / 2 + 1 <= Z.of_nat (length B) ->
  (forall l c, A !! l = Some c -> is_Some (C.int_of_double (magnitude c))) ->
  exists st,
    ChnlExpSync.scan A B rate N = Some st
    /\ Z.of_nat (length (ChnlExpSync.file st)) = N / 2 + 1
    /\ forall i dsa mio, Z.of_nat i < N / 2 + 1 ->
         A !! i = Some dsa -> B !! i = Some mio ->
         ChnlExpSync.file st !! i
         = Some (ChnlExpSync.row_of N (rate / C.double_of_int N)%float dsa mio
                   (Z.of_nat i)).
Proof.
  intros HN HA HB Hint.
  assert (0 <= N / 2) by (apply Z.div_pos; lia).
  rewrite scan_prefix by assumption.
  destruct (scan_prefix_defined N (rate / C.double_of_int N)%float A B
              (Z.to_nat (N / 2 + 1)) Hint) as [st Hst]; [lia|lia|].
  destruct (scan_prefix_inv _ _ A B _ st Hst) as (_ & _ & _ & Hlen & Hrows).
  exists st. split; [assumption|]. split; [lia|].
  intros i dsa mio Hi. apply Hrows. lia.
Qed.

(** C6: for a chunk length [N] in the range of the [int n] it is stored
    in, [nc] is [N / 2 + 1] (integer division); [DFT] of ChnlExpSync.c
    scans exactly that many bins of the two transform buffers, and the line
    it writes for bin [i] carries the frequency [i * (sampleRate / N)]. *)
Theorem spectrum_length_and_frequency
    (A B : list fftw_complex) (rate : float) (N : Z) :
  0 < N <= C.INT_MAX ->
  N / 2 + 1 <= Z.of_nat (length A) ->
  N / 2 + 1 <= Z.of_nat (length B) ->
  (forall l c, A !! l = Some c -> is_Some (C.int_of_double (magnitude c))) ->
  Z.quot (C.int_of_longlong N) 2 + 1 = N / 2 + 1
  /\ exists st,
       ChnlExpSync.scan A B rate N = Some st
       /\ Z.of_nat (length (ChnlExpSync.file st)) = N / 2 + 1
       /\ forall i : nat, Z.of_nat i < N / 2 + 1 ->
            row_freq <$> ChnlExpSync.file st !! i
            = Some (C.double_of_int (Z.of_nat i) * (rate / C.double_of_int N))%float.
Proof.
  intros HN HA HB Hint. split; [apply nc_in_range; assumption|].
  destruct (chnlexp_scan_spec A B rate N HN HA HB Hint) as (st & Hst & Hlen & Hrows).
  exists st. split; [assumption|]. split; [assumption|].
  intros i Hi.
  destruct (lookup_lt_is_Some_2 A i) as [dsa Hdsa]; [lia|].
  destruct (lookup_lt_is_Some_2 B i) as [mio Hmio]; [lia|].
  rewrite (Hrows i dsa mio Hi Hdsa Hmio). reflexivity.
Qed.

Lemma spectrum_length_and_frequency_witness :
  let spectrum := [(0, 0); (0, 3); (3, 0)]%float in
  Z.quot (C.int_of_longlong 4) 2 + 1 = 4 / 2 + 1
  /\ exists st,
       ChnlExpSync.scan spectrum spectrum 10000 4 = Some st
       /\ Z.of_nat (length (ChnlExpSync.file st)) = 4 / 2 + 1
       /\ forall i : nat, Z.of_nat i < 4 / 2 + 1 ->
            row_freq <$> ChnlExpSync.file st !! i
            = Some (C.double_of_int (Z.of_nat i) * (10000 / C.double_of_int 4))%float.
Proof.
  apply (spectrum_length_and_frequency
           [(0, 0); (0, 3); (3, 0)]%float [(0, 0); (0, 3); (3, 0)]%float 10000 4).
  - unfold C.INT_MAX. lia.
  - vm_compute. discriminate.
  - vm_compute. discriminate.
  - bins_cases H; eexists; reflexivity.
Defined.

(** C8: every line of the report, the DC bin and the last bin included,
    carries for each channel the magnitude [sqrt(re*re + im*im)] of the bin
    and the amplitude [magnitude * 2 / n]; this holds in ChnlExpSync.c and
    in RefClkSync.c. *)
Theorem amplitude_uniform atan2
    (A B : list fftw_complex) (rate : float) (N : Z) (init : measured) :
  0 < N <= C.INT_MAX ->
  N / 2 + 1 <= Z.of_nat (length A) ->
  N / 2 + 1 <= Z.of_nat (length B) ->
  (forall l c, A !! l = Some c -> is_Some (C.int_of_double (magnitude c))) ->
  let scaled (c : fftw_complex) (mag amp : float) : Prop :=
    mag = PrimFloat.sqrt (REAL c * REAL c + IMAG c * IMAG c)%float
    /\ amp = (mag * 2 / C.double_of_int N)%float in
  exists st rows o,
    ChnlExpSync.scan A B rate N = Some st
    /\ RefClkSync.DFT atan2 A B rate N init = Some (rows, o)
    /\ Z.of_nat (length (ChnlExpSync.file st)) = N / 2 + 1
    /\ Z.of_nat (length rows) = N / 2 + 1
    /\ forall i : nat, Z.of_nat i < N / 2 + 1 ->
         exists dsa mio row row',
           A !! i = Some dsa /\ B !! i = Some mio
           /\ ChnlExpSync.file st !! i = Some row
           /\ rows !! i = Some row'
           /\ scaled dsa (row_dsaMagnitude row) (row_dsaAmplitude row)
           /\ scaled mio (row_mioMagnitude row) (row_mioAmplitude row)
           /\ scaled dsa (row_dsaMagnitude row') (row_dsaAmplitude row')
           /\ scaled mio (row_mioMagnitude row') (row_mioAmplitude row').
Proof.
  intros HN HA HB Hint scaled.
  destruct (chnlexp_scan_spec A B rate N HN HA HB Hint) as (st & Hst & Hlen & Hrows).
  destruct (refclk_DFT_spec atan2 A B rate N init HN HA HB)
    as (rows & o & HD & _ & Hlen' & Hrows').
  exists st, rows, o. repeat (split; [assumption|]).
  intros i Hi.
  destruct (lookup_lt_is_Some_2 A i) as [dsa Hdsa]; [lia|].
  destruct (lookup_lt_is_Some_2 B i) as [mio Hmio]; [lia|].
  exists dsa, mio,
    (ChnlExpSync.row_of N (rate / C.double_of_int N)%float dsa mio (Z.of_nat i)),
    (RefClkSync.row_of N rate N dsa mio (Z.of_nat i)).
  split; [assumption|]. split; [assumption|].
  split; [apply Hrows; assumption|]. split; [apply Hrows'; assumption|].
  repeat split.
Qed.

Lemma amplitude_uniform_witness :
  let spectrum := [(0, 0); (0, 3); (3, 0)]%float in
  let scaled (c : fftw_complex) (mag amp : float) : Prop :=
    mag = PrimFloat.sqrt (REAL c * REAL c + IMAG c * IMAG c)%float
    /\ amp = (mag * 2 / C.double_of_int 4)%float in
  exists st rows o,
    ChnlExpSync.scan spectrum spectrum 10000 4 = Some st
    /\ RefClkSync.DFT Libm.atan2 spectrum spectrum 10000 4 (mk_measured 0 0 0)
       = Some (rows, o)
    /\ Z.of_nat (length (ChnlExpSync.file st)) = 4 / 2 + 1
    /\ Z.of_nat (length rows) = 4 / 2 + 1
    /\ forall i : nat, Z.of_nat i < 4 / 2 + 1 ->
         exists dsa mio row row',
           spectrum !! i = Some dsa /\ spectrum !! i = Some mio
           /\ ChnlExpSync.file st !! i = Some row
           /\ rows !! i = Some row'
           /\ scaled dsa (row_dsaMagnitude row) (row_dsaAmplitude row)
           /\ scaled mio (row_mioMagnitude row) (row_mioAmplitude row)
           /\ scaled dsa (row_dsaMagnitude row') (row_dsaAmplitude row')
           /\ scaled mio (row_mioMagnitude row') (row_mioAmplitude row').
Proof.
  apply (amplitude_uniform Libm.atan2
           [(0, 0); (0, 3); (3, 0)]%float [(0, 0); (0, 3); (3, 0)]%float 10000 4
           (mk_measured 0 0 0)).
  - unfold C.INT_MAX. lia.
  - vm_compute. discriminate.
  - vm_compute. discriminate.
  - bins_cases H; eexists; reflexivity.
Defined.

(** What [out_inv] gives when the highest gated bin is known. *)
Lemma out_inv_highest atan2 (rate : float) (N : Z) (A B : list fftw_complex)
    (init o : measured) (k h : nat) (dsa mio : fftw_complex) :
  RefClkSync.out_inv atan2 rate N A B init k o ->
  (h < k)%nat -> A !! h = Some dsa -> B !! h = Some mio ->
  RefClkSync.gate dsa mio = true ->
  (forall l dsa' mio', (h < l)%nat -> A !! l = Some dsa' -> B !! l = Some mio' ->
     RefClkSync.gate dsa' mio' = false) ->
  o = RefClkSync.triple_of atan2 rate N dsa mio (Z.of_nat h).
Proof.
  intros Hout Hk Ha Hb Hg Hlater.
  destruct Hout as [[_ Hno]|(h' & dh & mh & Hh' & Hah & Hbh & Hgh & -> & Hno)].
  - rewrite (Hno h dsa mio Hk Ha Hb) in Hg. discriminate.
  - destruct (Nat.lt_trichotomy h h') as [Hlt|[->|Hgt]].
    + rewrite (Hlater h' dh mh Hlt Hah Hbh) in Hgh. discriminate.
    + congruence.
    + rewrite (Hno h dsa mio) in Hg; [discriminate|lia|assumption|assumption].
Qed.

(** What [DFT] of ChnlExpSync.c reports once the loop has selected a bin. *)
Lemma chnlexp_DFT_selected atan2 (A B : list fftw_complex) (rate : float) (N : Z)
    (st : ChnlExpSync.scan_state) (k : nat) (dsa mio : fftw_complex) :
  ChnlExpSync.scan A B rate N = Some st ->
  ChnlExpSync.maxMagnitudeIndex st = Z.of_nat k ->
  A !! k = Some dsa -> B !! k = Some mio ->
  ChnlExpSync.DFT atan2 A B rate N
  = Some (ChnlExpSync.file st,
          RefClkSync.triple_of atan2 rate N dsa mio (Z.of_nat k)).
Proof.
  intros Hst Hi Ha Hb. unfold ChnlExpSync.DFT. rewrite Hst. cbn [mbind option_bind].
  rewrite Hi, !load_nat, Ha, Hb. reflexivity.
Qed.

(** C3 (as amended): neither program guards the division.  When the bin
    that is reported is the DC bin, the frequency is [0 * (sampleRate / N)]
    and the reported skew in seconds, [(d / 360) * (1 / f)], is an infinity
    or a NaN: in ChnlExpSync.c when the loop selects bin 0, in RefClkSync.c
    when bin 0 is the only bin that passes the gate. *)
Theorem dc_bin_skew_not_finite atan2
    (A B : list fftw_complex) (rate : float) (N : Z) :
  0 < N <= C.INT_MAX ->
  N / 2 + 1 <= Z.of_nat (length A) ->
  N / 2 + 1 <= Z.of_nat (length B) ->
  (forall st,
     ChnlExpSync.scan A B rate N = Some st ->
     ChnlExpSync.maxMagnitudeIndex st = 0 ->
     exists rows r,
       ChnlExpSync.DFT atan2 A B rate N = Some (rows, r)
       /\ measuredFreq r = (C.double_of_int 0 * (rate / C.double_of_int N))%float
       /\ not_finite (measuredPhaseSkewSec r) = true)
  /\ (forall dsa mio init,
        A !! 0%nat = Some dsa -> B !! 0%nat = Some mio ->
        RefClkSync.gate dsa mio = true ->
        (forall l dsa' mio', (0 < l)%nat -> A !! l = Some dsa' -> B !! l = Some mio' ->
           RefClkSync.gate dsa' mio' = false) ->
        exists rows r,
          RefClkSync.DFT atan2 A B rate N init = Some (rows, r)
          /\ measuredFreq r = (C.double_of_int 0 * (rate / C.double_of_int N))%float
          /\ not_finite (measuredPhaseSkewSec r) = true).
Proof.
  intros HN HA HB.
  assert (0 <= N / 2) by (apply Z.div_pos; lia).
  split.
  - intros st Hst Hi.
    destruct (lookup_lt_is_Some_2 A 0) as [dsa Hdsa]; [lia|].
    destruct (lookup_lt_is_Some_2 B 0) as [mio Hmio]; [lia|].
    rewrite (chnlexp_DFT_selected atan2 A B rate N st 0 dsa mio Hst Hi Hdsa Hmio).
    do 2 eexists. split; [reflexivity|]. split; [reflexivity|].
    apply phaseSkewSec_dc.
  - intros dsa mio init Ha Hb Hg Hlater.
    destruct (refclk_DFT_spec atan2 A B rate N init HN HA HB)
      as (rows & o & HD & Hout & _).
    rewrite HD. exists rows, o. split; [reflexivity|].
    rewrite (out_inv_highest atan2 rate N A B init o _ 0 dsa mio Hout
               ltac:(lia) Ha Hb Hg Hlater).
    split; [reflexivity|]. apply phaseSkewSec_dc.
Qed.

Lemma dc_bin_skew_not_finite_witness :
  let dsaOutput := [(8, 0); (0, 0); (0, 0)]%float in
  let mioOutput := [(8, 0); (0, 0); (1, 0)]%float in
  (forall st,
     ChnlExpSync.scan dsaOutput mioOutput 10000 4 = Some st ->
     ChnlExpSync.maxMagnitudeIndex st = 0 ->
     exists rows r,
       ChnlExpSync.DFT Libm.atan2 dsaOutput mioOutput 10000 4 = Some (rows, r)
       /\ measuredFreq r = (C.double_of_int 0 * (10000 / C.double_of_int 4))%float
       /\ not_finite (measuredPhaseSkewSec r) = true)
  /\ (forall dsa mio init,
        dsaOutput !! 0%nat = Some dsa -> mioOutput !! 0%nat = Some mio ->
        RefClkSync.gate dsa mio = true ->
        (forall l dsa' mio', (0 < l)%nat ->
           dsaOutput !! l = Some dsa' -> mioOutput !! l = Some mio' ->
           RefClkSync.gate dsa' mio' = false) ->
        exists rows r,
          RefClkSync.DFT Libm.atan2 dsaOutput mioOutput 10000 4 init = Some (rows, r)
          /\ measuredFreq r = (C.double_of_int 0 * (10000 / C.double_of_int 4))%float
          /\ not_finite (measuredPhaseSkewSec r) = true).
Proof.
  apply (dc_bin_skew_not_finite Libm.atan2
           [(8, 0); (0, 0); (0, 0)]%float [(8, 0); (0, 0); (1, 0)]%float 10000 4).
  - unfold C.INT_MAX. lia.
  - vm_compute. discriminate.
  - vm_compute. discriminate.
Defined.

(** C3 fails as stated: with all the energy in the DC bin, ChnlExpSync.c
    selects bin 0 and RefClkSync.c gates bin 0 only; both report the
    frequency 0 and, for the skew in seconds, the NaN that [0 * (1 / 0)]
    evaluates to, not a separate "undefined" result.  ([atan2 (0, 8)] is
    exactly [0].) *)
Lemma dc_bin_skew_is_nan :
  let dsaOutput := [(8, 0); (0, 0); (0, 0)]%float in
  let mioOutput := [(8, 0); (0, 0); (1, 0)]%float in
  ChnlExpSync.maxMagnitudeIndex <$> ChnlExpSync.scan dsaOutput mioOutput 10000 4
  = Some 0
  /\ snd <$> ChnlExpSync.DFT Libm.atan2 dsaOutput mioOutput 10000 4
     = Some (mk_measured 0 nan 0)
  /\ RefClkSync.EveryNCallback Libm.atan2 dsaOutput mioOutput 10000 4
     = Some (mk_measured 0 nan 0).
Proof. cbv zeta. repeat split; vm_compute; reflexivity. Qed.

(** C4 (as amended): the two programs compute the skew in seconds by the
    same expression, [((dsaPhase - mioPhase) / 360) * (1 / freq)], from the
    difference before normalisation.  When ChnlExpSync.c selects bin [k]
    and [k] is the highest-index bin that passes the gate of RefClkSync.c,
    the two programs report the same triple, whose skew in seconds is that
    expression. *)
Theorem both_variants_use_raw_difference atan2
    (A B : list fftw_complex) (rate : float) (N : Z)
    (st : ChnlExpSync.scan_state) (k : nat) (dsa mio : fftw_complex)
    (init : measured) :
  0 < N <= C.INT_MAX ->
  Z.of_nat (length A) = N / 2 + 1 ->
  Z.of_nat (length B) = N / 2 + 1 ->
  ChnlExpSync.scan A B rate N = Some st ->
  ChnlExpSync.maxMagnitudeIndex st = Z.of_nat k ->
  A !! k = Some dsa -> B !! k = Some mio ->
  RefClkSync.gate dsa mio = true ->
  (forall l dsa' mio', (k < l)%nat -> A !! l = Some dsa' -> B !! l = Some mio' ->
     RefClkSync.gate dsa' mio' = false) ->
  let dsaPhase := (atan2 (IMAG dsa) (REAL dsa) * (180 / PI))%float in
  let mioPhase := (atan2 (IMAG mio) (REAL mio) * (180 / PI))%float in
  let freq := (C.double_of_int (Z.of_nat k) * (rate / C.double_of_int N))%float in
  exists r,
    snd <$> ChnlExpSync.DFT atan2 A B rate N = Some r
    /\ snd <$> RefClkSync.DFT atan2 A B rate N init = Some r
    /\ measuredPhaseSkewDeg r = NormalizePhaseAngleDifference (dsaPhase - mioPhase)
    /\ measuredPhaseSkewSec r = ((dsaPhase - mioPhase) / 360 * (1 / freq))%float
    /\ measuredFreq r = freq.
Proof.
  intros HN HA HB Hst Hi Ha Hb Hg Hlater dsaPhase mioPhase freq.
  assert (0 <= N / 2) by (apply Z.div_pos; lia).
  exists (RefClkSync.triple_of atan2 rate N dsa mio (Z.of_nat k)).
  split.
  { rewrite (chnlexp_DFT_selected atan2 A B rate N st k dsa mio Hst Hi Ha Hb).
    reflexivity. }
  split.
  { destruct (refclk_DFT_spec atan2 A B rate N init HN) as (rows & o & HD & Hout & _);
      [lia|lia|].
    rewrite HD. cbn. f_equal.
    apply (out_inv_highest atan2 rate N A B init o _ k dsa mio Hout); auto.
    apply lookup_lt_Some in Ha. lia. }
  repeat split.
Qed.

Lemma both_variants_use_raw_difference_witness :
  let dsaOutput := [(0, 0); (-8, 0); (0, 0)]%float in
  let mioOutput := [(0, 0); (0, -8); (0, 0)]%float in
  let dsaPhase := (Libm.atan2 0 (-8) * (180 / PI))%float in
  let mioPhase := (Libm.atan2 (-8) 0 * (180 / PI))%float in
  let freq := (C.double_of_int (Z.of_nat 1) * (10000 / C.double_of_int 4))%float in
  exists r,
    snd <$> ChnlExpSync.DFT Libm.atan2 dsaOutput mioOutput 10000 4 = Some r
    /\ snd <$> RefClkSync.DFT Libm.atan2 dsaOutput mioOutput 10000 4 (mk_measured 0 0 0)
       = Some r
    /\ measuredPhaseSkewDeg r = NormalizePhaseAngleDifference (dsaPhase - mioPhase)
    /\ measuredPhaseSkewSec r = ((dsaPhase - mioPhase) / 360 * (1 / freq))%float
    /\ measuredFreq r = freq.
Proof.
  destruct (ChnlExpSync.scan [(0, 0); (-8, 0); (0, 0)]%float
              [(0, 0); (0, -8); (0, 0)]%float 10000 4) as [st|] eqn:Hst;
    [|vm_compute in Hst; discriminate].
  apply (both_variants_use_raw_difference Libm.atan2
           [(0, 0); (-8, 0); (0, 0)]%float [(0, 0); (0, -8); (0, 0)]%float 10000 4
           st 1 (-8, 0)%float (0, -8)%float (mk_measured 0 0 0));
    try reflexivity; try assumption.
  - unfold C.INT_MAX. lia.
  - vm_compute in Hst. injection Hst as <-. reflexivity.
  - intros [|[|[|?]]] ? ? Hl Ha Hb; cbn in Ha, Hb; try lia; try discriminate.
    injection Ha as <-. injection Hb as <-. reflexivity.
Defined.

(** C4 fails as stated: the DSA bin has phase 180 and the MIO bin phase -90
    (up to the rounding of [PI]), so the raw difference is above 270 and
    normalisation wraps it to about -90.  ChnlExpSync.c nevertheless reports
    the skew in seconds computed from the raw difference, 0.0003 s, the same
    value as RefClkSync.c, and not the value the wrapped difference gives,
    about -0.0001 s. *)
Lemma chnlexp_sec_from_raw_difference :
  let dsaOutput := [(0, 0); (-8, 0); (0, 0)]%float in
  let mioOutput := [(0, 0); (0, -8); (0, 0)]%float in
  let d := (Libm.atan2 0 (-8) * (180 / PI) - Libm.atan2 (-8) 0 * (180 / PI))%float in
  let raw := (d / 360 * (1 / 2500))%float in
  let wrapped := (NormalizePhaseAngleDifference d / 360 * (1 / 2500))%float in
  C.gt d 270 = true
  /\ measuredPhaseSkewSec ∘ snd <$> ChnlExpSync.DFT Libm.atan2 dsaOutput mioOutput 10000 4
     = Some raw
  /\ measuredPhaseSkewSec ∘ snd
       <$> RefClkSync.DFT Libm.atan2 dsaOutput mioOutput 10000 4 (mk_measured 0 0 0)
     = Some raw
  /\ C.lt wrapped 0 = true /\ C.gt raw 0 = true.
Proof. cbv zeta. repeat split; vm_compute; reflexivity. Qed.

(** ** The range of the normalised difference *)

(** Rounding a mantissa of at most 53 bits is exact. *)
Lemma binary_round_exact (s : bool) (q : positive) (e : Z) :
  Z.pos (digits2_pos q) <= 53 ->
  -1074 <= Z.pos (digits2_pos q) + e - 53 <= 971 ->
  binary_round prec emax s q e
  = S754_finite s (Z.to_pos (Z.pos q * 2 ^ (53 - Z.pos (digits2_pos q))))
      (Z.pos (digits2_pos q) + e - 53).
Proof.
  intros Hd He. unfold binary_round, shl_align.
  assert (Hf : fexp prec emax (Z.pos (digits2_pos q) + e)
               = Z.pos (digits2_pos q) + e - 53).
  { unfold fexp, emin, emax, prec. lia. }
  rewrite Hf.
  destruct (Z.pos (digits2_pos q) + e - 53 - e) as [|k|k] eqn:Hk; try lia.
  - (* 53 bits already *)
    assert (Hd53 : Z.pos (digits2_pos q) = 53) by lia.
    unfold binary_round_aux, shr_fexp. cbn [Zdigits2 shr_record_of_loc].
    rewrite Hf. replace (Z.pos (digits2_pos q) + e - 53 - e) with 0 by lia.
    cbn [shr shr_m loc_of_shr_record round_nearest_even Zdigits2 shr_record_of_loc].
    rewrite Hf. replace (Z.pos (digits2_pos q) + e - 53 - e) with 0 by lia.
    cbn [shr shr_m].
    rewrite Hd53. replace (53 - 53) with 0 by lia. rewrite Z.pow_0_r, Z.mul_1_r.
    rewrite Pos2Z.id. replace (53 + e - 53) with e by lia.
    destruct (Z.leb_spec e (emax - prec)); [reflexivity|unfold emax, prec in *; lia].
  - (* shift up to 53 bits *)
    unfold binary_round_aux, shr_fexp. cbn [Zdigits2 shr_record_of_loc].
    rewrite digits2_pos_iter_xO.
    assert (Hf2 : fexp prec emax (Z.pos (digits2_pos q + k)
                                  + (Z.pos (digits2_pos q) + e - 53))
                  - (Z.pos (digits2_pos q) + e - 53) = 0).
    { unfold fexp, emin, emax, prec. lia. }
    rewrite Hf2.
    cbn [shr shr_m loc_of_shr_record round_nearest_even Zdigits2 shr_record_of_loc].
    rewrite digits2_pos_iter_xO, Hf2. cbn [shr shr_m].
    replace (Z.to_pos (Z.pos q * 2 ^ (53 - Z.pos (digits2_pos q))))
      with (Pos.iter xO q k).
    2:{ apply Pos2Z.inj. rewrite Zpos_iter_xO, Z2Pos.id.
        - do 2 f_equal. lia.
        - apply Z.mul_pos_pos; [lia|]. apply Z.pow_pos_nonneg; lia. }
    destruct (Z.leb_spec (Z.pos (digits2_pos q) + e - 53) (emax - prec));
      [reflexivity|unfold emax, prec in *; lia].
Qed.

Lemma digits2_pos_le (q : positive) (d : Z) :
  Z.pos q < 2 ^ d -> 0 <= d -> Z.pos (digits2_pos q) <= d.
Proof.
  intros Hq Hd. pose proof (digits2_pos_bounds q) as [Hlo _].
  destruct (Z.le_gt_cases (Z.pos (digits2_pos q)) d); [assumption|].
  assert (2 ^ d <= 2 ^ (Z.pos (digits2_pos q) - 1)) by (apply Z.pow_le_mono_r; lia).
  lia.
Qed.

(** The mantissa of an exactly rounded value, scaled back. *)
Lemma shifted_mantissa (q : positive) (d : Z) :
  0 <= 53 - d ->
  Z.pos (Z.to_pos (Z.pos q * 2 ^ (53 - d))) = Z.pos q * 2 ^ (53 - d).
Proof.
  intros Hd. apply Z2Pos.id. apply Z.mul_pos_pos; [lia|].
  apply Z.pow_pos_nonneg; lia.
Qed.

(** Comparing two finite values of the same sign: first the exponents, then
    the mantissas. *)
Lemma SFcompare_pos (m1 : positive) (e1 : Z) (m2 : positive) (e2 : Z) :
  SFcompare (S754_finite false m1 e1) (S754_finite false m2 e2)
  = Some (match e1 ?= e2 with
          | Lt => Lt | Gt => Gt | Eq => (m1 ?= m2)%positive
          end).
Proof. reflexivity. Qed.

Lemma SFcompare_neg (m1 : positive) (e1 : Z) (m2 : positive) (e2 : Z) :
  SFcompare (S754_finite true m1 e1) (S754_finite true m2 e2)
  = Some (match e1 ?= e2 with
          | Lt => Gt | Gt => Lt | Eq => CompOpp (m1 ?= m2)%positive
          end).
Proof. reflexivity. Qed.

(** Case analysis on every comparison in sight, the outcomes on [positive]
    restated on [Z]. *)
Ltac pos_to_Z :=
  repeat match goal with
  | H : (_ < _)%positive |- _ => apply Pos2Z.pos_lt_pos in H
  | H : @eq positive ?a ?b |- _ =>
      apply (f_equal Z.pos) in H
  end.

Ltac cmp_cases :=
  repeat match goal with
  | |- context [?a ?= ?b] => destruct (Z.compare_spec a b)
  | |- context [(?a ?= ?b)%positive] => destruct (Pos.compare_spec a b)
  | H : context [?a ?= ?b] |- _ => destruct (Z.compare_spec a b)
  | H : context [(?a ?= ?b)%positive] |- _ => destruct (Pos.compare_spec a b)
  end;
  pos_to_Z.

(** A value strictly between 270 and 360. *)
Lemma between_270_360 (x : spec_float) :
  SFltb (S754_finite false 4749890231992320 (-44)) x = true ->
  SFltb x (S754_finite false 6333186975989760 (-44)) = true ->
  exists m, x = S754_finite false m (-44)
            /\ 4749890231992320 < Z.pos m < 6333186975989760.
Proof.
  unfold SFltb. destruct x as [s|s| |s m e]; try (destruct s); try discriminate.
  rewrite !SFcompare_pos. intros H1 H2.
  cmp_cases; try discriminate; try lia.
  subst e. exists m. split; [reflexivity|lia].
Qed.

(** [x - 360] for such a value lies between -90 and 0. *)
Lemma sub_360_range (m : positive) :
  4749890231992320 < Z.pos m < 6333186975989760 ->
  let r := SFsub prec emax (S754_finite false m (-44))
             (S754_finite false 6333186975989760 (-44)) in
  SFltb r (S754_finite true 6333186975989760 (-46)) = false
  /\ SFleb (S754_finite true 6333186975989760 (-46)) r = true
  /\ SFleb r (S754_finite false 4749890231992320 (-44)) = true.
Proof.
  intros Hm r. subst r. unfold SFsub.
  change (Z.min (-44) (-44)) with (-44).
  unfold shl_align. change (-44 - -44) with 0. cbn [fst cond_Zopp].
  destruct (Z.pos m - 6333186975989760) as [|q|q] eqn:HM; try lia.
  cbn [binary_normalize].
  assert (Hq : Z.pos q < 2 ^ 51).
  { apply Z.lt_trans with 1583296743997440; [lia|reflexivity]. }
  pose proof (digits2_pos_le q 51 Hq ltac:(lia)) as Hd.
  pose proof (digits2_pos_bounds q) as [Hlo Hhi].
  rewrite binary_round_exact by lia.
  set (d := Z.pos (digits2_pos q)) in *.
  assert (Hsh := shifted_mantissa q d ltac:(lia)).
  set (q' := Z.to_pos (Z.pos q * 2 ^ (53 - d))) in *.
  assert (Hq' : d + -44 - 53 = -46 -> Z.pos q' < 6333186975989760).
  { intros Hd51. assert (d = 51) as Hd' by lia. rewrite Hsh, Hd'.
    change (2 ^ (53 - 51)) with 4. lia. }
  unfold SFltb, SFleb. rewrite !SFcompare_neg.
  repeat split.
  - cmp_cases; try reflexivity; try lia.
  - cmp_cases; try reflexivity; try lia.
Qed.

(** The last step of a rounding, on a mantissa that already has 53 bits. *)
Lemma round_finish_53 (m1 : positive) (e1 : Z) :
  Z.pos (digits2_pos m1) = 53 -> -1074 <= e1 <= 971 ->
  (let '(mrs, e) := shr_fexp prec emax (Z.pos m1) e1 loc_Exact in
   match shr_m mrs with
   | 0 => S754_zero false
   | Z.pos m => if e <=? emax - prec then S754_finite false m e else S754_infinity false
   | Z.neg _ => S754_nan
   end) = S754_finite false m1 e1.
Proof.
  intros Hd He. unfold shr_fexp. cbn [Zdigits2]. rewrite Hd.
  replace (fexp prec emax (53 + e1) - e1) with 0
    by (unfold fexp, emin, emax, prec; lia).
  cbn [shr shr_record_of_loc shr_m].
  destruct (Z.leb_spec e1 (emax - prec)); [reflexivity|unfold emax, prec in *; lia].
Qed.

(** The same step on the mantissa [2^53], which a rounding up can reach. *)
Lemma round_finish_carry (e1 : Z) :
  -1074 <= e1 <= 970 ->
  (let '(mrs, e) := shr_fexp prec emax (Z.pos 9007199254740992) e1 loc_Exact in
   match shr_m mrs with
   | 0 => S754_zero false
   | Z.pos m => if e <=? emax - prec then S754_finite false m e else S754_infinity false
   | Z.neg _ => S754_nan
   end) = S754_finite false 4503599627370496 (e1 + 1).
Proof.
  intros He. unfold shr_fexp. cbn [Zdigits2].
  change (Z.pos (digits2_pos 9007199254740992)) with 54.
  replace (fexp prec emax (54 + e1) - e1) with 1
    by (unfold fexp, emin, emax, prec; lia).
  cbn [shr shr_record_of_loc shr_m SpecFloat.iter_pos shr_1].
  destruct (Z.leb_spec (e1 + 1) (emax - prec)); [reflexivity|unfold emax, prec in *; lia].
Qed.

(** A mantissa [p] or [p + 1] with [p] of 53 bits: 53 bits, or exactly
    [2^53]. *)
Lemma succ_53 (p : positive) :
  Z.pos (digits2_pos p) = 53 ->
  Z.pos (digits2_pos (p + 1)) = 53 \/ (p + 1)%positive = 9007199254740992%positive.
Proof.
  intros Hd. pose proof (digits2_pos_bounds p) as [Hlo Hhi]. rewrite Hd in Hlo, Hhi.
  destruct (Z.eq_dec (Z.pos p + 1) (2 ^ 53)) as [Heq|Hne].
  - right. apply Pos2Z.inj. rewrite Pos2Z.inj_add. exact Heq.
  - left. apply digits2_pos_unique; [|lia]. rewrite Pos2Z.inj_add. lia.
Qed.

(** Rounding a 55-bit mantissa below [4 * K], with [K] below [2^53], gives
    a 53-bit mantissa not above [K], two binades up. *)
Lemma binary_round_55 (q : positive) (e K : Z) :
  Z.pos (digits2_pos q) = 55 ->
  -1076 <= e <= 969 ->
  Z.pos q < 4 * K -> K < 2 ^ 53 ->
  exists m1, binary_round prec emax false q e = S754_finite false m1 (e + 2)
             /\ Z.pos m1 <= K.
Proof.
  intros Hd He HK HK53.
  unfold binary_round, shl_align. rewrite Hd.
  replace (fexp prec emax (55 + e)) with (e + 2) by (unfold fexp, emin, emax, prec; lia).
  replace (e + 2 - e) with 2 by lia.
  unfold binary_round_aux at 1. unfold shr_fexp at 1. cbn [Zdigits2]. rewrite Hd.
  replace (fexp prec emax (55 + e) - e) with 2 by (unfold fexp, emin, emax, prec; lia).
  cbn [shr shr_record_of_loc SpecFloat.iter_pos].
  destruct q as [[p|p|]|[p|p|]|]; try (cbn in Hd; lia);
    cbn [shr_1 orb shr_m loc_of_shr_record round_nearest_even].
  all: assert (Hp : Z.pos (digits2_pos p) = 53) by (cbn [digits2_pos] in Hd; lia).
  all: assert (Hpb := digits2_pos_bounds p); rewrite Hp in Hpb.
  all: first [change (Z.pos p~1~1) with (4 * Z.pos p + 3) in HK
             |change (Z.pos p~0~1) with (4 * Z.pos p + 1) in HK
             |change (Z.pos p~1~0) with (4 * Z.pos p + 2) in HK
             |change (Z.pos p~0~0) with (4 * Z.pos p) in HK].
  all: try (destruct (Z.even (Z.pos p)) eqn:Hev).
  all: try change (Z.pos p + 1) with (Z.pos (p + 1)).
  all: try (rewrite round_finish_53 by (assumption || lia); eexists; split; [reflexivity|lia]).
  all: destruct (succ_53 p Hp) as [Hs|Hs];
    [rewrite round_finish_53 by (assumption || lia); eexists; split; [reflexivity|];
     rewrite Pos2Z.inj_add; lia
    |exfalso; apply (f_equal Z.pos) in Hs; rewrite Pos2Z.inj_add in Hs;
     change (Z.pos 9007199254740992) with (2 ^ 53) in Hs; lia].
Qed.

(** Rounding a 54-bit mantissa moves it one binade up, or two when the
    rounding carries into [2^53]. *)
Lemma binary_round_54 (q : positive) (e : Z) :
  Z.pos (digits2_pos q) = 54 ->
  -1075 <= e <= 969 ->
  exists m1 e1, binary_round prec emax false q e = S754_finite false m1 e1
                /\ (e1 = e + 1 \/ e1 = e + 2 /\ m1 = 4503599627370496%positive).
Proof.
  intros Hd He.
  unfold binary_round, shl_align. rewrite Hd.
  replace (fexp prec emax (54 + e)) with (e + 1) by (unfold fexp, emin, emax, prec; lia).
  replace (e + 1 - e) with 1 by lia.
  unfold binary_round_aux at 1. unfold shr_fexp at 1. cbn [Zdigits2]. rewrite Hd.
  replace (fexp prec emax (54 + e) - e) with 1 by (unfold fexp, emin, emax, prec; lia).
  cbn [shr shr_record_of_loc SpecFloat.iter_pos].
  destruct q as [p|p|]; try (cbn in Hd; lia);
    cbn [shr_1 orb shr_m loc_of_shr_record round_nearest_even].
  all: assert (Hp : Z.pos (digits2_pos p) = 53) by (cbn [digits2_pos] in Hd; lia).
  all: try (destruct (Z.even (Z.pos p)) eqn:Hev).
  all: try change (Z.pos p + 1) with (Z.pos (p + 1)).
  all: try (rewrite round_finish_53 by (assumption || lia);
            do 2 eexists; split; [reflexivity|left; reflexivity]).
  destruct (succ_53 p Hp) as [Hs|Hs].
  - rewrite round_finish_53 by (assumption || lia).
    do 2 eexists; split; [reflexivity|left; reflexivity].
  - rewrite Hs, round_finish_carry by lia.
    do 2 eexists; split; [reflexivity|right; split; [lia|reflexivity]].
Qed.

(** [<] and [<=] on two values that are not NaN: one of [y < x] and
    [x <= y] holds. *)
Lemma SFltb_false_leb (x y : spec_float) :
  x <> S754_nan -> y <> S754_nan ->
  SFltb y x = false -> SFleb x y = true.
Proof.
  unfold SFltb, SFleb, SFcompare.
  destruct x as [sx|sx| |sx mx ex], y as [sy|sy| |sy my ey];
    try (destruct sx); try (destruct sy); intros Hx Hy; try congruence;
    try reflexivity; try discriminate.
  - change (Pos.compare_cont Eq ?a ?b) with (Pos.compare a b).
    rewrite (Z.compare_antisym ex ey), (Pos.compare_antisym mx my).
    destruct (ex ?= ey); cbn; try discriminate; try reflexivity.
    destruct (mx ?= my)%positive; cbn; try discriminate; reflexivity.
  - change (Pos.compare_cont Eq ?a ?b) with (Pos.compare a b).
    rewrite (Z.compare_antisym ex ey), (Pos.compare_antisym mx my).
    destruct (ex ?= ey); cbn; try discriminate; try reflexivity.
    destruct (mx ?= my)%positive; cbn; try discriminate; reflexivity.
Qed.

(** A value strictly between -360 and -90. *)
Lemma between_m360_m90 (x : spec_float) :
  SFltb (S754_finite true 6333186975989760 (-44)) x = true ->
  SFltb x (S754_finite true 6333186975989760 (-46)) = true ->
  exists m e, x = S754_finite true m e
              /\ (e = -44 /\ Z.pos m < 6333186975989760
                  \/ e = -45
                  \/ e = -46 /\ 6333186975989760 < Z.pos m).
Proof.
  unfold SFltb. destruct x as [s|s| |s m e]; try (destruct s); try discriminate.
  rewrite !SFcompare_neg. intros H1 H2. exists m, e. split; [reflexivity|].
  cmp_cases; cbn in H1, H2; try discriminate; lia.
Qed.

(** [x + 360] for such a value lies between 0 and 270. *)
Lemma add_360_range (m : positive) (e : Z) :
  Z.pos (digits2_pos m) = 53 ->
  (e = -44 /\ Z.pos m < 6333186975989760
   \/ e = -45
   \/ e = -46 /\ 6333186975989760 < Z.pos m) ->
  let r := SFadd prec emax (S754_finite true m e)
             (S754_finite false 6333186975989760 (-44)) in
  SFleb (S754_finite true 6333186975989760 (-46)) r = true
  /\ SFleb r (S754_finite false 4749890231992320 (-44)) = true.
Proof.
  intros Hd Hcase r. subst r.
  pose proof (digits2_pos_bounds m) as [Hlo Hhi]. rewrite Hd in Hlo, Hhi.
  change (2 ^ (53 - 1)) with 4503599627370496 in Hlo.
  change (2 ^ 53) with 9007199254740992 in Hhi.
  unfold SFadd.
  destruct Hcase as [[-> Hm]|[->|[-> Hm]]].
  - (* 256 <= -x < 360: the sum is exact, below 128 *)
    change (Z.min (-44) (-44)) with (-44).
    unfold shl_align. change (-44 - -44) with 0. cbn [fst cond_Zopp].
    destruct (- Z.pos m + 6333186975989760) as [|q|q] eqn:HM; try lia.
    cbn [binary_normalize].
    assert (Hq : Z.pos q < 2 ^ 51).
    { apply Z.lt_trans with 1829587348619265; [lia|reflexivity]. }
    pose proof (digits2_pos_le q 51 Hq ltac:(lia)) as Hdq.
    pose proof (digits2_pos_bounds q) as [Hqlo Hqhi].
    rewrite binary_round_exact by lia.
    set (d := Z.pos (digits2_pos q)) in *.
    unfold SFleb. rewrite SFcompare_pos. split; [reflexivity|].
    cmp_cases; try reflexivity; lia.
  - (* 128 <= -x < 256: the sum is exact, below 256 *)
    change (Z.min (-45) (-44)) with (-45).
    unfold shl_align. change (-45 - -45) with 0. change (-45 - -44) with (-1).
    cbn [fst cond_Zopp Pos.iter].
    change (Z.pos 6333186975989760~0) with 12666373951979520.
    destruct (- Z.pos m + 12666373951979520) as [|q|q] eqn:HM; try lia.
    cbn [binary_normalize].
    assert (Hq : Z.pos q < 2 ^ 53).
    { apply Z.lt_trans with 8162774324609025; [lia|reflexivity]. }
    pose proof (digits2_pos_le q 53 Hq ltac:(lia)) as Hdq.
    pose proof (digits2_pos_bounds q) as [Hqlo Hqhi].
    rewrite binary_round_exact by lia.
    set (d := Z.pos (digits2_pos q)) in *.
    unfold SFleb. rewrite SFcompare_pos. split; [reflexivity|].
    cmp_cases; try reflexivity; lia.
  - (* 90 < -x < 128: the sum has 54 or 55 bits and is rounded *)
    change (Z.min (-46) (-44)) with (-46).
    unfold shl_align. change (-46 - -46) with 0. change (-46 - -44) with (-2).
    cbn [fst cond_Zopp Pos.iter].
    change (Z.pos (6333186975989760~0)~0) with 25332747903959040.
    destruct (- Z.pos m + 25332747903959040) as [|q|q] eqn:HM; try lia.
    cbn [binary_normalize].
    assert (Hqlo : 2 ^ 53 <= Z.pos q).
    { apply Z.le_trans with 16325548649218049; [discriminate|lia]. }
    assert (Hqhi : Z.pos q < 2 ^ 55).
    { apply Z.lt_trans with 18999560927969280; [lia|reflexivity]. }
    pose proof (digits2_pos_bounds q) as [Hblo Hbhi].
    assert (H54 : 54 <= Z.pos (digits2_pos q)).
    { destruct (Z.le_gt_cases 54 (Z.pos (digits2_pos q))); [assumption|].
      assert (2 ^ Z.pos (digits2_pos q) <= 2 ^ 53) by (apply Z.pow_le_mono_r; lia).
      lia. }
    pose proof (digits2_pos_le q 55 Hqhi ltac:(lia)) as H55.
    destruct (Z.eq_dec (Z.pos (digits2_pos q)) 54) as [Hdq|Hdq].
    + destruct (binary_round_54 q (-46) Hdq ltac:(lia))
        as (m1 & e1 & -> & [->|[-> ->]]);
        unfold SFleb; rewrite SFcompare_pos; split; reflexivity.
    + destruct (binary_round_55 q (-46) 4749890231992320 ltac:(lia) ltac:(lia))
        as (m1 & -> & Hm1); [lia|reflexivity|].
      unfold SFleb. rewrite SFcompare_pos. split; [reflexivity|].
      change (-46 + 2 ?= -44) with Eq. cbv iota.
      cmp_cases; try reflexivity; lia.
Qed.

(** A rounding with a positive sign is never below a negative number. *)
Lemma binary_round_not_below (q : positive) (e : Z) (m' : positive) (e' : Z) :
  SFltb (binary_round prec emax false q e) (S754_finite true m' e') = false.
Proof.
  unfold binary_round.
  destruct (shl_align q e (fexp prec emax (Z.pos (digits2_pos q) + e))) as [mz ez].
  unfold binary_round_aux.
  destruct (shr_fexp prec emax (Z.pos mz) ez loc_Exact) as [mrs1 e1].
  destruct (shr_fexp prec emax _ e1 loc_Exact) as [mrs2 e2].
  destruct (shr_m mrs2); try reflexivity.
  destruct (e2 <=? emax - prec); reflexivity.
Qed.

(** Above 270, subtracting 360 never gives a value below -90: the two
    adjustments of the normalisation exclude each other. *)
Lemma sub_360_not_below (x : spec_float) :
  valid_binary x = true ->
  SFltb (S754_finite false 4749890231992320 (-44)) x = true ->
  SFltb (SFsub prec emax x (S754_finite false 6333186975989760 (-44)))
        (S754_finite true 6333186975989760 (-46)) = false.
Proof.
  intros Hv H270.
  destruct x as [s|s| |s m e]; try (destruct s); try discriminate; try reflexivity.
  unfold SFltb in H270. rewrite SFcompare_pos in H270.
  destruct (Z.compare_spec (-44) e) as [He|He|He]; try discriminate.
  - (* the binade of 270 and 360 *)
    subst e. destruct (Pos.compare_spec 4749890231992320 m) as [|Hm|]; try discriminate.
    apply Pos2Z.pos_lt_pos in Hm.
    destruct (Z.lt_ge_cases (Z.pos m) 6333186975989760) as [Hlt|Hge].
    + apply (sub_360_range m). lia.
    + unfold SFsub. change (Z.min (-44) (-44)) with (-44).
      unfold shl_align. change (-44 - -44) with 0. cbn [fst cond_Zopp].
      destruct (Z.pos m - 6333186975989760) as [|q|q] eqn:HM; try lia.
      * reflexivity.
      * apply binary_round_not_below.
  - (* a higher binade *)
    assert (Hd : Z.pos (digits2_pos m) = 53).
    { cbn [valid_binary] in Hv. unfold bounded, canonical_mantissa in Hv.
      apply andb_prop in Hv as [Hc _]. apply Z.eqb_eq in Hc.
      unfold fexp, emin, emax, prec in Hc. lia. }
    pose proof (digits2_pos_bounds m) as [Hlo _]. rewrite Hd in Hlo.
    change (2 ^ (53 - 1)) with 4503599627370496 in Hlo.
    unfold SFsub. replace (Z.min e (-44)) with (-44) by lia.
    unfold shl_align. change (-44 - -44) with 0.
    destruct (-44 - e) as [|k|k] eqn:Hk; try lia.
    cbn [fst cond_Zopp].
    assert (Hbig : 2 * Z.pos m <= Z.pos (Pos.iter xO m k)).
    { rewrite Zpos_iter_xO.
      assert (2 ^ 1 <= 2 ^ Z.pos k) by (apply Z.pow_le_mono_r; lia).
      change (2 ^ 1) with 2 in *. nia. }
    destruct (Z.pos (Pos.iter xO m k) - 6333186975989760) as [|q|q] eqn:HM; try lia.
    apply binary_round_not_below.
Qed.

Lemma normalize_exclusive (d : float) :
  NormalizePhaseAngleDifference d
  = (if C.gt d 270 then d - 360
     else if C.lt d (-90) then d + 360 else d)%float.
Proof.
  unfold NormalizePhaseAngleDifference, C.gt, C.lt. cbv zeta.
  destruct (270 <? d)%float eqn:H270; [|reflexivity].
  rewrite ltb_spec in H270.
  change (Prim2SF 270) with (S754_finite false 4749890231992320 (-44)) in H270.
  rewrite ltb_spec, sub_spec.
  change (Prim2SF 360) with (S754_finite false 6333186975989760 (-44)).
  change (Prim2SF (-90)) with (S754_finite true 6333186975989760 (-46)).
  unfold SF64sub.
  rewrite (sub_360_not_below (Prim2SF d) (Prim2SF_valid d) H270). reflexivity.
Qed.

(** Between -360 and 360 the result stays between -90 and 270. *)
Lemma normalize_range (d : float) :
  C.gt d (-360) = true -> C.lt d 360 = true ->
  C.ge (NormalizePhaseAngleDifference d) (-90) = true
  /\ C.ge 270 (NormalizePhaseAngleDifference d) = true.
Proof.
  unfold NormalizePhaseAngleDifference, C.gt, C.lt, C.ge. cbv zeta.
  rewrite !ltb_spec.
  change (Prim2SF (-360)) with (S754_finite true 6333186975989760 (-44)).
  change (Prim2SF 360) with (S754_finite false 6333186975989760 (-44)).
  change (Prim2SF 270) with (S754_finite false 4749890231992320 (-44)).
  change (Prim2SF (-90)) with (S754_finite true 6333186975989760 (-46)).
  intros Hlo Hhi.
  destruct (SFltb (S754_finite false 4749890231992320 (-44)) (Prim2SF d)) eqn:H270.
  - (* above 270: 360 is subtracted, and nothing is added back *)
    destruct (between_270_360 _ H270 Hhi) as (m & Hx & Hm).
    destruct (sub_360_range m Hm) as (Hnot & Hge & Hle).
    rewrite sub_spec, Hx.
    change (Prim2SF 360) with (S754_finite false 6333186975989760 (-44)).
    unfold SF64sub. rewrite Hnot.
    rewrite !leb_spec, sub_spec, Hx.
    change (Prim2SF 360) with (S754_finite false 6333186975989760 (-44)).
    change (Prim2SF 270) with (S754_finite false 4749890231992320 (-44)).
    change (Prim2SF (-90)) with (S754_finite true 6333186975989760 (-46)).
    unfold SF64sub. auto.
  - destruct (SFltb (Prim2SF d) (S754_finite true 6333186975989760 (-46))) eqn:H90.
    + (* below -90: 360 is added *)
      destruct (between_m360_m90 _ Hlo H90) as (m & e & Hx & Hcase).
      assert (Hd : Z.pos (digits2_pos m) = 53).
      { destruct (valid_finite_canonical d true m e Hx) as [Hcan _]. lia. }
      destruct (add_360_range m e Hd Hcase) as (Hge & Hle).
      rewrite !leb_spec, add_spec, Hx.
      change (Prim2SF 360) with (S754_finite false 6333186975989760 (-44)).
      change (Prim2SF 270) with (S754_finite false 4749890231992320 (-44)).
      change (Prim2SF (-90)) with (S754_finite true 6333186975989760 (-46)).
      unfold SF64add. auto.
    + (* between -90 and 270: unchanged *)
      assert (Hnan : Prim2SF d <> S754_nan).
      { intros Hx. rewrite Hx in Hhi. discriminate. }
      rewrite !leb_spec.
      change (Prim2SF 270) with (S754_finite false 4749890231992320 (-44)).
      change (Prim2SF (-90)) with (S754_finite true 6333186975989760 (-46)).
      split; apply SFltb_false_leb; try assumption; discriminate.
Qed.

(** C5 (as amended): [NormalizePhaseAngleDifference] applies the
    two-threshold rule (above 270 subtract 360, then below -90 add 360); the
    two adjustments exclude each other, so the result is [d - 360],
    [d + 360] or [d]; the nine sample differences map as listed; and for
    every [d] strictly between -360 and 360 the result lies in the closed
    interval from -90 to 270, rounding included. *)
Theorem normalize_two_threshold :
  (forall d : float,
     NormalizePhaseAngleDifference d
     = (let d1 := if C.gt d 270 then d - 360 else d in
        if C.lt d1 (-90) then d1 + 360 else d1)%float)
  /\ (forall d : float,
        NormalizePhaseAngleDifference d
        = (if C.gt d 270 then d - 360
           else if C.lt d (-90) then d + 360 else d)%float)
  /\ NormalizePhaseAngleDifference
       <$> [-200; -91; -90; 0; 90; 269; 270; 271; 300]%float
     = [160; 269; -90; 0; 90; 269; 270; -89; -60]%float
  /\ forall d : float,
       C.gt d (-360) = true -> C.lt d 360 = true ->
       C.ge (NormalizePhaseAngleDifference d) (-90) = true
       /\ C.ge 270 (NormalizePhaseAngleDifference d) = true.
Proof.
  split; [reflexivity|]. split; [exact normalize_exclusive|].
  split; [vm_compute; reflexivity|].
  exact normalize_range.
Qed.

Lemma normalize_two_threshold_witness :
  C.ge (NormalizePhaseAngleDifference (-91)) (-90) = true
  /\ C.ge 270 (NormalizePhaseAngleDifference (-91)) = true.
Proof.
  apply (proj2 (proj2 (proj2 normalize_two_threshold)) (-91)%float); reflexivity.
Defined.

(** C5 fails as stated at its lower end: -90 is strictly between -360 and
    360, it is not below -90, so it is returned as it is, and the result is
    not above -90. *)
Lemma normalize_minus_90 :
  C.gt (-90) (-360) = true /\ C.lt (-90) 360 = true
  /\ NormalizePhaseAngleDifference (-90) = (-90)%float
  /\ C.gt (NormalizePhaseAngleDifference (-90)) (-90) = false.
Proof. repeat split. Qed.

(** * Around the analysis: copies, logs, counters and edge cases *)

(** ** [StoreData] *)

Lemma for_loop_fails {S : Type} (body : Z -> S -> option S) (k l : nat)
    (i : Z) (s : S) :
  (k <= l)%nat -> for_loop k i body s = None -> for_loop l i body s = None.
Proof.
  intros Hkl. revert i s l Hkl.
  induction k as [|k IH]; intros i s l Hkl H; [discriminate|].
  destruct l as [|l]; [lia|].
  cbn [for_loop] in *.
  destruct (body i s) as [s'|]; cbn in *; [|reflexivity].
  apply IH; [lia|exact H].
Qed.

Lemma StoreData_prefix (data output : list float) (k : nat) :
  (k <= length data)%nat -> (k <= length output)%nat ->
  for_loop k 0 (StoreData_body data) output
  = Some (take k data ++ drop k output).
Proof.
  induction k as [|k IH]; intros Hd Ho.
  - reflexivity.
  - rewrite for_loop_end, IH by lia. cbn [mbind option_bind].
    rewrite Z.add_0_l. unfold StoreData_body.
    destruct (lookup_lt_is_Some_2 data k ltac:(lia)) as [x Hx].
    rewrite load_nat, Hx. cbn [mbind option_bind].
    rewrite store_nat by (rewrite length_app, length_take, length_drop; lia).
    f_equal.
    rewrite (take_S_r _ _ _ Hx).
    assert (Hlen : length (take k data) = k) by (rewrite length_take; lia).
    rewrite <- (Nat.add_0_r k) at 1. rewrite <- Hlen at 1.
    rewrite insert_app_r.
    destruct (lookup_lt_is_Some_2 output k ltac:(lia)) as [y Hy].
    rewrite (drop_S _ _ _ Hy). cbn. rewrite <- app_assoc. reflexivity.
Qed.

(** X1: [StoreData] returns with the first [arraySize] elements of
    [output] equal to those of [dataToAllocate] and the rest of [output]
    untouched, whenever neither array is shorter than [arraySize] (nothing
    is written when [arraySize] is not positive); when one of them is
    shorter, the loop reads or writes past its end and the behaviour is
    undefined. *)
Theorem StoreData_copies (arraySize : Z) (dataToAllocate output : list float) :
  StoreData arraySize dataToAllocate output
  = if (arraySize <=? Z.of_nat (length dataToAllocate))
       && (arraySize <=? Z.of_nat (length output))
    then Some (take (Z.to_nat arraySize) dataToAllocate
               ++ drop (Z.to_nat arraySize) output)
    else None.
Proof.
  unfold StoreData, for_lt.
  destruct (arraySize <=? Z.of_nat (length dataToAllocate)) eqn:Hd;
    [destruct (arraySize <=? Z.of_nat (length output)) eqn:Ho|]; cbn [andb].
  - apply Z.leb_le in Hd, Ho. apply StoreData_prefix; lia.
  - apply Z.leb_le in Hd. apply Z.leb_gt in Ho.
    apply (for_loop_fails _ (S (length output))); [lia|].
    rewrite for_loop_end, StoreData_prefix by lia.
    cbn [mbind option_bind]. rewrite Z.add_0_l. unfold StoreData_body.
    destruct (load dataToAllocate (Z.of_nat (length output))) as [x|];
      [|reflexivity].
    cbn [mbind option_bind]. unfold store.
    rewrite length_app, length_take, length_drop.
    destruct (_ && _) eqn:Hc; [|reflexivity].
    apply andb_true_iff in Hc as [_ Hc]. apply Z.ltb_lt in Hc. lia.
  - apply Z.leb_gt in Hd.
    set (k := Nat.min (length dataToAllocate) (length output)).
    apply (for_loop_fails _ (S k)); [lia|].
    rewrite for_loop_end, StoreData_prefix by lia.
    cbn [mbind option_bind]. rewrite Z.add_0_l. unfold StoreData_body.
    rewrite load_nat.
    destruct (dataToAllocate !! k) as [x|] eqn:Hx; [|reflexivity].
    cbn [mbind option_bind]. unfold store.
    apply lookup_lt_Some in Hx.
    rewrite length_app, length_take, length_drop.
    destruct (_ && _) eqn:Hc; [|reflexivity].
    apply andb_true_iff in Hc as [_ Hc]. apply Z.ltb_lt in Hc. subst k. lia.
Qed.

(** ** The sample totals printed by [EveryNCallback] *)

Lemma add_read_positive (total read : Z) :
  0 < read -> C.INT_MIN <= total ->
  add_read total read
  = if total + read <=? C.INT_MAX then Some (total + read) else None.
Proof.
  intros Hr Ht. unfold add_read, C.int_add, C.in_int.
  destruct (0 <? read) eqn:E; [|lia].
  destruct (total + read <=? C.INT_MAX) eqn:E1;
    destruct (C.INT_MIN <=? total + read) eqn:E2; cbn; try reflexivity.
  unfold C.INT_MIN, C.INT_MAX in *. lia.
Qed.

Lemma chnlexp_count_reads (N : Z) (r : read_result) (a b : Z) :
  0 < N <= C.INT_MAX -> 0 <= a -> 0 <= b ->
  ChnlExpSync.count_reads N r (a, b)
  = if read_ok r
    then if (a + N <=? C.INT_MAX) && (b + N <=? C.INT_MAX)
         then Some (a + N, b + N) else None
    else Some (a, b).
Proof.
  intros HN Ha Hb. unfold ChnlExpSync.count_reads, read_ok.
  destruct (DAQmxFailed (read_error r)); [reflexivity|]. cbn [negb].
  rewrite int_of_longlong_id by (unfold C.INT_MIN, C.INT_MAX in *; lia).
  destruct (N =? 0) eqn:E0; [lia|]. cbn [mbind option_bind fst snd].
  rewrite !add_read_positive by (unfold C.INT_MIN; lia).
  destruct (a + N <=? C.INT_MAX); [|reflexivity].
  destruct (b + N <=? C.INT_MAX); reflexivity.
Qed.

Lemma chnlexp_callbacks (N : Z) (reads : list read_result) :
  0 < N <= C.INT_MAX ->
  forall a b, 0 <= a <= C.INT_MAX -> 0 <= b <= C.INT_MAX ->
  let calls := Z.of_nat (length (List.filter read_ok reads)) in
  callbacks (ChnlExpSync.count_reads N) reads (a, b)
  = if (a + calls * N <=? C.INT_MAX) && (b + calls * N <=? C.INT_MAX)
    then Some (a + calls * N, b + calls * N)
    else None.
Proof.
  intros HN. induction reads as [|r rs IH]; intros a b Ha Hb calls; subst calls.
  - cbn [callbacks List.filter length]. rewrite !Z.mul_0_l, !Z.add_0_r.
    destruct (a <=? C.INT_MAX) eqn:Ea; [|lia].
    destruct (b <=? C.INT_MAX) eqn:Eb; [|lia]. reflexivity.
  - cbn [callbacks List.filter]. rewrite chnlexp_count_reads by lia.
    destruct (read_ok r); cbn [mbind option_bind]; [|apply IH; assumption].
    cbn [length].
    assert (Hk : 0 <= Z.of_nat (length (List.filter read_ok rs)) * N) by nia.
    destruct (a + N <=? C.INT_MAX) eqn:Ea; cbn [andb mbind option_bind].
    + destruct (b + N <=? C.INT_MAX) eqn:Eb; cbn [mbind option_bind].
      * rewrite IH by lia. cbv zeta.
        replace (a + N + Z.of_nat (length (List.filter read_ok rs)) * N)
          with (a + Z.of_nat (S (length (List.filter read_ok rs))) * N) by lia.
        replace (b + N + Z.of_nat (length (List.filter read_ok rs)) * N)
          with (b + Z.of_nat (S (length (List.filter read_ok rs))) * N) by lia.
        reflexivity.
      * replace (_ && _) with false; [reflexivity|].
        symmetry. apply andb_false_iff. right. apply Z.leb_gt.
        apply Z.leb_gt in Eb. lia.
    + replace (_ && _) with false; [reflexivity|].
      symmetry. apply andb_false_iff. left. apply Z.leb_gt.
      apply Z.leb_gt in Ea. lia.
Qed.

(** X2: in ChnlExpSync.c the test [if (samplesReadPerChan = sampsPerChan)]
    overwrites the count that [DAQmxReadAnalogF64] stored, and a callback
    whose read failed jumps past the totals.  So, for a [sampsPerChan]
    that fits an [int], both totals printed are [calls * sampsPerChan],
    where [calls] is the number of callbacks so far whose read did not
    fail, whatever counts the reads stored, as long as that product fits
    an [int]; once it does not, the addition overflows. *)
Theorem chnlexp_totals_ignore_reads (sampsPerChan : Z)
    (reads : list read_result) :
  0 < sampsPerChan <= C.INT_MAX ->
  let calls := Z.of_nat (length (List.filter read_ok reads)) in
  callbacks (ChnlExpSync.count_reads sampsPerChan) reads (0, 0)
  = if calls * sampsPerChan <=? C.INT_MAX
    then Some (calls * sampsPerChan, calls * sampsPerChan)
    else None.
Proof.
  intros HN calls.
  rewrite chnlexp_callbacks by (unfold C.INT_MAX in *; lia). subst calls.
  cbv zeta. rewrite !Z.add_0_l, andb_diag. reflexivity.
Qed.

(** Four callbacks: the second read fails, the other three store the
    counts 1000, 0 and 37. *)
Lemma chnlexp_totals_ignore_reads_witness :
  callbacks (ChnlExpSync.count_reads 1000)
    [mk_read 0 1000; mk_read (-200284) 1000; mk_read 0 0; mk_read 0 37]
    (0, 0)
  = Some (3000, 3000).
Proof.
  apply (chnlexp_totals_ignore_reads 1000
           [mk_read 0 1000; mk_read (-200284) 1000; mk_read 0 0;
            mk_read 0 37]).
  unfold C.INT_MAX. lia.
Defined.

Lemma add_read_max (total read : Z) :
  C.INT_MIN <= total -> total + Z.max 0 read <= C.INT_MAX ->
  add_read total read = Some (total + Z.max 0 read).
Proof.
  intros Ht H. unfold add_read.
  destruct (0 <? read) eqn:E.
  - apply Z.ltb_lt in E.
    rewrite int_add_Some by (unfold C.INT_MIN in *; lia). f_equal. lia.
  - apply Z.ltb_ge in E. f_equal. lia.
Qed.

Lemma positive_total_nonneg (reads : list Z) : 0 <= positive_total reads.
Proof.
  induction reads as [|r rs IH]; [reflexivity|].
  change (positive_total (r :: rs)) with (Z.max 0 r + positive_total rs). lia.
Qed.

Lemma refclk_count_reads (r : read_result * read_result) (a b : Z) :
  0 <= a -> 0 <= b ->
  a + Z.max 0 (read_count (fst r)) <= C.INT_MAX ->
  b + Z.max 0 (read_count (snd r)) <= C.INT_MAX ->
  RefClkSync.count_reads r (a, b)
  = if reads_ok r
    then Some (a + Z.max 0 (read_count (fst r)),
               b + Z.max 0 (read_count (snd r)))
    else Some (a, b).
Proof.
  intros Ha Hb Hsa Hsb. unfold RefClkSync.count_reads, reads_ok, read_ok.
  destruct (DAQmxFailed (read_error (fst r))); [reflexivity|].
  destruct (DAQmxFailed (read_error (snd r))); [reflexivity|].
  cbn [negb andb fst snd].
  rewrite !add_read_max by (unfold C.INT_MIN; lia). reflexivity.
Qed.

Lemma counted_cons (r : read_result * read_result)
    (rs : list (read_result * read_result)) :
  counted (r :: rs)
  = if reads_ok r
    then (read_count (fst r), read_count (snd r)) :: counted rs
    else counted rs.
Proof. unfold counted. cbn [List.filter]. destruct (reads_ok r); reflexivity. Qed.

Lemma refclk_callbacks (reads : list (read_result * read_result)) :
  forall a b, 0 <= a -> 0 <= b ->
  a + positive_total (fst <$> counted reads) <= C.INT_MAX ->
  b + positive_total (snd <$> counted reads) <= C.INT_MAX ->
  callbacks RefClkSync.count_reads reads (a, b)
  = Some (a + positive_total (fst <$> counted reads),
          b + positive_total (snd <$> counted reads)).
Proof.
  induction reads as [|r rs IH]; intros a b Ha Hb Hsa Hsb.
  - cbn. rewrite !Z.add_0_r. reflexivity.
  - rewrite counted_cons in *. cbn [callbacks].
    pose proof (positive_total_nonneg (fst <$> counted rs)).
    pose proof (positive_total_nonneg (snd <$> counted rs)).
    destruct (reads_ok r) eqn:Hok.
    + rewrite !fmap_cons in *. cbn [fst snd] in *.
      change (positive_total (?d :: ?l))
        with (Z.max 0 d + positive_total l) in *.
      rewrite refclk_count_reads, Hok by lia.
      cbn [mbind option_bind]. rewrite IH by lia. f_equal. f_equal; lia.
    + assert (Hstep : RefClkSync.count_reads r (a, b) = Some (a, b)).
      { unfold RefClkSync.count_reads. unfold reads_ok, read_ok in Hok.
        destruct (DAQmxFailed (read_error (fst r))); [reflexivity|].
        destruct (DAQmxFailed (read_error (snd r))); [reflexivity|].
        discriminate. }
      rewrite Hstep. cbn [mbind option_bind]. apply IH; assumption.
Qed.

(** X3: in RefClkSync.c and in Sync_4499_6259.c each total printed is the
    sum of the positive counts read so far for that device, over the
    callbacks in which neither read failed: a callback with a failed read
    jumps past both totals, and a count that is zero or negative leaves
    the total as it is.  Stated for totals that fit an [int]. *)
Theorem totals_sum_positive_reads (reads : list (read_result * read_result)) :
  positive_total (fst <$> counted reads) <= C.INT_MAX ->
  positive_total (snd <$> counted reads) <= C.INT_MAX ->
  callbacks RefClkSync.count_reads reads (0, 0)
  = Some (positive_total (fst <$> counted reads),
          positive_total (snd <$> counted reads))
  /\ callbacks ContinuousAI.count_reads reads (0, 0)
     = Some (positive_total (fst <$> counted reads),
             positive_total (snd <$> counted reads)).
Proof.
  intros Ha Hb.
  assert (H := refclk_callbacks reads 0 0 ltac:(lia) ltac:(lia)
                 ltac:(lia) ltac:(lia)).
  rewrite !Z.add_0_l in H. split; exact H.
Qed.

(** Four callbacks: in the second the MIO read fails after a DSA read of
    1000 samples, in the third the DSA read fails; neither adds anything. *)
Lemma totals_sum_positive_reads_witness :
  let reads :=
    [(mk_read 0 1000, mk_read 0 1000);
     (mk_read 0 1000, mk_read (-200284) 0);
     (mk_read (-200279) 0, mk_read 0 1000);
     (mk_read 0 250, mk_read 0 0)] in
  callbacks RefClkSync.count_reads reads (0, 0) = Some (1250, 1000)
  /\ callbacks ContinuousAI.count_reads reads (0, 0) = Some (1250, 1000).
Proof.
  apply (totals_sum_positive_reads
           [(mk_read 0 1000, mk_read 0 1000);
            (mk_read 0 1000, mk_read (-200284) 0);
            (mk_read (-200279) 0, mk_read 0 1000);
            (mk_read 0 250, mk_read 0 0)]);
    vm_compute; discriminate.
Defined.

(** ** The voltage data file *)

Lemma store_Z {A : Type} (a : list A) (i : Z) (v : A) :
  0 <= i < Z.of_nat (length a) -> store a i v = Some (<[Z.to_nat i := v]> a).
Proof.
  intros H. unfold store.
  destruct (0 <=? i) eqn:E1; [|lia]. destruct (i <? _) eqn:E2; [|lia].
  reflexivity.
Qed.

Lemma time_of_eq (rate : float) (i : Z) :
  time_of rate i = (C.double_of_int i * (1 / rate))%float.
Proof. reflexivity. Qed.

Lemma voltage_log_prefix (rate : float) (dsaData mioData timeData : list float)
    (N : nat) :
  length dsaData = N -> length mioData = N -> length timeData = N ->
  Z.of_nat N <= C.INT_MAX ->
  forall k, (k <= N)%nat ->
  exists st,
    for_loop k 0 (log_body rate dsaData mioData) (mk_log timeData []) = Some st
    /\ length (log_timeData st) = N
    /\ length (log_file st) = k
    /\ forall i d m, (i < k)%nat ->
         dsaData !! i = Some d -> mioData !! i = Some m ->
         log_file st !! i = Some (mk_voltage (time_of rate (Z.of_nat i)) d m).
Proof.
  intros Hd Hm Ht HN. induction k as [|k IH]; intros Hk.
  - eexists. split; [reflexivity|]. cbn [log_timeData log_file length].
    split; [assumption|]. split; [reflexivity|]. intros; lia.
  - destruct (IH ltac:(lia)) as (st & Hst & Hlt & Hlf & Hrows).
    rewrite for_loop_end, Hst. cbn [mbind option_bind]. rewrite Z.add_0_l.
    unfold log_body.
    rewrite store_nat by lia. cbn [mbind option_bind].
    destruct (lookup_lt_is_Some_2 dsaData k ltac:(lia)) as [d Hdk].
    destruct (lookup_lt_is_Some_2 mioData k ltac:(lia)) as [m Hmk].
    rewrite !load_nat, list_lookup_insert_eq, Hdk, Hmk by lia.
    cbn [mbind option_bind].
    rewrite int_add_Some by (unfold C.INT_MIN; lia). cbn [mbind option_bind].
    eexists. split; [reflexivity|]. cbn [log_timeData log_file].
    rewrite length_insert, length_app, Hlf. cbn [length].
    repeat split; [assumption|lia|].
    intros i d' m' Hi Hd' Hm'.
    destruct (decide (i = k)) as [->|Hne].
    + rewrite lookup_app_r, Hlf, Nat.sub_diag by lia.
      rewrite Hdk in Hd'. rewrite Hmk in Hm'.
      injection Hd' as <-. injection Hm' as <-. reflexivity.
    + rewrite lookup_app_l by lia. apply Hrows; [lia|assumption..].
Qed.

(** X4: the voltage loop of ChnlExpSync.c and RefClkSync.c writes one
    line for each of the [sampsPerChan] samples, and line [i] holds
    [i * (1 / sampleRate)], [dsaData[i]] and [mioData[i]]: the time column
    restarts at [0 * (1 / sampleRate)] in every callback, and what
    [timeData] held before the loop plays no part. *)
Theorem voltage_log_lines (sampsPerChan : Z) (sampleRate : float)
    (dsaData mioData timeData : list float) :
  0 <= sampsPerChan <= C.INT_MAX ->
  Z.of_nat (length dsaData) = sampsPerChan ->
  Z.of_nat (length mioData) = sampsPerChan ->
  Z.of_nat (length timeData) = sampsPerChan ->
  exists rows,
    voltage_log sampsPerChan sampleRate dsaData mioData timeData = Some rows
    /\ Z.of_nat (length rows) = sampsPerChan
    /\ forall i d m,
         dsaData !! i = Some d -> mioData !! i = Some m ->
         rows !! i = Some (mk_voltage (time_of sampleRate (Z.of_nat i)) d m).
Proof.
  intros HN Hd Hm Ht.
  destruct (voltage_log_prefix sampleRate dsaData mioData timeData
              (Z.to_nat sampsPerChan) ltac:(lia) ltac:(lia) ltac:(lia)
              ltac:(lia) (Z.to_nat sampsPerChan) ltac:(lia))
    as (st & Hst & _ & Hlf & Hrows).
  unfold voltage_log, for_lt. rewrite Hst. cbn [mbind option_bind].
  eexists. split; [reflexivity|]. split; [lia|].
  intros i d m Hdi Hmi. apply Hrows; [|assumption..].
  apply lookup_lt_Some in Hdi. lia.
Qed.

Lemma voltage_log_lines_witness :
  exists rows,
    voltage_log 2 4 [1.5; 2.5]%float [3; 4]%float [9; 9]%float = Some rows
    /\ Z.of_nat (length rows) = 2
    /\ forall i d m,
         [1.5; 2.5]%float !! i = Some d -> [3; 4]%float !! i = Some m ->
         rows !! i = Some (mk_voltage (time_of 4 (Z.of_nat i)) d m).
Proof.
  apply (voltage_log_lines 2 4 [1.5; 2.5]%float [3; 4]%float [9; 9]%float);
    [unfold C.INT_MAX; lia|reflexivity..].
Defined.

(** X5: in ChnlExpSync.c the split loop followed by the voltage loop
    writes, as line [i] of the voltage file, the time
    [i * (1 / sampleRate)] and the two samples [totalData[2 i]] and
    [totalData[2 i + 1]] of the buffer read. *)
Theorem voltage_file_lines (sampsPerChan : Z) (sampleRate : float)
    (totalData dsaData mioData timeData : list float) :
  0 <= sampsPerChan -> 2 * sampsPerChan <= C.INT_MAX ->
  Z.of_nat (length totalData) = 2 * sampsPerChan ->
  Z.of_nat (length dsaData) = sampsPerChan ->
  Z.of_nat (length mioData) = sampsPerChan ->
  Z.of_nat (length timeData) = sampsPerChan ->
  exists rows,
    ChnlExpSync.voltage_file sampsPerChan sampleRate
      totalData dsaData mioData timeData = Some rows
    /\ Z.of_nat (length rows) = sampsPerChan
    /\ forall i x y,
         totalData !! (2 * i)%nat = Some x ->
         totalData !! (2 * i + 1)%nat = Some y ->
         rows !! i = Some (mk_voltage (time_of sampleRate (Z.of_nat i)) x y).
Proof.
  intros H0 HN Htot Hd Hm Ht.
  destruct (split_loop_inv totalData dsaData mioData (Z.to_nat sampsPerChan)
              ltac:(lia) ltac:(lia) ltac:(lia) ltac:(lia)
              (Z.to_nat sampsPerChan) ltac:(lia))
    as (st & Hst & _ & HlA & HlB & Hsplit).
  unfold ChnlExpSync.voltage_file, ChnlExpSync.split_data, for_lt.
  rewrite Hst. cbn [mbind option_bind fst snd].
  destruct (voltage_log_prefix sampleRate
              (ChnlExpSync.split_dsaData st) (ChnlExpSync.split_mioData st)
              timeData (Z.to_nat sampsPerChan) HlA HlB ltac:(lia) ltac:(lia)
              (Z.to_nat sampsPerChan) ltac:(lia))
    as (lg & Hlg & _ & Hlen & Hlines).
  unfold voltage_log, for_lt. rewrite Hlg. cbn [mbind option_bind].
  eexists. split; [reflexivity|]. split; [lia|].
  intros i x y Hx Hy.
  assert (Hi : (i < Z.to_nat sampsPerChan)%nat)
    by (apply lookup_lt_Some in Hy; lia).
  destruct (Hsplit i Hi) as [Ha Hb].
  apply Hlines; [exact Hi|congruence..].
Qed.

Lemma voltage_file_lines_witness :
  exists rows,
    ChnlExpSync.voltage_file 2 4 [1; 10; 2; 20]%float [0; 0]%float
      [0; 0]%float [9; 9]%float = Some rows
    /\ Z.of_nat (length rows) = 2
    /\ forall i x y,
         [1; 10; 2; 20]%float !! (2 * i)%nat = Some x ->
         [1; 10; 2; 20]%float !! (2 * i + 1)%nat = Some y ->
         rows !! i = Some (mk_voltage (time_of 4 (Z.of_nat i)) x y).
Proof.
  apply (voltage_file_lines 2 4 [1; 10; 2; 20]%float [0; 0]%float
           [0; 0]%float [9; 9]%float);
    [lia|unfold C.INT_MAX; lia|reflexivity..].
Defined.

(** ** Sync_4499_6259.c: the lines appended to the data file *)

Lemma time_array_prefix (rate : float) (timeData : list float) (N : nat) :
  length timeData = N -> Z.of_nat N <= C.INT_MAX ->
  forall k, (k < N)%nat ->
  exists td,
    for_loop k 1 (ContinuousAI.time_body rate) timeData = Some td
    /\ length td = N
    /\ td !! 0%nat = timeData !! 0%nat
    /\ (forall i, (1 <= i <= k)%nat ->
          td !! i = Some (time_of rate (Z.of_nat i)))
    /\ (forall i, (k < i)%nat -> td !! i = timeData !! i).
Proof.
  intros Ht HN. induction k as [|k IH]; intros Hk.
  - exists timeData. split; [reflexivity|]. split; [assumption|].
    split; [reflexivity|]. split; [intros; lia|reflexivity].
  - destruct (IH ltac:(lia)) as (td & Htd & Hl & H0 & Hin & Hout).
    rewrite for_loop_end, Htd. cbn [mbind option_bind].
    unfold ContinuousAI.time_body.
    rewrite store_Z by lia. cbn [mbind option_bind].
    rewrite int_add_Some by (unfold C.INT_MIN; lia). cbn [mbind option_bind].
    replace (Z.to_nat (1 + Z.of_nat k)) with (S k) by lia.
    eexists. split; [reflexivity|].
    rewrite length_insert. split; [assumption|].
    split; [rewrite list_lookup_insert_ne by lia; exact H0|].
    split.
    + intros i Hi. destruct (decide (i = S k)) as [->|Hne].
      * rewrite list_lookup_insert_eq by lia.
        rewrite <- time_of_eq. do 2 f_equal. lia.
      * rewrite list_lookup_insert_ne by lia. apply Hin. lia.
    + intros i Hi. rewrite list_lookup_insert_ne by lia. apply Hout. lia.
Qed.

Lemma write_prefix (td masterData slaveData : list float) (N : nat) :
  length td = N -> length masterData = N -> length slaveData = N ->
  Z.of_nat N <= C.INT_MAX ->
  forall k, (k <= N)%nat ->
  exists rows,
    for_loop k 0 (ContinuousAI.write_body td masterData slaveData) []
    = Some rows
    /\ length rows = k
    /\ forall i t m s, (i < k)%nat ->
         td !! i = Some t -> masterData !! i = Some m ->
         slaveData !! i = Some s ->
         rows !! i = Some (mk_voltage t m s).
Proof.
  intros Ht Hm Hs HN. induction k as [|k IH]; intros Hk.
  - exists []. split; [reflexivity|]. split; [reflexivity|]. intros; lia.
  - destruct (IH ltac:(lia)) as (rows & Hrows & Hlen & Hlines).
    rewrite for_loop_end, Hrows. cbn [mbind option_bind]. rewrite Z.add_0_l.
    unfold ContinuousAI.write_body.
    destruct (lookup_lt_is_Some_2 td k ltac:(lia)) as [t Htk].
    destruct (lookup_lt_is_Some_2 masterData k ltac:(lia)) as [m Hmk].
    destruct (lookup_lt_is_Some_2 slaveData k ltac:(lia)) as [s Hsk].
    rewrite !load_nat, Htk, Hmk, Hsk. cbn [mbind option_bind].
    rewrite int_add_Some by (unfold C.INT_MIN; lia). cbn [mbind option_bind].
    eexists. split; [reflexivity|].
    rewrite length_app, Hlen. cbn [length]. split; [lia|].
    intros i t' m' s' Hi Ht' Hm' Hs'.
    destruct (decide (i = k)) as [->|Hne].
    + rewrite lookup_app_r, Hlen, Nat.sub_diag by lia. cbn. congruence.
    + rewrite lookup_app_l by lia. apply Hlines; [lia|assumption..].
Qed.

(** X6: in Sync_4499_6259.c the loop that fills [timeData] starts at
    [i = 1], and the loop that writes the file starts at [i = 0].  So the
    time written on the first line of every callback is whatever
    [timeData[0]] held on entry, an indeterminate value; every later line
    [i] holds [i * (1 / sampleRate)] and the two samples of index [i]. *)
Theorem sync_file_first_time_unset (sampsPerChan : Z) (sampleRate : float)
    (masterData slaveData timeData : list float) :
  0 < sampsPerChan <= C.INT_MAX ->
  Z.of_nat (length masterData) = sampsPerChan ->
  Z.of_nat (length slaveData) = sampsPerChan ->
  Z.of_nat (length timeData) = sampsPerChan ->
  exists rows,
    ContinuousAI.sync_file sampsPerChan sampleRate
      masterData slaveData timeData = Some rows
    /\ Z.of_nat (length rows) = sampsPerChan
    /\ (row_time <$> rows !! 0%nat) = timeData !! 0%nat
    /\ forall i m s, (1 <= i)%nat ->
         masterData !! i = Some m -> slaveData !! i = Some s ->
         rows !! i = Some (mk_voltage (time_of sampleRate (Z.of_nat i)) m s).
Proof.
  intros HN Hm Hs Ht.
  set (N := Z.to_nat sampsPerChan).
  destruct (time_array_prefix sampleRate timeData N ltac:(lia) ltac:(lia)
              (N - 1)%nat ltac:(lia))
    as (td & Htd & Hl & H0 & Hin & _).
  destruct (write_prefix td masterData slaveData N Hl ltac:(lia) ltac:(lia)
              ltac:(lia) N ltac:(lia))
    as (rows & Hrows & Hlen & Hlines).
  unfold ContinuousAI.sync_file, ContinuousAI.time_array, for_lt.
  replace (Z.to_nat (sampsPerChan - 1)) with (N - 1)%nat by lia.
  rewrite Htd. cbn [mbind option_bind]. fold N. rewrite Hrows.
  exists rows. split; [reflexivity|]. split; [lia|]. split.
  - destruct (lookup_lt_is_Some_2 td 0 ltac:(lia)) as [t Ht0].
    destruct (lookup_lt_is_Some_2 masterData 0 ltac:(lia)) as [m Hm0].
    destruct (lookup_lt_is_Some_2 slaveData 0 ltac:(lia)) as [s Hs0].
    rewrite (Hlines 0%nat t m s ltac:(lia) Ht0 Hm0 Hs0). cbn.
    rewrite <- H0, Ht0. reflexivity.
  - intros i m s Hi Hmi Hsi.
    assert (Hlt : (i < N)%nat) by (apply lookup_lt_Some in Hmi; lia).
    apply Hlines; [exact Hlt| |assumption..].
    apply Hin. lia.
Qed.

Lemma sync_file_first_time_unset_witness :
  exists rows,
    ContinuousAI.sync_file 3 1000 [1; 2; 3]%float [4; 5; 6]%float
      [77; 88; 99]%float = Some rows
    /\ Z.of_nat (length rows) = 3
    /\ (row_time <$> rows !! 0%nat) = Some 77%float
    /\ forall i m s, (1 <= i)%nat ->
         [1; 2; 3]%float !! i = Some m -> [4; 5; 6]%float !! i = Some s ->
         rows !! i = Some (mk_voltage (time_of 1000 (Z.of_nat i)) m s).
Proof.
  apply (sync_file_first_time_unset 3 1000 [1; 2; 3]%float [4; 5; 6]%float
           [77; 88; 99]%float);
    [unfold C.INT_MAX; lia|reflexivity..].
Defined.

(** ** ChnlExpSync.c: from the buffer read to the arrays handed to FFTW *)

Lemma StoreData_whole (data output : list float) (n : Z) :
  Z.of_nat (length data) = n -> Z.of_nat (length output) = n ->
  StoreData n data output = Some data.
Proof.
  intros Hd Ho. unfold StoreData, for_lt.
  rewrite StoreData_prefix by lia.
  rewrite take_ge, drop_ge, app_nil_r by lia. reflexivity.
Qed.

(** X7: in ChnlExpSync.c the two arrays FFTW transforms are a faithful
    copy of the buffer read: [EveryNCallback] splits [totalData],
    [DFT] copies each half with [StoreData], and interleaving the two
    FFTW inputs gives [totalData] back. *)
Theorem fft_inputs_interleave (sampsPerChan : Z)
    (totalData dsaData mioData dsaInput mioInput : list float) :
  0 <= sampsPerChan -> 2 * sampsPerChan <= C.INT_MAX ->
  Z.of_nat (length totalData) = 2 * sampsPerChan ->
  Z.of_nat (length dsaData) = sampsPerChan ->
  Z.of_nat (length mioData) = sampsPerChan ->
  Z.of_nat (length dsaInput) = sampsPerChan ->
  Z.of_nat (length mioInput) = sampsPerChan ->
  exists a b,
    ChnlExpSync.fft_inputs sampsPerChan totalData dsaData mioData
      dsaInput mioInput = Some (a, b)
    /\ interleave a b = totalData.
Proof.
  intros H0 HN Htot Hd Hm Hdi Hmi.
  destruct (split_loop_inv totalData dsaData mioData (Z.to_nat sampsPerChan)
              ltac:(lia) ltac:(lia) ltac:(lia) ltac:(lia)
              (Z.to_nat sampsPerChan) ltac:(lia))
    as (st & Hst & _ & HlA & HlB & Hsplit).
  unfold ChnlExpSync.fft_inputs, ChnlExpSync.split_data, for_lt.
  rewrite Hst. cbn [mbind option_bind fst snd].
  rewrite int_of_longlong_id by (unfold C.INT_MIN, C.INT_MAX in *; lia).
  rewrite !StoreData_whole by lia. cbn [mbind option_bind].
  eexists _, _. split; [reflexivity|].
  apply interleave_lookup; [lia|lia|].
  intros i Hi. apply Hsplit. lia.
Qed.

Lemma fft_inputs_interleave_witness :
  exists a b,
    ChnlExpSync.fft_inputs 2 [1; 10; 2; 20]%float [0; 0]%float [0; 0]%float
      [5; 5]%float [6; 6]%float = Some (a, b)
    /\ interleave a b = [1; 10; 2; 20]%float.
Proof.
  apply (fft_inputs_interleave 2 [1; 10; 2; 20]%float [0; 0]%float
           [0; 0]%float [5; 5]%float [6; 6]%float);
    [lia|unfold C.INT_MAX; lia|reflexivity..].
Defined.

(** ** ChnlExpSync.c: invariants of the scan *)

Lemma int_of_double_range (x : float) (t : Z) :
  C.int_of_double x = Some t ->
  (forall m e, Prim2SF x <> S754_finite true m e) ->
  0 <= t <= C.INT_MAX.
Proof.
  unfold C.int_of_double. intros H Hs.
  destruct (Prim2SF x) as [s|s| |s m e]; try discriminate.
  - injection H as <-. unfold C.INT_MAX. lia.
  - destruct s; [exfalso; exact (Hs m e eq_refl)|].
    cbv zeta in H.
    destruct (C.in_int _) eqn:Hin; [|discriminate]. injection H as <-.
    unfold C.in_int in Hin. apply andb_true_iff in Hin as [_ Hin].
    apply Z.leb_le in Hin. split; [|exact Hin].
    apply Z.shiftl_nonneg. lia.
Qed.

Lemma scan_prefix_loads (n : Z) (bp : float) (A B : list fftw_complex)
    (k : nat) (st : ChnlExpSync.scan_state) :
  ChnlExpSync.prefix n bp A B k = Some st ->
  forall i, (i < k)%nat -> is_Some (A !! i) /\ is_Some (B !! i).
Proof.
  revert st. induction k as [|k IH]; intros st H i Hi; [lia|].
  destruct (scan_prefix_lookup n bp A B k st H)
    as (st0 & dsa & mio & H0 & Ha & Hb & _).
  destruct (decide (i = k)) as [->|Hne].
  - split; eexists; eassumption.
  - apply (IH st0 H0). lia.
Qed.

Lemma scan_prefix_threshold_range (n : Z) (bp : float)
    (A B : list fftw_complex) (k : nat) (st : ChnlExpSync.scan_state) :
  ChnlExpSync.prefix n bp A B k = Some st ->
  0 <= ChnlExpSync.maxMagnitude st <= C.INT_MAX.
Proof.
  intros H. destruct (scan_prefix_inv n bp A B k st H) as (Hth & _).
  destruct Hth as [[_ ->]|(dsa & _ & Hm)]; [unfold C.INT_MAX; lia|].
  apply (int_of_double_range _ _ Hm). apply magnitude_not_negative.
Qed.

(** [(int) x >= T] as soon as [x >= (double) T], for [T] a non-negative
    [int]. *)
Lemma int_of_double_ge (x : float) (T t : Z) :
  0 <= T <= C.INT_MAX ->
  C.ge x (C.double_of_int T) = true ->
  C.int_of_double x = Some t ->
  T <= t.
Proof.
  intros HT Hge Ht. unfold C.ge in Hge. rewrite leb_spec in Hge.
  destruct T as [|p|p]; [| |lia].
  - change (Prim2SF (C.double_of_int 0)) with (S754_zero false) in Hge.
    unfold C.int_of_double in Ht.
    destruct (Prim2SF x) as [s|s| |s m e]; try discriminate.
    + injection Ht as <-. lia.
    + destruct s;
        [cbv beta iota delta [SFleb SFcompare] in Hge; discriminate|].
      cbv zeta in Ht.
      destruct (C.in_int _); [|discriminate]. injection Ht as <-.
      apply Z.shiftl_nonneg. lia.
  - assert (Hp : Z.pos p < 2 ^ 31) by (unfold C.INT_MAX in HT; lia).
    pose proof (digits2_pos_bounds p) as Hd.
    assert (Hd31 : Z.pos (digits2_pos p) <= 31)
      by (apply digits2_pos_le; lia).
    rewrite double_of_int_pos in Hge by lia.
    set (d := Z.pos (digits2_pos p)) in *.
    pose proof (valid_finite_canonical x) as Hcan.
    unfold C.int_of_double in Ht.
    destruct (Prim2SF x) as [s|s| |s m e]; try discriminate.
    destruct s;
      [cbv beta iota delta [SFleb SFcompare] in Hge; discriminate|].
    destruct (Hcan false m e eq_refl) as [He _].
    cbv zeta in Ht.
    destruct (C.in_int _); [|discriminate]. injection Ht as <-.
    unfold SFleb in Hge. rewrite SFcompare_pos in Hge.
    assert (Hpow : Z.pos (Pos.iter xO p (Z.to_pos (53 - d)))
                   = Z.pos p * 2 ^ (53 - d)).
    { rewrite Zpos_iter_xO. rewrite Z2Pos.id by lia. reflexivity. }
    pose proof (digits2_pos_bounds m) as Hdm.
    destruct (Z.compare_spec (d - 53) e) as [Heq|Hlt|Hgt];
      [| |discriminate].
    + destruct (Pos.compare_spec (Pos.iter xO p (Z.to_pos (53 - d))) m)
        as [Hm|Hm|Hm]; [| |discriminate].
      * apply (f_equal Z.pos) in Hm. rewrite Hpow in Hm.
        rewrite Z.shiftl_div_pow2 by lia.
        apply Z.div_le_lower_bound; [apply Z.pow_pos_nonneg; lia|].
        replace (- e) with (53 - d) by lia. lia.
      * apply Pos2Z.pos_lt_pos in Hm. rewrite Hpow in Hm.
        rewrite Z.shiftl_div_pow2 by lia.
        apply Z.div_le_lower_bound; [apply Z.pow_pos_nonneg; lia|].
        replace (- e) with (53 - d) by lia. lia.
    + assert (Hm53 : Z.pos (digits2_pos m) = 53) by lia.
      rewrite Hm53 in Hdm. change (2 ^ (53 - 1)) with (2 ^ 52) in Hdm.
      destruct (Z.le_gt_cases 0 e) as [He0|He0].
      * rewrite Z.shiftl_mul_pow2 by lia.
        assert (1 <= 2 ^ e) by (apply (Z.pow_le_mono_r 2 0 e); lia).
        assert (2 ^ 31 <= 2 ^ 52) by (apply Z.pow_le_mono_r; lia).
        nia.
      * rewrite Z.shiftl_div_pow2 by lia.
        apply Z.div_le_lower_bound; [apply Z.pow_pos_nonneg; lia|].
        assert (Hpd : Z.pos p < 2 ^ d) by lia.
        assert (H2 : 2 ^ (- e) * 2 ^ d <= 2 ^ 52).
        { rewrite <- Z.pow_add_r by lia. apply Z.pow_le_mono_r; lia. }
        assert (0 < 2 ^ (- e)) by (apply Z.pow_pos_nonneg; lia).
        nia.
Qed.

Lemma scan_prefix_threshold_mono (n : Z) (bp : float)
    (A B : list fftw_complex) (k l : nat) (st stl : ChnlExpSync.scan_state) :
  (k <= l)%nat ->
  ChnlExpSync.prefix n bp A B k = Some st ->
  ChnlExpSync.prefix n bp A B l = Some stl ->
  ChnlExpSync.maxMagnitude st <= ChnlExpSync.maxMagnitude stl.
Proof.
  intros Hkl Hk. revert stl. induction l as [|l IH]; intros stl Hl.
  - assert (k = 0)%nat as -> by lia. rewrite Hk in Hl. injection Hl as <-. lia.
  - destruct (decide (k = S l)) as [->|Hne].
    { rewrite Hk in Hl. injection Hl as <-. lia. }
    destruct (scan_prefix_lookup n bp A B l stl Hl)
      as (st0 & dsa & mio & H0 & Ha & Hb & Hbody).
    specialize (IH ltac:(lia) st0 H0).
    destruct (scan_body_cases n bp A B l st0 stl dsa mio Ha Hb Hbody)
      as [_ [(Hacc & _ & Hm)|(_ & _ & Hm)]]; [|lia].
    unfold ChnlExpSync.accepts in Hacc.
    apply andb_true_iff in Hacc as [Hacc _].
    pose proof (scan_prefix_threshold_range n bp A B l st0 H0) as Hr.
    pose proof (int_of_double_ge _ _ _ Hr Hacc Hm). lia.
Qed.

(** X9: during the scan of ChnlExpSync.c the running maximum
    [maxMagnitude] and the selected index [maxMagnitudeIndex] never
    decrease, and [maxMagnitude] stays between [0] and [INT_MAX]: the state
    after [l] bins dominates the state after any [k <= l] bins. *)
Theorem running_maximum_never_decreases (dsaOutput mioOutput : list fftw_complex)
    (n : Z) (binPrecision : float) (k l : nat)
    (st st' : ChnlExpSync.scan_state) :
  (k <= l)%nat ->
  ChnlExpSync.prefix n binPrecision dsaOutput mioOutput k = Some st ->
  ChnlExpSync.prefix n binPrecision dsaOutput mioOutput l = Some st' ->
  0 <= ChnlExpSync.maxMagnitude st <= ChnlExpSync.maxMagnitude st'
  /\ ChnlExpSync.maxMagnitude st' <= C.INT_MAX
  /\ ChnlExpSync.maxMagnitudeIndex st <= ChnlExpSync.maxMagnitudeIndex st'.
Proof.
  intros Hkl Hk Hl.
  pose proof (scan_prefix_threshold_range _ _ _ _ _ _ Hk).
  pose proof (scan_prefix_threshold_range _ _ _ _ _ _ Hl).
  pose proof (scan_prefix_threshold_mono _ _ _ _ _ _ _ _ Hkl Hk Hl).
  pose proof (scan_prefix_index_mono _ _ _ _ _ _ _ _ Hkl Hk Hl).
  lia.
Qed.

Lemma running_maximum_never_decreases_witness :
  match ChnlExpSync.prefix 4 2500 [(3, 4); (6, 8); (0, 1)]%float
          [(5, 0); (10, 0); (1, 0)]%float 1,
        ChnlExpSync.prefix 4 2500 [(3, 4); (6, 8); (0, 1)]%float
          [(5, 0); (10, 0); (1, 0)]%float 3 with
  | Some st, Some st' =>
      0 <= ChnlExpSync.maxMagnitude st <= ChnlExpSync.maxMagnitude st'
      /\ ChnlExpSync.maxMagnitude st' <= C.INT_MAX
      /\ ChnlExpSync.maxMagnitudeIndex st <= ChnlExpSync.maxMagnitudeIndex st'
  | _, _ => False
  end.
Proof.
  destruct (ChnlExpSync.prefix 4 2500 [(3, 4); (6, 8); (0, 1)]%float
              [(5, 0); (10, 0); (1, 0)]%float 1) as [st|] eqn:H1;
    [|vm_compute in H1; discriminate].
  destruct (ChnlExpSync.prefix 4 2500 [(3, 4); (6, 8); (0, 1)]%float
              [(5, 0); (10, 0); (1, 0)]%float 3) as [st'|] eqn:H3;
    [|vm_compute in H3; discriminate].
  apply (running_maximum_never_decreases [(3, 4); (6, 8); (0, 1)]%float
           [(5, 0); (10, 0); (1, 0)]%float 4 2500 1%nat 3%nat st st');
    [lia|exact H1|exact H3].
Defined.

(** X8: whenever the scan of ChnlExpSync.c completes, the selected index
    is a valid bin index, between [0] and [sampsPerChan / 2]; the reads of
    [dsaOutput] and [mioOutput] that follow the loop are therefore in
    bounds, [DFT] returns, and the frequency it reports is the one written
    in the frequency column of the report line of the selected bin. *)
Theorem selected_bin_in_range (atan2 : float -> float -> float)
    (dsaOutput mioOutput : list fftw_complex) (sampleRate : float)
    (sampsPerChan : Z) (st : ChnlExpSync.scan_state) :
  0 < sampsPerChan <= C.INT_MAX ->
  ChnlExpSync.scan dsaOutput mioOutput sampleRate sampsPerChan = Some st ->
  0 <= ChnlExpSync.maxMagnitudeIndex st < sampsPerChan / 2 + 1
  /\ exists r,
       ChnlExpSync.DFT atan2 dsaOutput mioOutput sampleRate sampsPerChan
       = Some (ChnlExpSync.file st, r)
       /\ (row_freq <$>
             ChnlExpSync.file st !! Z.to_nat (ChnlExpSync.maxMagnitudeIndex st))
          = Some (measuredFreq r).
Proof.
  intros HN Hscan. rewrite scan_prefix in Hscan by exact HN.
  set (nc := Z.to_nat (sampsPerChan / 2 + 1)) in *.
  assert (Hnc : (0 < nc)%nat).
  { subst nc. pose proof (Z.div_pos sampsPerChan 2 ltac:(lia) ltac:(lia)). lia. }
  destruct (scan_prefix_inv _ _ _ _ _ _ Hscan)
    as (_ & Hge & Hlt & _ & Hrows).
  destruct Hlt as [Hlt|[Hk _]]; [|lia].
  assert (Hi : (Z.to_nat (ChnlExpSync.maxMagnitudeIndex st) < nc)%nat) by lia.
  destruct (scan_prefix_loads _ _ _ _ _ _ Hscan _ Hi) as [[dsa Ha] [mio Hb]].
  split.
  - subst nc. pose proof (Z.div_pos sampsPerChan 2 ltac:(lia) ltac:(lia)). lia.
  - eexists. split.
    + apply (chnlexp_DFT_selected atan2 dsaOutput mioOutput sampleRate
               sampsPerChan st (Z.to_nat (ChnlExpSync.maxMagnitudeIndex st))
               dsa mio); [|lia|exact Ha|exact Hb].
      rewrite scan_prefix by exact HN. exact Hscan.
    + rewrite (Hrows _ dsa mio Hi Ha Hb). reflexivity.
Qed.

Lemma selected_bin_in_range_witness :
  match ChnlExpSync.scan [(3, 4); (6, 8); (0, 1)]%float
          [(5, 0); (10, 0); (1, 0)]%float 10000 4 with
  | Some st =>
      0 <= ChnlExpSync.maxMagnitudeIndex st < 4 / 2 + 1
      /\ exists r,
           ChnlExpSync.DFT Libm.atan2 [(3, 4); (6, 8); (0, 1)]%float
             [(5, 0); (10, 0); (1, 0)]%float 10000 4
           = Some (ChnlExpSync.file st, r)
           /\ (row_freq <$>
                 ChnlExpSync.file st
                   !! Z.to_nat (ChnlExpSync.maxMagnitudeIndex st))
              = Some (measuredFreq r)
  | None => False
  end.
Proof.
  destruct (ChnlExpSync.scan [(3, 4); (6, 8); (0, 1)]%float
              [(5, 0); (10, 0); (1, 0)]%float 10000 4) as [st|] eqn:H;
    [|vm_compute in H; discriminate].
  apply (selected_bin_in_range Libm.atan2 [(3, 4); (6, 8); (0, 1)]%float
           [(5, 0); (10, 0); (1, 0)]%float 10000 4 st);
    [unfold C.INT_MAX; lia|exact H].
Defined.

(** ** Undefined behaviour on a magnitude that no [int] holds *)

Lemma scan_prefix_fails (n : Z) (bp : float) (A B : list fftw_complex)
    (k l : nat) :
  (k <= l)%nat ->
  ChnlExpSync.prefix n bp A B k = None ->
  ChnlExpSync.prefix n bp A B l = None.
Proof.
  intros Hkl. induction l as [|l IH]; intros H.
  - assert (k = 0)%nat as -> by lia. exact H.
  - destruct (decide (k = S l)) as [->|Hne]; [exact H|].
    rewrite scan_prefix_S, IH by (assumption || lia). reflexivity.
Qed.

(** X10: in ChnlExpSync.c a bin that passes the test against the running
    maximum has its DSA magnitude converted to [int].  When that magnitude
    is an infinity or is [2^31] or more, the conversion is undefined, and
    so is the whole call of [DFT]. *)
Theorem unconvertible_magnitude_is_undefined
    (atan2 : float -> float -> float)
    (dsaOutput mioOutput : list fftw_complex) (sampleRate : float)
    (sampsPerChan : Z) (k : nat) (st : ChnlExpSync.scan_state)
    (dsa mio : fftw_complex) :
  0 < sampsPerChan <= C.INT_MAX ->
  Z.of_nat k < sampsPerChan / 2 + 1 ->
  ChnlExpSync.prefix sampsPerChan
    (sampleRate / C.double_of_int sampsPerChan) dsaOutput mioOutput k
  = Some st ->
  dsaOutput !! k = Some dsa -> mioOutput !! k = Some mio ->
  ChnlExpSync.accepts st dsa mio = true ->
  C.int_of_double (magnitude dsa) = None ->
  ChnlExpSync.scan dsaOutput mioOutput sampleRate sampsPerChan = None
  /\ ChnlExpSync.DFT atan2 dsaOutput mioOutput sampleRate sampsPerChan = None.
Proof.
  intros HN Hk Hst Ha Hb Hacc Hm.
  assert (Hscan : ChnlExpSync.scan dsaOutput mioOutput sampleRate sampsPerChan
                  = None).
  { rewrite scan_prefix by exact HN.
    apply (scan_prefix_fails _ _ _ _ (S k)); [lia|].
    rewrite scan_prefix_S, Hst. cbn [mbind option_bind].
    rewrite (scan_body_eq _ _ _ _ _ _ dsa mio)
      by (rewrite load_nat; assumption).
    rewrite Hacc, Hm. reflexivity. }
  split; [exact Hscan|].
  unfold ChnlExpSync.DFT. rewrite Hscan. reflexivity.
Qed.

Lemma unconvertible_magnitude_is_undefined_witness :
  ChnlExpSync.scan [(4294967296, 0); (1, 0); (0, 0)]%float
    [(1, 0); (1, 0); (0, 0)]%float 10000 4 = None
  /\ ChnlExpSync.DFT Libm.atan2 [(4294967296, 0); (1, 0); (0, 0)]%float
       [(1, 0); (1, 0); (0, 0)]%float 10000 4 = None.
Proof.
  apply (unconvertible_magnitude_is_undefined Libm.atan2
           [(4294967296, 0); (1, 0); (0, 0)]%float
           [(1, 0); (1, 0); (0, 0)]%float 10000 4 0%nat
           (ChnlExpSync.mk_scan 0 0 []) (4294967296, 0)%float (1, 0)%float);
    [unfold C.INT_MAX; lia|vm_compute; reflexivity|reflexivity..].
Defined.

(** ** NaN magnitudes *)

Lemma SFcompare_refl (x : spec_float) :
  x <> S754_nan -> SFcompare x x = Some Eq.
Proof.
  destruct x as [s|s| |s m e]; intros H; try (destruct s; reflexivity).
  - contradiction.
  - destruct s; [rewrite SFcompare_neg|rewrite SFcompare_pos];
      rewrite Z.compare_refl, Pos.compare_refl; reflexivity.
Qed.

Lemma is_nan_false (x : float) : Prim2SF x <> S754_nan -> is_nan x = false.
Proof.
  intros H. unfold is_nan. rewrite FloatAxioms.eqb_spec. unfold SFeqb.
  rewrite SFcompare_refl by exact H. reflexivity.
Qed.

Lemma ge_not_nan (a b : float) :
  C.ge a b = true -> is_nan a = false /\ is_nan b = false.
Proof.
  unfold C.ge. rewrite leb_spec. unfold SFleb. intros H.
  split; apply is_nan_false; intros E; rewrite E in H.
  - destruct (Prim2SF b) as [s|s| |s m e]; try destruct s; discriminate.
  - discriminate.
Qed.

(** The selection is either still the initial one or was made by an
    accepted bin. *)
Lemma scan_prefix_selected (n : Z) (bp : float) (A B : list fftw_complex)
    (k : nat) (st : ChnlExpSync.scan_state) :
  ChnlExpSync.prefix n bp A B k = Some st ->
  (ChnlExpSync.maxMagnitudeIndex st = 0 /\ ChnlExpSync.maxMagnitude st = 0
   /\ forall j st0 dsa mio, (j < k)%nat ->
        ChnlExpSync.prefix n bp A B j = Some st0 ->
        A !! j = Some dsa -> B !! j = Some mio ->
        ChnlExpSync.accepts st0 dsa mio = false)
  \/ exists j st0 dsa mio,
       ChnlExpSync.maxMagnitudeIndex st = Z.of_nat j /\ (j < k)%nat
       /\ ChnlExpSync.prefix n bp A B j = Some st0
       /\ A !! j = Some dsa /\ B !! j = Some mio
       /\ ChnlExpSync.accepts st0 dsa mio = true
       /\ C.int_of_double (magnitude dsa) = Some (ChnlExpSync.maxMagnitude st).
Proof.
  revert st. induction k as [|k IH]; intros st H.
  - injection H as <-. left. cbn. repeat split. intros; lia.
  - destruct (scan_prefix_lookup n bp A B k st H)
      as (st0 & dsa & mio & H0 & Ha & Hb & Hbody).
    destruct (scan_body_cases n bp A B k st0 st dsa mio Ha Hb Hbody)
      as [_ [(Hacc & Hi & Hm)|(Hacc & Hi & Hm)]].
    + right. exists k, st0, dsa, mio. repeat split; try assumption. lia.
    + rewrite Hi, Hm.
      destruct (IH st0 H0) as [(Hi0 & Hm0 & Hrej)|(j & stj & dj & mj & Hj)].
      * left. repeat split; try assumption.
        intros j stj dj mj Hjk Hpj Haj Hbj.
        destruct (decide (j = k)) as [->|Hne].
        -- congruence.
        -- apply (Hrej j stj dj mj); [lia|assumption..].
      * right. exists j, stj, dj, mj.
        destruct Hj as (? & ? & ? & ? & ? & ? & ?).
        repeat split; try assumption. lia.
Qed.

(** X11: ChnlExpSync.c never selects a bin because of a NaN.  If the bin
    selected at the end of the scan has a NaN magnitude on either channel,
    then it is bin [0] and the running maximum is still [0]: no bin was
    ever accepted, and bin [0] is only the initial value of the index. *)
Theorem nan_bin_never_selected (dsaOutput mioOutput : list fftw_complex)
    (sampleRate : float) (sampsPerChan : Z) (st : ChnlExpSync.scan_state)
    (k : nat) (dsa mio : fftw_complex) :
  0 < sampsPerChan <= C.INT_MAX ->
  ChnlExpSync.scan dsaOutput mioOutput sampleRate sampsPerChan = Some st ->
  ChnlExpSync.maxMagnitudeIndex st = Z.of_nat k ->
  dsaOutput !! k = Some dsa -> mioOutput !! k = Some mio ->
  is_nan (magnitude dsa) || is_nan (magnitude mio) = true ->
  k = 0%nat /\ ChnlExpSync.maxMagnitude st = 0.
Proof.
  intros HN Hscan Hk Ha Hb Hnan. rewrite scan_prefix in Hscan by exact HN.
  destruct (scan_prefix_selected _ _ _ _ _ _ Hscan)
    as [(Hi0 & Hm0 & _)|(j & stj & dj & mj & Hj & _ & _ & Haj & Hbj & Hacc & _)].
  - split; [lia|exact Hm0].
  - exfalso. assert (j = k) as -> by lia.
    rewrite Ha in Haj. rewrite Hb in Hbj.
    injection Haj as <-. injection Hbj as <-.
    unfold ChnlExpSync.accepts in Hacc.
    apply andb_true_iff in Hacc as [H1 H2].
    apply ge_not_nan in H1 as [H1 _]. apply ge_not_nan in H2 as [H2 _].
    rewrite H1, H2 in Hnan. discriminate.
Qed.

Lemma nan_bin_never_selected_witness :
  match ChnlExpSync.scan [(nan, 0); (nan, 0); (0, 0)]%float
          [(1, 0); (1, 0); (nan, 0)]%float 10000 4 with
  | Some st => 0%nat = 0%nat /\ ChnlExpSync.maxMagnitude st = 0
  | None => False
  end.
Proof.
  destruct (ChnlExpSync.scan [(nan, 0); (nan, 0); (0, 0)]%float
              [(1, 0); (1, 0); (nan, 0)]%float 10000 4) as [st|] eqn:H;
    [|vm_compute in H; discriminate].
  apply (nan_bin_never_selected [(nan, 0); (nan, 0); (0, 0)]%float
           [(1, 0); (1, 0); (nan, 0)]%float 10000 4 st 0%nat
           (nan, 0)%float (1, 0)%float);
    [unfold C.INT_MAX; lia|exact H| |reflexivity..].
  vm_compute in H. injection H as <-. reflexivity.
Defined.

(** ** The selected bin *)

Lemma scan_prefix_earlier (n : Z) (bp : float) (A B : list fftw_complex)
    (k l : nat) (st : ChnlExpSync.scan_state) :
  (k <= l)%nat ->
  ChnlExpSync.prefix n bp A B l = Some st ->
  is_Some (ChnlExpSync.prefix n bp A B k).
Proof.
  intros Hkl Hl.
  destruct (ChnlExpSync.prefix n bp A B k) as [s|] eqn:Hk; [eexists; reflexivity|].
  rewrite (scan_prefix_fails n bp A B k l Hkl Hk) in Hl. discriminate.
Qed.

(** What the state at the end of the scan says about every bin. *)
Lemma scan_prefix_characterised (n : Z) (bp : float) (A B : list fftw_complex)
    (K : nat) (st : ChnlExpSync.scan_state) :
  ChnlExpSync.prefix n bp A B K = Some st ->
  (ChnlExpSync.maxMagnitudeIndex st = 0 /\ ChnlExpSync.maxMagnitude st = 0
   /\ forall l dsa mio, (l < K)%nat ->
        A !! l = Some dsa -> B !! l = Some mio ->
        C.ge (magnitude dsa) (C.double_of_int 0)
        && C.ge (magnitude mio) (C.double_of_int 0) = false)
  \/ exists k dsa mio,
       ChnlExpSync.maxMagnitudeIndex st = Z.of_nat k /\ (k < K)%nat
       /\ A !! k = Some dsa /\ B !! k = Some mio
       /\ C.int_of_double (magnitude dsa) = Some (ChnlExpSync.maxMagnitude st)
       /\ forall l dsa' mio', (k < l < K)%nat ->
            A !! l = Some dsa' -> B !! l = Some mio' ->
            C.ge (magnitude dsa') (C.double_of_int (ChnlExpSync.maxMagnitude st))
            && C.ge (magnitude mio')
                 (C.double_of_int (ChnlExpSync.maxMagnitude st)) = false.
Proof.
  intros HK.
  destruct (scan_prefix_selected n bp A B K st HK)
    as [(Hi0 & Hm0 & Hrej)|(k & stk & dsa & mio & Hi & Hk & Hpk & Ha & Hb & Hacc & Hm)].
  - left. split; [exact Hi0|]. split; [exact Hm0|].
    intros l dsa mio Hl Ha Hb.
    destruct (scan_prefix_earlier n bp A B l K st ltac:(lia) HK) as [stl Hstl].
    pose proof (scan_prefix_threshold_range n bp A B l stl Hstl) as Hr.
    pose proof (scan_prefix_threshold_mono n bp A B l K stl st ltac:(lia) Hstl HK)
      as Hmono.
    assert (Hz : ChnlExpSync.maxMagnitude stl = 0) by lia.
    specialize (Hrej l stl dsa mio Hl Hstl Ha Hb).
    unfold ChnlExpSync.accepts in Hrej. rewrite Hz in Hrej. exact Hrej.
  - right. exists k, dsa, mio.
    split; [exact Hi|]. split; [exact Hk|]. split; [exact Ha|].
    split; [exact Hb|]. split; [exact Hm|].
    intros l dsa' mio' Hl Ha' Hb'.
    destruct (scan_prefix_earlier n bp A B (S k) K st ltac:(lia) HK)
      as [sk1 Hsk1].
    destruct (scan_prefix_accept n bp A B k stk sk1 dsa mio Hpk Ha Hb Hacc Hsk1)
      as [Hik1 Hmk1].
    destruct (scan_prefix_earlier n bp A B l K st ltac:(lia) HK) as [stl Hstl].
    destruct (scan_prefix_earlier n bp A B (S l) K st ltac:(lia) HK)
      as [sl1 Hsl1].
    pose proof (scan_prefix_index_mono n bp A B (S k) l sk1 stl ltac:(lia)
                  Hsk1 Hstl) as Hlo.
    pose proof (scan_prefix_index_mono n bp A B l K stl st ltac:(lia)
                  Hstl HK) as Hhi.
    pose proof (scan_prefix_index_mono n bp A B (S l) K sl1 st ltac:(lia)
                  Hsl1 HK) as Hhi1.
    assert (Hil : ChnlExpSync.maxMagnitudeIndex stl = Z.of_nat k) by lia.
    assert (Hml : ChnlExpSync.maxMagnitude stl = ChnlExpSync.maxMagnitude st).
    { rewrite (scan_prefix_unchanged n bp A B k l sk1 stl ltac:(lia)
                 Hsk1 Hstl Hik1 Hil).
      congruence. }
    destruct (ChnlExpSync.accepts stl dsa' mio') eqn:Haccl.
    + destruct (scan_prefix_accept n bp A B l stl sl1 dsa' mio' Hstl Ha' Hb'
                  Haccl Hsl1) as [Hil1 _].
      lia.
    + unfold ChnlExpSync.accepts in Haccl. rewrite Hml in Haccl. exact Haccl.
Qed.

(** X17: what the selection of ChnlExpSync.c guarantees.  When the scan
    completes with running maximum [T], either no bin was ever accepted
    (index [0], [T = 0], and every bin has a magnitude that fails the test
    against [0]), or the selected bin [k] has a DSA magnitude that converts
    to [T] and every later bin has its DSA or its MIO magnitude below [T].
    Nothing is guaranteed about the bins before [k], nor about the MIO
    magnitude of bin [k] against [T]: the selection is not the bin of
    largest magnitude. *)
Theorem selected_bin_characterised (dsaOutput mioOutput : list fftw_complex)
    (sampleRate : float) (sampsPerChan : Z) (st : ChnlExpSync.scan_state) :
  0 < sampsPerChan <= C.INT_MAX ->
  ChnlExpSync.scan dsaOutput mioOutput sampleRate sampsPerChan = Some st ->
  let T := ChnlExpSync.maxMagnitude st in
  (ChnlExpSync.maxMagnitudeIndex st = 0 /\ T = 0
   /\ forall l dsa mio, Z.of_nat l < sampsPerChan / 2 + 1 ->
        dsaOutput !! l = Some dsa -> mioOutput !! l = Some mio ->
        C.ge (magnitude dsa) (C.double_of_int 0)
        && C.ge (magnitude mio) (C.double_of_int 0) = false)
  \/ exists k dsa mio,
       ChnlExpSync.maxMagnitudeIndex st = Z.of_nat k
       /\ dsaOutput !! k = Some dsa /\ mioOutput !! k = Some mio
       /\ C.int_of_double (magnitude dsa) = Some T
       /\ forall l dsa' mio',
            (k < l)%nat -> Z.of_nat l < sampsPerChan / 2 + 1 ->
            dsaOutput !! l = Some dsa' -> mioOutput !! l = Some mio' ->
            C.ge (magnitude dsa') (C.double_of_int T)
            && C.ge (magnitude mio') (C.double_of_int T) = false.
Proof.
  intros HN Hscan T. subst T. rewrite scan_prefix in Hscan by exact HN.
  destruct (scan_prefix_characterised _ _ _ _ _ _ Hscan)
    as [(Hi & Hm & Hrej)|(k & dsa & mio & Hi & Hk & Ha & Hb & Hm & Hrej)].
  - left. split; [exact Hi|]. split; [exact Hm|].
    intros l dsa mio Hl. apply Hrej. lia.
  - right. exists k, dsa, mio. repeat (split; [assumption|]).
    intros l dsa' mio' Hkl Hl. apply Hrej. lia.
Qed.

Lemma selected_bin_characterised_witness :
  match ChnlExpSync.scan [(3, 4); (6, 8); (0, 1)]%float
          [(5, 0); (10, 0); (1, 0)]%float 10000 4 with
  | Some st =>
      let T := ChnlExpSync.maxMagnitude st in
      (ChnlExpSync.maxMagnitudeIndex st = 0 /\ T = 0
       /\ forall l dsa mio, Z.of_nat l < 4 / 2 + 1 ->
            [(3, 4); (6, 8); (0, 1)]%float !! l = Some dsa ->
            [(5, 0); (10, 0); (1, 0)]%float !! l = Some mio ->
            C.ge (magnitude dsa) (C.double_of_int 0)
            && C.ge (magnitude mio) (C.double_of_int 0) = false)
      \/ exists k dsa mio,
           ChnlExpSync.maxMagnitudeIndex st = Z.of_nat k
           /\ [(3, 4); (6, 8); (0, 1)]%float !! k = Some dsa
           /\ [(5, 0); (10, 0); (1, 0)]%float !! k = Some mio
           /\ C.int_of_double (magnitude dsa) = Some T
           /\ forall l dsa' mio',
                (k < l)%nat -> Z.of_nat l < 4 / 2 + 1 ->
                [(3, 4); (6, 8); (0, 1)]%float !! l = Some dsa' ->
                [(5, 0); (10, 0); (1, 0)]%float !! l = Some mio' ->
                C.ge (magnitude dsa') (C.double_of_int T)
                && C.ge (magnitude mio') (C.double_of_int T) = false
  | None => False
  end.
Proof.
  destruct (ChnlExpSync.scan [(3, 4); (6, 8); (0, 1)]%float
              [(5, 0); (10, 0); (1, 0)]%float 10000 4) as [st|] eqn:H;
    [|vm_compute in H; discriminate].
  apply (selected_bin_characterised [(3, 4); (6, 8); (0, 1)]%float
           [(5, 0); (10, 0); (1, 0)]%float 10000 4 st);
    [unfold C.INT_MAX; lia|exact H].
Defined.

(** ** A dominant DC term *)

Lemma dc_lock_prefix (n : Z) (bp : float) (A B : list fftw_complex)
    (a0 b0 : fftw_complex) (T : Z) :
  A !! 0%nat = Some a0 -> B !! 0%nat = Some b0 ->
  C.int_of_double (magnitude a0) = Some T ->
  C.ge (magnitude b0) 0 = true ->
  (forall l dsa mio, (0 < l)%nat ->
     A !! l = Some dsa -> B !! l = Some mio ->
     C.ge (magnitude dsa) (C.double_of_int T)
     && C.ge (magnitude mio) (C.double_of_int T) = false) ->
  forall k, (1 <= k)%nat -> (k <= length A)%nat -> (k <= length B)%nat ->
  exists st,
    ChnlExpSync.prefix n bp A B k = Some st
    /\ ChnlExpSync.maxMagnitudeIndex st = 0
    /\ ChnlExpSync.maxMagnitude st = T.
Proof.
  intros Ha0 Hb0 HT Hb Hrej k Hk1.
  induction k as [|k IH]; intros HkA HkB; [lia|].
  destruct (decide (k = 0)%nat) as [->|Hk0].
  - rewrite scan_prefix_S. cbn [ChnlExpSync.prefix for_loop mbind option_bind].
    rewrite (scan_body_eq _ _ _ _ _ _ a0 b0)
      by (rewrite load_nat; assumption).
    unfold ChnlExpSync.accepts. cbn [ChnlExpSync.maxMagnitude].
    rewrite (magnitude_ge_0 _ _ HT).
    change (C.double_of_int 0) with 0%float. rewrite Hb, HT.
    cbn [andb mbind option_bind]. eexists. split; [reflexivity|].
    split; reflexivity.
  - destruct (IH ltac:(lia) ltac:(lia) ltac:(lia)) as (st & Hst & Hi & Hm).
    destruct (lookup_lt_is_Some_2 A k ltac:(lia)) as [dsa Ha].
    destruct (lookup_lt_is_Some_2 B k ltac:(lia)) as [mio Hb'].
    rewrite scan_prefix_S, Hst. cbn [mbind option_bind].
    rewrite (scan_body_eq _ _ _ _ _ _ dsa mio)
      by (rewrite load_nat; assumption).
    unfold ChnlExpSync.accepts. rewrite Hm.
    rewrite (Hrej k dsa mio ltac:(lia) Ha Hb').
    eexists. split; [reflexivity|]. split; [exact Hi|reflexivity].
Qed.

(** X12: in ChnlExpSync.c a dominant DC term captures the selection.  If
    the DSA magnitude of bin [0] converts to the [int] [T], the MIO
    magnitude of bin [0] is not a NaN, and every later bin has its DSA or
    its MIO magnitude below [T], then [DFT] returns, the frequency it
    reports is [0 * binPrecision], and the skew in seconds it reports is a
    NaN or an infinity. *)
Theorem dominant_dc_term_is_selected (atan2 : float -> float -> float)
    (dsaOutput mioOutput : list fftw_complex) (sampleRate : float)
    (sampsPerChan : Z) (dsa0 mio0 : fftw_complex) (T : Z) :
  0 < sampsPerChan <= C.INT_MAX ->
  sampsPerChan / 2 + 1 <= Z.of_nat (length dsaOutput) ->
  sampsPerChan / 2 + 1 <= Z.of_nat (length mioOutput) ->
  dsaOutput !! 0%nat = Some dsa0 -> mioOutput !! 0%nat = Some mio0 ->
  C.int_of_double (magnitude dsa0) = Some T ->
  C.ge (magnitude mio0) 0 = true ->
  (forall l dsa mio, (0 < l)%nat ->
     dsaOutput !! l = Some dsa -> mioOutput !! l = Some mio ->
     C.ge (magnitude dsa) (C.double_of_int T)
     && C.ge (magnitude mio) (C.double_of_int T) = false) ->
  exists rows r,
    ChnlExpSync.DFT atan2 dsaOutput mioOutput sampleRate sampsPerChan
    = Some (rows, r)
    /\ measuredFreq r
       = (C.double_of_int 0 * (sampleRate / C.double_of_int sampsPerChan))%float
    /\ not_finite (measuredPhaseSkewSec r) = true.
Proof.
  intros HN HA HB Ha0 Hb0 HT Hb Hrej.
  pose proof (Z.div_pos sampsPerChan 2 ltac:(lia) ltac:(lia)) as Hdiv.
  destruct (dc_lock_prefix sampsPerChan
              (sampleRate / C.double_of_int sampsPerChan) dsaOutput mioOutput
              dsa0 mio0 T Ha0 Hb0 HT Hb Hrej
              (Z.to_nat (sampsPerChan / 2 + 1)) ltac:(lia) ltac:(lia)
              ltac:(lia)) as (st & Hst & Hi & Hm).
  rewrite <- scan_prefix in Hst by exact HN.
  rewrite (chnlexp_DFT_selected atan2 dsaOutput mioOutput sampleRate
             sampsPerChan st 0%nat dsa0 mio0 Hst Hi Ha0 Hb0).
  eexists _, _. split; [reflexivity|]. split; [reflexivity|].
  apply phaseSkewSec_dc.
Qed.

Lemma dominant_dc_term_is_selected_witness :
  exists rows r,
    ChnlExpSync.DFT Libm.atan2 [(2500, 0); (0, -2000); (0, 0)]%float
      [(2500, 0); (0, -2000); (0, 0)]%float 10000 4 = Some (rows, r)
    /\ measuredFreq r = (C.double_of_int 0 * (10000 / C.double_of_int 4))%float
    /\ not_finite (measuredPhaseSkewSec r) = true.
Proof.
  apply (dominant_dc_term_is_selected Libm.atan2
           [(2500, 0); (0, -2000); (0, 0)]%float
           [(2500, 0); (0, -2000); (0, 0)]%float 10000 4
           (2500, 0)%float (2500, 0)%float 2500);
    [unfold C.INT_MAX; lia|vm_compute; discriminate|vm_compute; discriminate
    |reflexivity|reflexivity|reflexivity|reflexivity|].
  intros [|[|[|l]]] dsa mio Hl Ha Hb; [lia| | |discriminate];
    injection Ha as <-; injection Hb as <-; reflexivity.
Defined.

(** ** The two reports carry the same values *)

(** X13: on the same two FFTW output buffers the two programs hand the
    same values to [fprintf] for the DFT report: whenever the scan of
    ChnlExpSync.c completes, [DFT] of RefClkSync.c returns, has written as
    many lines, and its line [i] carries the same five [double]s
    (frequency, DSA magnitude and amplitude, MIO magnitude and amplitude)
    as line [i] of ChnlExpSync.c.  This is about the values, not the text:
    ChnlExpSync.c prints the last four with [precision] digits and
    RefClkSync.c with four, so the printed lines differ. *)
Theorem both_programs_report_same_values (atan2 : float -> float -> float)
    (dsaOutput mioOutput : list fftw_complex) (sampleRate : float)
    (sampsPerChan : Z) (init : measured) (st : ChnlExpSync.scan_state) :
  0 < sampsPerChan <= C.INT_MAX ->
  ChnlExpSync.scan dsaOutput mioOutput sampleRate sampsPerChan = Some st ->
  exists o,
    RefClkSync.DFT atan2 dsaOutput mioOutput sampleRate sampsPerChan init
    = Some (ChnlExpSync.file st, o).
Proof.
  intros HN Hscan. rewrite scan_prefix in Hscan by exact HN.
  set (nc := Z.to_nat (sampsPerChan / 2 + 1)) in *.
  pose proof (Z.div_pos sampsPerChan 2 ltac:(lia) ltac:(lia)) as Hdiv.
  assert (Hloads := scan_prefix_loads _ _ _ _ _ _ Hscan).
  destruct (Hloads (nc - 1)%nat ltac:(lia)) as [HA HB].
  apply lookup_lt_is_Some in HA, HB.
  destruct (refclk_DFT_spec atan2 dsaOutput mioOutput sampleRate sampsPerChan
              init HN ltac:(lia) ltac:(lia))
    as (rows & o & HD & _ & Hlen & Hrows).
  destruct (scan_prefix_inv _ _ _ _ _ _ Hscan) as (_ & _ & _ & Hlf & Hfile).
  exists o. rewrite HD. do 2 f_equal.
  apply list_eq. intros i.
  destruct (decide (i < nc)%nat) as [Hi|Hi].
  - destruct (Hloads i Hi) as [[dsa Ha] [mio Hb]].
    rewrite (Hrows i dsa mio ltac:(lia) Ha Hb).
    rewrite (Hfile i dsa mio Hi Ha Hb). reflexivity.
  - rewrite !lookup_ge_None_2 by lia. reflexivity.
Qed.

Lemma both_programs_report_same_values_witness :
  match ChnlExpSync.scan [(3, 4); (6, 8); (0, 1)]%float
          [(5, 0); (10, 0); (1, 0)]%float 10000 4 with
  | Some st =>
      exists o,
        RefClkSync.DFT Libm.atan2 [(3, 4); (6, 8); (0, 1)]%float
          [(5, 0); (10, 0); (1, 0)]%float 10000 4 (mk_measured 0 0 0)
        = Some (ChnlExpSync.file st, o)
  | None => False
  end.
Proof.
  destruct (ChnlExpSync.scan [(3, 4); (6, 8); (0, 1)]%float
              [(5, 0); (10, 0); (1, 0)]%float 10000 4) as [st|] eqn:H;
    [|vm_compute in H; discriminate].
  apply (both_programs_report_same_values Libm.atan2
           [(3, 4); (6, 8); (0, 1)]%float [(5, 0); (10, 0); (1, 0)]%float
           10000 4 (mk_measured 0 0 0) st);
    [unfold C.INT_MAX; lia|exact H].
Defined.

(** ** The same spectrum on both channels *)

Lemma sub_diag_finite (p : float) : is_finite p = true -> (p - p)%float = 0%float.
Proof.
  intros Hf. apply Prim2SF_inj. rewrite sub_spec.
  change (Prim2SF 0) with (S754_zero false).
  unfold is_finite in Hf. apply negb_true_iff in Hf.
  fold (not_finite p) in Hf.
  destruct (Prim2SF p) as [s|s| |s m e] eqn:E.
  - destruct s; reflexivity.
  - rewrite not_finite_SF in Hf by (right; exists s; exact E). discriminate.
  - rewrite not_finite_SF in Hf by (left; exact E). discriminate.
  - unfold SF64sub, SFsub. cbv zeta. rewrite Z.sub_diag. reflexivity.
Qed.

Lemma phaseSkewDeg_same (p : float) :
  is_finite p = true -> phaseSkewDeg p p = 0%float.
Proof.
  intros Hf. unfold phaseSkewDeg. rewrite (sub_diag_finite p Hf). reflexivity.
Qed.

Lemma selected_index_loads (A B : list fftw_complex) (rate : float) (N : Z)
    (st : ChnlExpSync.scan_state) :
  0 < N <= C.INT_MAX ->
  ChnlExpSync.scan A B rate N = Some st ->
  exists k dsa mio,
    ChnlExpSync.maxMagnitudeIndex st = Z.of_nat k
    /\ A !! k = Some dsa /\ B !! k = Some mio.
Proof.
  intros HN Hscan. rewrite scan_prefix in Hscan by exact HN.
  pose proof (Z.div_pos N 2 ltac:(lia) ltac:(lia)) as Hdiv.
  destruct (scan_prefix_inv _ _ _ _ _ _ Hscan) as (_ & Hge & Hlt & _).
  destruct Hlt as [Hlt|[Hk _]]; [|lia].
  destruct (scan_prefix_loads _ _ _ _ _ _ Hscan
              (Z.to_nat (ChnlExpSync.maxMagnitudeIndex st)) ltac:(lia))
    as [[dsa Ha] [mio Hb]].
  exists (Z.to_nat (ChnlExpSync.maxMagnitudeIndex st)), dsa, mio.
  split; [lia|]. split; assumption.
Qed.

(** X14: when both channels have the same spectrum and the phases
    computed from it are finite, ChnlExpSync.c reports a skew of exactly
    [0] degrees, and a skew in seconds of [0 * (1 / f)] for the reported
    frequency [f]. *)
Theorem same_spectrum_zero_degrees (atan2 : float -> float -> float)
    (dsaOutput : list fftw_complex) (sampleRate : float) (sampsPerChan : Z)
    (rows : list dft_row) (r : measured) :
  0 < sampsPerChan <= C.INT_MAX ->
  (forall i c, dsaOutput !! i = Some c ->
     is_finite (atan2 (IMAG c) (REAL c) * (180 / PI)) = true) ->
  ChnlExpSync.DFT atan2 dsaOutput dsaOutput sampleRate sampsPerChan
  = Some (rows, r) ->
  measuredPhaseSkewDeg r = 0%float
  /\ measuredPhaseSkewSec r = (0 * (1 / measuredFreq r))%float.
Proof.
  intros HN Hfin HD.
  destruct (ChnlExpSync.scan dsaOutput dsaOutput sampleRate sampsPerChan)
    as [st|] eqn:Hscan;
    [|unfold ChnlExpSync.DFT in HD; rewrite Hscan in HD; discriminate].
  destruct (selected_index_loads _ _ _ _ _ HN Hscan) as (k & c & c' & Hk & Hc & Hc').
  rewrite Hc in Hc'. injection Hc' as <-.
  rewrite (chnlexp_DFT_selected atan2 dsaOutput dsaOutput sampleRate
             sampsPerChan st k c c Hscan Hk Hc Hc) in HD.
  injection HD as _ <-.
  assert (Hp := Hfin k c Hc).
  unfold RefClkSync.triple_of.
  cbn [measuredPhaseSkewDeg measuredPhaseSkewSec measuredFreq].
  split; [apply phaseSkewDeg_same; exact Hp|].
  unfold phaseSkewSec. rewrite (sub_diag_finite _ Hp). reflexivity.
Qed.

Lemma same_spectrum_zero_degrees_witness :
  match ChnlExpSync.DFT Libm.atan2 [(0, 0); (0, -2000); (0, 0)]%float
          [(0, 0); (0, -2000); (0, 0)]%float 10000 4 with
  | Some (rows, r) =>
      measuredPhaseSkewDeg r = 0%float
      /\ measuredPhaseSkewSec r = (0 * (1 / measuredFreq r))%float
  | None => False
  end.
Proof.
  destruct (ChnlExpSync.DFT Libm.atan2 [(0, 0); (0, -2000); (0, 0)]%float
              [(0, 0); (0, -2000); (0, 0)]%float 10000 4)
    as [[rows r]|] eqn:H; [|vm_compute in H; discriminate].
  apply (same_spectrum_zero_degrees Libm.atan2
           [(0, 0); (0, -2000); (0, 0)]%float 10000 4 rows r);
    [unfold C.INT_MAX; lia| |exact H].
  intros [|[|[|i]]] c Hc; [| | |discriminate]; injection Hc as <-; reflexivity.
Defined.

(** ** [NormalizePhaseAngleDifference] beyond one turn *)

(** A value above 270 and at most 630. *)
Lemma between_270_630 (x : spec_float) :
  SFltb (S754_finite false 4749890231992320 (-44)) x = true ->
  SFleb x (S754_finite false 5541538603991040 (-43)) = true ->
  exists m e, x = S754_finite false m e
              /\ (e = -44 /\ 4749890231992320 < Z.pos m
                  \/ e = -43 /\ Z.pos m <= 5541538603991040).
Proof.
  unfold SFltb, SFleb.
  destruct x as [s|s| |s m e]; try (destruct s); try discriminate.
  rewrite !SFcompare_pos. intros H1 H2. exists m, e. split; [reflexivity|].
  cmp_cases; try discriminate; lia.
Qed.

(** A value below -90 and at least -450. *)
Lemma between_m450_m90 (x : spec_float) :
  SFleb (S754_finite true 7916483719987200 (-44)) x = true ->
  SFltb x (S754_finite true 6333186975989760 (-46)) = true ->
  exists m e, x = S754_finite true m e
              /\ (e = -44 /\ Z.pos m <= 7916483719987200
                  \/ e = -45
                  \/ e = -46 /\ 6333186975989760 < Z.pos m).
Proof.
  unfold SFltb, SFleb.
  destruct x as [s|s| |s m e]; try (destruct s); try discriminate.
  rewrite !SFcompare_neg. intros H1 H2. exists m, e. split; [reflexivity|].
  cmp_cases; cbn in H1, H2; try discriminate; lia.
Qed.

(** [x - 360] for a value above 270 and at most 630 is at most 270. *)
Lemma sub_360_wide (m : positive) (e : Z) :
  Z.pos (digits2_pos m) = 53 ->
  (e = -44 /\ 4749890231992320 < Z.pos m
   \/ e = -43 /\ Z.pos m <= 5541538603991040) ->
  let r := SFsub prec emax (S754_finite false m e)
             (S754_finite false 6333186975989760 (-44)) in
  SFleb (S754_finite true 6333186975989760 (-46)) r = true
  /\ SFleb r (S754_finite false 4749890231992320 (-44)) = true.
Proof.
  intros Hd Hcase r. subst r.
  pose proof (digits2_pos_bounds m) as [Hlo Hhi]. rewrite Hd in Hlo, Hhi.
  change (2 ^ (53 - 1)) with 4503599627370496 in Hlo.
  change (2 ^ 53) with 9007199254740992 in Hhi.
  destruct Hcase as [[-> Hm]|[-> Hm]].
  - destruct (Z.lt_ge_cases (Z.pos m) 6333186975989760) as [Hlt|Hge].
    + destruct (sub_360_range m ltac:(lia)) as (_ & H1 & H2).
      split; assumption.
    + unfold SFsub. change (Z.min (-44) (-44)) with (-44).
      unfold shl_align. change (-44 - -44) with 0. cbn [fst cond_Zopp].
      destruct (Z.pos m - 6333186975989760) as [|q|q] eqn:HM; try lia.
      * split; reflexivity.
      * cbn [binary_normalize].
        assert (Hq : Z.pos q < 2 ^ 52).
        { apply Z.lt_trans with 2674012278751232; [lia|reflexivity]. }
        pose proof (digits2_pos_le q 52 Hq ltac:(lia)) as Hdq.
        pose proof (digits2_pos_bounds q) as [Hqlo Hqhi].
        rewrite binary_round_exact by lia.
        set (d := Z.pos (digits2_pos q)) in *.
        unfold SFleb. rewrite SFcompare_pos. split; [reflexivity|].
        cmp_cases; try reflexivity; lia.
  - unfold SFsub. change (Z.min (-43) (-44)) with (-44).
    unfold shl_align. change (-44 - -44) with 0. change (-44 - -43) with (-1).
    cbn [fst cond_Zopp Pos.iter].
    change (Z.pos m~0) with (2 * Z.pos m).
    destruct (2 * Z.pos m - 6333186975989760) as [|q|q] eqn:HM; try lia.
    cbn [binary_normalize].
    assert (Hq : Z.pos q < 2 ^ 53).
    { apply Z.lt_trans with 4749890231992321; [lia|reflexivity]. }
    pose proof (digits2_pos_le q 53 Hq ltac:(lia)) as Hdq.
    pose proof (digits2_pos_bounds q) as [Hqlo Hqhi].
    rewrite binary_round_exact by lia.
    set (d := Z.pos (digits2_pos q)) in *.
    unfold SFleb. rewrite SFcompare_pos. split; [reflexivity|].
    destruct (Z.eq_dec d 53) as [Hd53|Hd53].
    + rewrite Hd53. change (53 + -44 - 53 ?= -44) with Eq. cbv iota.
      change (53 - 53) with 0. rewrite Z.pow_0_r, Z.mul_1_r, Pos2Z.id.
      destruct (Pos.compare_spec q 4749890231992320) as [Hc|Hc|Hc];
        try reflexivity.
      apply Pos2Z.pos_lt_pos in Hc. lia.
    + destruct (Z.compare_spec (d + -44 - 53) (-44)); try reflexivity; lia.
Qed.

(** [x + 360] for a value below -90 and at least -450 is at least -90. *)
Lemma add_360_wide (m : positive) (e : Z) :
  Z.pos (digits2_pos m) = 53 ->
  (e = -44 /\ Z.pos m <= 7916483719987200
   \/ e = -45
   \/ e = -46 /\ 6333186975989760 < Z.pos m) ->
  let r := SFadd prec emax (S754_finite true m e)
             (S754_finite false 6333186975989760 (-44)) in
  SFleb (S754_finite true 6333186975989760 (-46)) r = true
  /\ SFleb r (S754_finite false 4749890231992320 (-44)) = true.
Proof.
  intros Hd Hcase.
  destruct Hcase as [[He Hm]|Hcase].
  - destruct (Z.lt_ge_cases (Z.pos m) 6333186975989760) as [Hlt|Hge].
    + apply add_360_range; [exact Hd|]. left. split; assumption.
    + subst e. intros r. subst r.
      unfold SFadd. change (Z.min (-44) (-44)) with (-44).
      unfold shl_align. change (-44 - -44) with 0. cbn [fst cond_Zopp].
      destruct (- Z.pos m + 6333186975989760) as [|q|q] eqn:HM; try lia.
      * split; reflexivity.
      * cbn [binary_normalize].
        assert (Hq : Z.pos q < 2 ^ 51).
        { apply Z.lt_trans with 1583296743997441; [lia|reflexivity]. }
        pose proof (digits2_pos_le q 51 Hq ltac:(lia)) as Hdq.
        pose proof (digits2_pos_bounds q) as [Hqlo Hqhi].
        rewrite binary_round_exact by lia.
        set (d := Z.pos (digits2_pos q)) in *.
        unfold SFleb. rewrite SFcompare_neg. split; [|reflexivity].
        destruct (Z.eq_dec d 51) as [Hd51|Hd51].
        -- rewrite Hd51. change (-46 ?= 51 + -44 - 53) with Eq. cbv iota.
           change (53 - 51) with 2. change (2 ^ 2) with 4.
           destruct (Pos.compare_spec 6333186975989760
                       (Z.to_pos (Z.pos q * 4))) as [Hc|Hc|Hc];
             try reflexivity.
           apply Pos2Z.pos_lt_pos in Hc. rewrite Z2Pos.id in Hc by lia. lia.
        -- destruct (Z.compare_spec (-46) (d + -44 - 53)); try reflexivity; lia.
  - apply add_360_range; [exact Hd|]. right. exact Hcase.
Qed.

Lemma SFleb_not_ltb (x y : spec_float) :
  SFleb x y = true -> SFltb y x = false.
Proof.
  unfold SFltb, SFleb, SFcompare.
  destruct x as [sx|sx| |sx mx ex], y as [sy|sy| |sy my ey];
    try (destruct sx); try (destruct sy); intros H; try reflexivity;
    try discriminate.
  - change (Pos.compare_cont Eq ?a ?b) with (Pos.compare a b) in *.
    rewrite (Z.compare_antisym ex ey), (Pos.compare_antisym mx my).
    destruct (ex ?= ey); cbn in *; try discriminate; try reflexivity.
    destruct (mx ?= my)%positive; cbn in *; try discriminate; reflexivity.
  - change (Pos.compare_cont Eq ?a ?b) with (Pos.compare a b) in *.
    rewrite (Z.compare_antisym ex ey), (Pos.compare_antisym mx my).
    destruct (ex ?= ey); cbn in *; try discriminate; try reflexivity.
    destruct (mx ?= my)%positive; cbn in *; try discriminate; reflexivity.
Qed.

(** From -450 to 630 the result stays between -90 and 270. *)
Lemma normalize_range_wide (d : float) :
  C.ge d (-450) = true -> C.ge 630 d = true ->
  C.ge (NormalizePhaseAngleDifference d) (-90) = true
  /\ C.ge 270 (NormalizePhaseAngleDifference d) = true.
Proof.
  rewrite normalize_exclusive. unfold C.gt, C.lt, C.ge.
  rewrite !ltb_spec, (leb_spec (-450)), (leb_spec d).
  change (Prim2SF (-450)) with (S754_finite true 7916483719987200 (-44)).
  change (Prim2SF 630) with (S754_finite false 5541538603991040 (-43)).
  change (Prim2SF 270) with (S754_finite false 4749890231992320 (-44)).
  change (Prim2SF (-90)) with (S754_finite true 6333186975989760 (-46)).
  intros Hlo Hhi.
  destruct (SFltb (S754_finite false 4749890231992320 (-44)) (Prim2SF d))
    eqn:H270.
  - destruct (between_270_630 _ H270 Hhi) as (m & e & Hx & Hcase).
    assert (Hd : Z.pos (digits2_pos m) = 53).
    { destruct (valid_finite_canonical d false m e Hx) as [Hcan _]. lia. }
    destruct (sub_360_wide m e Hd Hcase) as (Hge & Hle).
    rewrite !leb_spec, sub_spec, Hx.
    change (Prim2SF 360) with (S754_finite false 6333186975989760 (-44)).
    change (Prim2SF 270) with (S754_finite false 4749890231992320 (-44)).
    change (Prim2SF (-90)) with (S754_finite true 6333186975989760 (-46)).
    unfold SF64sub. auto.
  - destruct (SFltb (Prim2SF d) (S754_finite true 6333186975989760 (-46)))
      eqn:H90.
    + destruct (between_m450_m90 _ Hlo H90) as (m & e & Hx & Hcase).
      assert (Hd : Z.pos (digits2_pos m) = 53).
      { destruct (valid_finite_canonical d true m e Hx) as [Hcan _]. lia. }
      destruct (add_360_wide m e Hd Hcase) as (Hge & Hle).
      rewrite !leb_spec, add_spec, Hx.
      change (Prim2SF 360) with (S754_finite false 6333186975989760 (-44)).
      change (Prim2SF 270) with (S754_finite false 4749890231992320 (-44)).
      change (Prim2SF (-90)) with (S754_finite true 6333186975989760 (-46)).
      unfold SF64add. auto.
    + assert (Hnan : Prim2SF d <> S754_nan).
      { intros Hx. rewrite Hx in Hhi. discriminate. }
      rewrite !leb_spec.
      change (Prim2SF 270) with (S754_finite false 4749890231992320 (-44)).
      change (Prim2SF (-90)) with (S754_finite true 6333186975989760 (-46)).
      split; apply SFltb_false_leb; try assumption; discriminate.
Qed.

(** A value between -90 and 270 is returned as it is. *)
Lemma normalize_fixed (r : float) :
  C.ge r (-90) = true -> C.ge 270 r = true ->
  NormalizePhaseAngleDifference r = r.
Proof.
  intros Hlo Hhi. rewrite normalize_exclusive. unfold C.gt, C.lt, C.ge in *.
  rewrite leb_spec in Hlo, Hhi. rewrite !ltb_spec.
  rewrite (SFleb_not_ltb _ _ Hhi), (SFleb_not_ltb _ _ Hlo). reflexivity.
Qed.

(** X15: [NormalizePhaseAngleDifference] brings every difference from
    -450 to 630 (both included) into the interval from -90 to 270, rounding
    included, and applying it a second time changes nothing. *)
Theorem normalize_range_and_idempotence (d : float) :
  C.ge d (-450) = true -> C.ge 630 d = true ->
  C.ge (NormalizePhaseAngleDifference d) (-90) = true
  /\ C.ge 270 (NormalizePhaseAngleDifference d) = true
  /\ NormalizePhaseAngleDifference (NormalizePhaseAngleDifference d)
     = NormalizePhaseAngleDifference d.
Proof.
  intros Hlo Hhi. destruct (normalize_range_wide d Hlo Hhi) as [H1 H2].
  split; [exact H1|]. split; [exact H2|].
  apply normalize_fixed; assumption.
Qed.

Lemma normalize_range_and_idempotence_witness :
  C.ge (NormalizePhaseAngleDifference 400) (-90) = true
  /\ C.ge 270 (NormalizePhaseAngleDifference 400) = true
  /\ NormalizePhaseAngleDifference (NormalizePhaseAngleDifference 400)
     = NormalizePhaseAngleDifference 400.
Proof.
  apply (normalize_range_and_idempotence 400); reflexivity.
Defined.

(** ** Values that are not finite *)

Lemma not_finite_cases (x : float) :
  not_finite x = true ->
  Prim2SF x = S754_nan \/ exists s, Prim2SF x = S754_infinity s.
Proof.
  unfold not_finite, is_infinity. intros H.
  destruct (Prim2SF x) as [s|s| |s m e] eqn:E;
    [|right; exists s; reflexivity|left; reflexivity|].
  - rewrite is_nan_false in H by (rewrite E; discriminate).
    rewrite FloatAxioms.eqb_spec, abs_spec, E in H. discriminate.
  - rewrite is_nan_false in H by (rewrite E; discriminate).
    rewrite FloatAxioms.eqb_spec, abs_spec, E in H. discriminate.
Qed.

(** X16: [NormalizePhaseAngleDifference] returns a NaN or an infinity as
    it is: a difference that is not finite is not brought into any
    interval. *)
Theorem normalize_keeps_not_finite (d : float) :
  not_finite d = true -> NormalizePhaseAngleDifference d = d.
Proof.
  intros H. rewrite normalize_exclusive. unfold C.gt, C.lt.
  rewrite !ltb_spec.
  change (Prim2SF 270) with (S754_finite false 4749890231992320 (-44)).
  change (Prim2SF (-90)) with (S754_finite true 6333186975989760 (-46)).
  destruct (not_finite_cases d H) as [E|[[|] E]]; rewrite E;
    cbv beta iota delta [SFltb SFcompare].
  - reflexivity.
  - apply Prim2SF_inj. rewrite add_spec, E. reflexivity.
  - apply Prim2SF_inj. rewrite sub_spec, E. reflexivity.
Qed.

Lemma normalize_keeps_not_finite_witness :
  NormalizePhaseAngleDifference infinity = infinity.
Proof. apply (normalize_keeps_not_finite infinity). reflexivity. Defined.
